(** * PyNE nuclear data accessors (data.cpp)

    A shallow embedding of the memoising lookup functions of [pyne::data]
    and the verification of their documented behaviour.

    - C++ [int] is modelled by [Z]; [/] and [%] are the truncating
      [Z.quot] and [Z.rem].
    - C++ [double] is modelled by the IEEE binary64 numbers of
      [PrimFloat].
    - [std::map] is modelled by the list of its entries in iteration
      order (ascending under the key comparison); iterators are suffixes
      of that list.
    - The process-wide tables form one record [caches] that every
      accessor threads through; exceptions, undefined behaviour and
      unbounded recursion are explicit results. *)

From Stdlib Require Import ZArith List Bool Lia Floats String Sorted.
Import ListNotations.
Open Scope Z_scope.

(** ** Scalars *)

Definition double := PrimFloat.float.

(** [(double) n] for a 32-bit [int] [n]: exact, every [int] is a binary64
    number. *)
Definition double_of_int (z : Z) : double :=
  if z <? 0 then PrimFloat.opp (PrimFloat.of_uint63 (Uint63.of_Z (- z)))
  else PrimFloat.of_uint63 (Uint63.of_Z z).

(** Conversion of a [long] constant to [int]: reduction modulo 2^32 into
    the signed range. *)
Definition int_of_long (z : Z) : Z :=
  let r := z mod 4294967296 in
  if r <? 2147483648 then r else r - 4294967296.

(** [extra_types::complex_t]. *)
Record complex_t := mk_complex { re : double; im : double }.

(** ** std::map and std::set *)

Module stdmap.
Section Defs.
Context {K V : Type}.
Variable lt : K -> K -> bool.

(** Two keys are the same key when neither is less than the other. *)
Definition equiv (a b : K) : bool := negb (lt a b) && negb (lt b a).

(** [m.find(k)], as the mapped value when the iterator is not [end()]. *)
Fixpoint find (k : K) (m : list (K * V)) : option V :=
  match m with
  | [] => None
  | (k', v) :: m' => if equiv k k' then Some v else find k m'
  end.

(** [m.count(k)]. *)
Definition count (k : K) (m : list (K * V)) : Z :=
  match find k m with Some _ => 1 | None => 0 end.

(** [m.empty()]. *)
Definition empty (m : list (K * V)) : bool :=
  match m with [] => true | _ :: _ => false end.

(** [m[k] = v]: the entry of an existing key keeps its key object. *)
Fixpoint insert (k : K) (v : V) (m : list (K * V)) : list (K * V) :=
  match m with
  | [] => [(k, v)]
  | (k', v') :: m' =>
      if lt k k' then (k, v) :: (k', v') :: m'
      else if lt k' k then (k', v') :: insert k v m'
      else (k', v) :: m'
  end.

(** [m.lower_bound(k)]: the iterator at the first entry whose key is
    not less than [k]. *)
Fixpoint lower_bound (k : K) (m : list (K * V)) : list (K * V) :=
  match m with
  | [] => []
  | (k', v) :: m' => if lt k' k then lower_bound k m' else m
  end.

(** [m.upper_bound(k)]: the iterator at the first entry whose key is
    greater than [k]. *)
Fixpoint upper_bound (k : K) (m : list (K * V)) : list (K * V) :=
  match m with
  | [] => []
  | (k', v) :: m' => if lt k k' then m else upper_bound k m'
  end.

(** [for (it = first; it != last; ++it)]: the entries visited.  Two
    iterators of one map are equal when their suffixes have the same
    length; incrementing [end()] is undefined. *)
Fixpoint iterate (it : list (K * V)) (last : nat) : option (list (K * V)) :=
  if Nat.eqb (List.length it) last then Some []
  else match it with
       | [] => None
       | kv :: it' => option_map (cons kv) (iterate it' last)
       end.
End Defs.
End stdmap.

(** [std::less<int>] and [std::less<std::pair<A,B>>]. *)
Definition int_lt : Z -> Z -> bool := Z.ltb.

Definition pair_lt {A B : Type} (ltA : A -> A -> bool) (ltB : B -> B -> bool)
  (a b : A * B) : bool :=
  ltA (fst a) (fst b) || (negb (ltA (fst b) (fst a)) && ltB (snd a) (snd b)).

Definition int_pair_lt : Z * Z -> Z * Z -> bool := pair_lt Z.ltb Z.ltb.
Definition int_double_lt : Z * double -> Z * double -> bool :=
  pair_lt Z.ltb PrimFloat.ltb.

(** [s.insert(x)] on a [std::set<int>], kept in ascending order. *)
Fixpoint set_insert (x : Z) (s : list Z) : list Z :=
  match s with
  | [] => [x]
  | y :: s' =>
      if x <? y then x :: y :: s'
      else if y <? x then y :: set_insert x s'
      else s
  end.


(** ** Record layouts

    The structs are declared in data.h; their fields and field types are
    the ones each loader registers for its table. *)

Module atomic_mass_struct.
Record t := mk { nuc : Z; mass : double; error : double; abund : double }.
End atomic_mass_struct.

Module scattering_lengths_struct.
Record t := mk {
  nuc : Z;
  b_coherent : complex_t;
  b_incoherent : complex_t;
  xs_coherent : double;
  xs_incoherent : double;
  xs : double }.
End scattering_lengths_struct.

Module wimsdfpy_struct.
Record t := mk { from_nuc : Z; to_nuc : Z; yields : double }.
End wimsdfpy_struct.

Module ndsfpy_struct.
Record t := mk {
  from_nuc : Z;
  to_nuc : Z;
  yield_thermal : double;
  yield_thermal_err : double;
  yield_fast : double;
  yield_fast_err : double;
  yield_14MeV : double;
  yield_14MeV_err : double }.
End ndsfpy_struct.

Module ndsfpysub_struct.
Record t := mk {
  yield_thermal : double;
  yield_thermal_err : double;
  yield_fast : double;
  yield_fast_err : double;
  yield_14MeV : double;
  yield_14MeV_err : double }.
End ndsfpysub_struct.

Module half_life_decay_struct.
Record t := mk {
  from_nuc : Z;
  level : double;
  to_nuc : Z;
  half_life : double;
  decay_const : double;
  branch_ratio : double }.
End half_life_decay_struct.

(** Modelled from the spec: the declaration of [level_struct] (data.h) is
    not part of the sources; the metastable field is the "metastable-ordinal
    field" of the level table, an integer ordinal that [metastable_id]
    compares with its [int] argument. *)
Module level_struct.
Record t := mk {
  nuc_id : Z;
  level : double;
  half_life : double;
  metastable : Z }.
End level_struct.

Module decay_struct.
Record t := mk {
  parent : Z;
  daughter : Z;
  decay : string;
  half_life : double;
  half_life_error : double;
  branch_ratio : double;
  photon_branch_ratio : double;
  photon_branch_ratio_error : double;
  beta_branch_ratio : double;
  beta_branch_ratio_error : double }.
End decay_struct.

Module gamma_struct.
Record t := mk {
  energy : double;
  energy_err : double;
  photon_intensity : double;
  photon_intensity_err : double;
  conv_intensity : double;
  conv_intensity_err : double;
  total_intensity : double;
  total_intensity_err : double;
  from_nuc : Z;
  to_nuc : Z;
  parent_nuc : Z;
  k_conv_e : double;
  l_conv_e : double;
  m_conv_e : double }.
End gamma_struct.

(** ** The reference dataset (nuc_data.h5)

    What the loaders can observe of the file at [NUC_DATA_PATH]: whether
    it exists, whether it is an HDF5 file, and the rows of each table. *)

Record nuc_data := mk_nuc_data {
  file_exists : bool;
  is_hdf5 : bool;
  tbl_atomic_mass : list atomic_mass_struct.t;
  tbl_scattering_lengths : list scattering_lengths_struct.t;
  tbl_wimsd_fission_products : list wimsdfpy_struct.t;
  tbl_nds_fission_products : list ndsfpy_struct.t;
  tbl_half_life : list half_life_decay_struct.t;
  tbl_level_list : list level_struct.t;
  tbl_decays : list decay_struct.t;
  tbl_gammas : list gamma_struct.t }.

(** The two exceptions a loader throws. *)
Inductive load_error := FileNotFound | FileNotHDF5.

(** ** The process-wide tables *)

Record caches := mk_caches {
  atomic_mass_map : list (Z * double);
  natural_abund_map : list (Z * double);
  b_coherent_map : list (Z * complex_t);
  b_incoherent_map : list (Z * complex_t);
  b_map : list (Z * double);
  wimsdfpy_data : list ((Z * Z) * double);
  ndsfpy_data : list ((Z * Z) * ndsfpysub_struct.t);
  half_life_map : list (Z * double);
  decay_const_map : list (Z * double);
  branch_ratio_map : list ((Z * Z) * double);
  state_energy_map : list (Z * double);
  decay_children_map : list (Z * list Z);
  level_data : list (Z * level_struct.t);
  decay_data : list ((Z * Z) * decay_struct.t);
  gamma_data : list ((Z * double) * gamma_struct.t) }.

(** Every table is empty when the process starts. *)
Definition init_caches : caches :=
  mk_caches [] [] [] [] [] [] [] [] [] [] [] [] [] [] [].

Definition set_atomic_mass_map (m : list (Z * double)) (c : caches) : caches :=
  mk_caches m (natural_abund_map c) (b_coherent_map c) (b_incoherent_map c)
    (b_map c) (wimsdfpy_data c) (ndsfpy_data c) (half_life_map c)
    (decay_const_map c) (branch_ratio_map c) (state_energy_map c)
    (decay_children_map c) (level_data c) (decay_data c) (gamma_data c).

Definition set_natural_abund_map (m : list (Z * double)) (c : caches) : caches :=
  mk_caches (atomic_mass_map c) m (b_coherent_map c) (b_incoherent_map c)
    (b_map c) (wimsdfpy_data c) (ndsfpy_data c) (half_life_map c)
    (decay_const_map c) (branch_ratio_map c) (state_energy_map c)
    (decay_children_map c) (level_data c) (decay_data c) (gamma_data c).

Definition set_b_coherent_map (m : list (Z * complex_t)) (c : caches) : caches :=
  mk_caches (atomic_mass_map c) (natural_abund_map c) m (b_incoherent_map c)
    (b_map c) (wimsdfpy_data c) (ndsfpy_data c) (half_life_map c)
    (decay_const_map c) (branch_ratio_map c) (state_energy_map c)
    (decay_children_map c) (level_data c) (decay_data c) (gamma_data c).

Definition set_b_incoherent_map (m : list (Z * complex_t)) (c : caches) : caches :=
  mk_caches (atomic_mass_map c) (natural_abund_map c) (b_coherent_map c) m
    (b_map c) (wimsdfpy_data c) (ndsfpy_data c) (half_life_map c)
    (decay_const_map c) (branch_ratio_map c) (state_energy_map c)
    (decay_children_map c) (level_data c) (decay_data c) (gamma_data c).

Definition set_wimsdfpy_data (m : list ((Z * Z) * double)) (c : caches) : caches :=
  mk_caches (atomic_mass_map c) (natural_abund_map c) (b_coherent_map c)
    (b_incoherent_map c) (b_map c) m (ndsfpy_data c) (half_life_map c)
    (decay_const_map c) (branch_ratio_map c) (state_energy_map c)
    (decay_children_map c) (level_data c) (decay_data c) (gamma_data c).

Definition set_ndsfpy_data (m : list ((Z * Z) * ndsfpysub_struct.t)) (c : caches)
  : caches :=
  mk_caches (atomic_mass_map c) (natural_abund_map c) (b_coherent_map c)
    (b_incoherent_map c) (b_map c) (wimsdfpy_data c) m (half_life_map c)
    (decay_const_map c) (branch_ratio_map c) (state_energy_map c)
    (decay_children_map c) (level_data c) (decay_data c) (gamma_data c).

Definition set_half_life_map (m : list (Z * double)) (c : caches) : caches :=
  mk_caches (atomic_mass_map c) (natural_abund_map c) (b_coherent_map c)
    (b_incoherent_map c) (b_map c) (wimsdfpy_data c) (ndsfpy_data c) m
    (decay_const_map c) (branch_ratio_map c) (state_energy_map c)
    (decay_children_map c) (level_data c) (decay_data c) (gamma_data c).

Definition set_decay_const_map (m : list (Z * double)) (c : caches) : caches :=
  mk_caches (atomic_mass_map c) (natural_abund_map c) (b_coherent_map c)
    (b_incoherent_map c) (b_map c) (wimsdfpy_data c) (ndsfpy_data c)
    (half_life_map c) m (branch_ratio_map c) (state_energy_map c)
    (decay_children_map c) (level_data c) (decay_data c) (gamma_data c).

Definition set_branch_ratio_map (m : list ((Z * Z) * double)) (c : caches) : caches :=
  mk_caches (atomic_mass_map c) (natural_abund_map c) (b_coherent_map c)
    (b_incoherent_map c) (b_map c) (wimsdfpy_data c) (ndsfpy_data c)
    (half_life_map c) (decay_const_map c) m (state_energy_map c)
    (decay_children_map c) (level_data c) (decay_data c) (gamma_data c).

Definition set_state_energy_map (m : list (Z * double)) (c : caches) : caches :=
  mk_caches (atomic_mass_map c) (natural_abund_map c) (b_coherent_map c)
    (b_incoherent_map c) (b_map c) (wimsdfpy_data c) (ndsfpy_data c)
    (half_life_map c) (decay_const_map c) (branch_ratio_map c) m
    (decay_children_map c) (level_data c) (decay_data c) (gamma_data c).

Definition set_decay_children_map (m : list (Z * list Z)) (c : caches) : caches :=
  mk_caches (atomic_mass_map c) (natural_abund_map c) (b_coherent_map c)
    (b_incoherent_map c) (b_map c) (wimsdfpy_data c) (ndsfpy_data c)
    (half_life_map c) (decay_const_map c) (branch_ratio_map c)
    (state_energy_map c) m (level_data c) (decay_data c) (gamma_data c).

Definition set_level_data (m : list (Z * level_struct.t)) (c : caches) : caches :=
  mk_caches (atomic_mass_map c) (natural_abund_map c) (b_coherent_map c)
    (b_incoherent_map c) (b_map c) (wimsdfpy_data c) (ndsfpy_data c)
    (half_life_map c) (decay_const_map c) (branch_ratio_map c)
    (state_energy_map c) (decay_children_map c) m (decay_data c) (gamma_data c).

Definition set_decay_data (m : list ((Z * Z) * decay_struct.t)) (c : caches)
  : caches :=
  mk_caches (atomic_mass_map c) (natural_abund_map c) (b_coherent_map c)
    (b_incoherent_map c) (b_map c) (wimsdfpy_data c) (ndsfpy_data c)
    (half_life_map c) (decay_const_map c) (branch_ratio_map c)
    (state_energy_map c) (decay_children_map c) (level_data c) m (gamma_data c).

Definition set_gamma_data (m : list ((Z * double) * gamma_struct.t)) (c : caches)
  : caches :=
  mk_caches (atomic_mass_map c) (natural_abund_map c) (b_coherent_map c)
    (b_incoherent_map c) (b_map c) (wimsdfpy_data c) (ndsfpy_data c)
    (half_life_map c) (decay_const_map c) (branch_ratio_map c)
    (state_energy_map c) (decay_children_map c) (level_data c) (decay_data c) m.

(** ** Results of a call

    A call returns a value and leaves the tables in a new state, or throws
    a loader exception, or has undefined behaviour, or is still recursing
    when the recursion budget is used up. *)

Inductive outcome (A : Type) : Type :=
| Ret (a : A) (s : caches)
| Throw (e : load_error) (s : caches)
| Undefined
| OutOfFuel.

Arguments Ret {A} a s.
Arguments Throw {A} e s.
Arguments Undefined {A}.
Arguments OutOfFuel {A}.

(** Sequencing: anything but a normal return ends the caller as well. *)
Definition bind {A B : Type} (o : outcome A) (k : A -> caches -> outcome B)
  : outcome B :=
  match o with
  | Ret a s => k a s
  | Throw e s => Throw e s
  | Undefined => Undefined
  | OutOfFuel => OutOfFuel
  end.

(** [try { body } catch (...) { }]: a thrown exception is dropped and the
    statements after the block run. *)
Definition try_catch {A : Type} (body : outcome A) (after : caches -> outcome A)
  : outcome A :=
  match body with
  | Throw _ s => after s
  | o => o
  end.

(** The checks every loader starts with: the exception it throws, if any,
    before it touches a table. *)
Definition load_failure (nd : nuc_data) : option load_error :=
  if negb (file_exists nd) then Some FileNotFound
  else if negb (is_hdf5 nd) then Some FileNotHDF5
  else None.

Definition open_nuc_data (nd : nuc_data) (s : caches) : outcome unit :=
  match load_failure nd with
  | Some e => Throw e s
  | None => Ret tt s
  end.

(** ** The nuclide-name service

    [nucname::id], [nucname::znum] and [nucname::anum] live in nucname.cpp;
    the accessors are verified against any implementation of them. *)

Class NucName := {
  nucname_id : Z -> Z;
  nucname_znum : Z -> Z;
  nucname_anum : Z -> Z }.

(** Modelled from the spec: nucname.cpp is not part of the sources.  On a
    canonical integer ID [zzzaaassss] the service returns the ID itself,
    its atomic number [zzz] and its mass number [aaa]. *)
Definition canonical_nucname : NucName := {|
  nucname_id := fun nuc => nuc;
  nucname_znum := fun nuc => Z.quot nuc 10000000;
  nucname_anum := fun nuc => Z.rem (Z.quot nuc 10000) 1000 |}.

(** ** Loaders and accessors *)

Section Accessors.
Context {NN : NucName}.
Variable nd : nuc_data.

(** *** Atomic mass and natural abundance *)

(** One pass of the loop that puts the array of structs in the maps. *)
Definition atomic_mass_row (s : caches) (r : atomic_mass_struct.t) : caches :=
  let s := set_atomic_mass_map
             (stdmap.insert int_lt (atomic_mass_struct.nuc r)
                (atomic_mass_struct.mass r) (atomic_mass_map s)) s in
  set_natural_abund_map
    (stdmap.insert int_lt (atomic_mass_struct.nuc r)
       (atomic_mass_struct.abund r) (natural_abund_map s)) s.

Definition _load_atomic_mass_map (s : caches) : outcome unit :=
  bind (open_nuc_data nd s) (fun _ s =>
    Ret tt (fold_left atomic_mass_row (tbl_atomic_mass nd) s)).

Fixpoint atomic_mass (fuel : nat) (nuc : Z) (s : caches) : outcome double :=
  match fuel with
  | O => OutOfFuel
  | S fuel =>
      match stdmap.find int_lt nuc (atomic_mass_map s) with
      | Some v => Ret v s
      | None =>
          let guess (s : caches) : outcome double :=
            let nucid := nucname_id nuc in
            if 0 <? Z.rem nucid 10000 then
              bind (atomic_mass fuel (Z.quot nucid 10000 * 10000) s)
                (fun aw s =>
                   Ret aw (set_atomic_mass_map
                             (stdmap.insert int_lt nuc aw (atomic_mass_map s)) s))
            else
              let aw := double_of_int (Z.rem (Z.quot nucid 10000) 1000) in
              Ret aw (set_atomic_mass_map
                        (stdmap.insert int_lt nuc aw (atomic_mass_map s)) s) in
          if stdmap.empty (atomic_mass_map s) then
            try_catch
              (bind (_load_atomic_mass_map s)
                 (fun _ s => atomic_mass fuel nuc s))
              guess
          else guess s
      end
  end.

Fixpoint natural_abund (fuel : nat) (nuc : Z) (s : caches) : outcome double :=
  match fuel with
  | O => OutOfFuel
  | S fuel =>
      match stdmap.find int_lt nuc (natural_abund_map s) with
      | Some v => Ret v s
      | None =>
          let guess (s : caches) : outcome double :=
            let nucid := nucname_id nuc in
            if 0 <? Z.rem nucid 10000 then
              bind (natural_abund fuel (Z.quot nucid 10000 * 10000) s)
                (fun na s =>
                   Ret na (set_atomic_mass_map
                             (stdmap.insert int_lt nuc na (atomic_mass_map s)) s))
            else
              let na := 0%float in
              Ret na (set_natural_abund_map
                        (stdmap.insert int_lt nuc na (natural_abund_map s)) s) in
          if stdmap.empty (natural_abund_map s) then
            try_catch
              (bind (_load_atomic_mass_map s)
                 (fun _ s => natural_abund fuel nuc s))
              guess
          else guess s
      end
  end.

(** *** Scattering lengths *)

Definition scattering_lengths_row (s : caches) (r : scattering_lengths_struct.t)
  : caches :=
  let s := set_b_coherent_map
             (stdmap.insert int_lt (scattering_lengths_struct.nuc r)
                (scattering_lengths_struct.b_coherent r) (b_coherent_map s)) s in
  set_b_incoherent_map
    (stdmap.insert int_lt (scattering_lengths_struct.nuc r)
       (scattering_lengths_struct.b_incoherent r) (b_incoherent_map s)) s.

Definition _load_scattering_lengths (s : caches) : outcome unit :=
  bind (open_nuc_data nd s) (fun _ s =>
    Ret tt (fold_left scattering_lengths_row (tbl_scattering_lengths nd) s)).

(** The two [while] loops of the fallback: walk the table from [begin()]
    and stop at the first key whose A-number (Z-number) is the wanted one. *)
Fixpoint scan_anum (anum : Z) (it : list (Z * complex_t)) : option complex_t :=
  match it with
  | [] => None
  | (k, v) :: it' => if anum =? nucname_anum k then Some v else scan_anum anum it'
  end.

Fixpoint scan_znum (znum : Z) (it : list (Z * complex_t)) : option complex_t :=
  match it with
  | [] => None
  | (k, v) :: it' => if znum =? nucname_znum k then Some v else scan_znum znum it'
  end.

Fixpoint b_coherent (fuel : nat) (nuc : Z) (s : caches) : outcome complex_t :=
  match fuel with
  | O => OutOfFuel
  | S fuel =>
      match stdmap.find int_lt nuc (b_coherent_map s) with
      | Some v => Ret v s
      | None =>
          if stdmap.empty (b_coherent_map s) then
            bind (_load_scattering_lengths s) (fun _ s => b_coherent fuel nuc s)
          else
            let nucid := nucname_id nuc in
            let znum := nucname_znum nucid in
            let anum := nucname_anum nucid in
            let memo (bc : complex_t) :=
              Ret bc (set_b_coherent_map
                        (stdmap.insert int_lt nuc bc (b_coherent_map s)) s) in
            match scan_anum anum (b_coherent_map s) with
            | Some bc => memo bc
            | None =>
                match scan_znum znum (b_coherent_map s) with
                | Some bc => memo bc
                | None => memo (mk_complex 0%float 0%float)
                end
            end
      end
  end.

Fixpoint b_incoherent (fuel : nat) (nuc : Z) (s : caches) : outcome complex_t :=
  match fuel with
  | O => OutOfFuel
  | S fuel =>
      match stdmap.find int_lt nuc (b_incoherent_map s) with
      | Some v => Ret v s
      | None =>
          if stdmap.empty (b_incoherent_map s) then
            bind (_load_scattering_lengths s) (fun _ s => b_incoherent fuel nuc s)
          else
            let nucid := nucname_id nuc in
            let znum := nucname_znum nucid in
            let anum := nucname_anum nucid in
            let memo (bi : complex_t) :=
              Ret bi (set_b_incoherent_map
                        (stdmap.insert int_lt nuc bi (b_incoherent_map s)) s) in
            match scan_anum anum (b_incoherent_map s) with
            | Some bi => memo bi
            | None =>
                match scan_znum znum (b_incoherent_map s) with
                | Some bi => memo bi
                | None => memo (mk_complex 0%float 0%float)
                end
            end
      end
  end.

Definition b (fuel : nat) (nuc : Z) (s : caches) : outcome double :=
  match stdmap.find int_lt nuc (b_map s) with
  | Some v => Ret v s
  | None =>
      bind (b_coherent fuel nuc s) (fun bc s =>
      bind (b_incoherent fuel nuc s) (fun bi s =>
        Ret (PrimFloat.sqrt (re bc * re bc + im bc * im bc
                             + re bi * re bi + im bi * im bi)%float) s))
  end.

(** *** Fission product yields *)

Definition wimsdfpy_row (s : caches) (r : wimsdfpy_struct.t) : caches :=
  set_wimsdfpy_data
    (stdmap.insert int_pair_lt
       (wimsdfpy_struct.from_nuc r, wimsdfpy_struct.to_nuc r)
       (wimsdfpy_struct.yields r) (wimsdfpy_data s)) s.

Definition _load_wimsdfpy (s : caches) : outcome unit :=
  bind (open_nuc_data nd s) (fun _ s =>
    Ret tt (fold_left wimsdfpy_row (tbl_wimsd_fission_products nd) s)).

Definition ndsfpy_row (s : caches) (r : ndsfpy_struct.t) : caches :=
  let ndsfpysub_temp :=
    ndsfpysub_struct.mk
      (ndsfpy_struct.yield_thermal r) (ndsfpy_struct.yield_thermal_err r)
      (ndsfpy_struct.yield_fast r) (ndsfpy_struct.yield_fast_err r)
      (ndsfpy_struct.yield_14MeV r) (ndsfpy_struct.yield_14MeV_err r) in
  set_ndsfpy_data
    (stdmap.insert int_pair_lt
       (ndsfpy_struct.from_nuc r, ndsfpy_struct.to_nuc r)
       ndsfpysub_temp (ndsfpy_data s)) s.

Definition _load_ndsfpy (s : caches) : outcome unit :=
  bind (open_nuc_data nd s) (fun _ s =>
    Ret tt (fold_left ndsfpy_row (tbl_nds_fission_products nd) s)).

(** The lookup that opens [fpyield]: the value it returns at once, if any.
    A [source] outside 0..3 leaves the [switch] without returning. *)
Definition fpyield_lookup (from_to : Z * Z) (source : Z) (get_error : bool)
  (s : caches) : option double :=
  if source =? 0 then stdmap.find int_pair_lt from_to (wimsdfpy_data s)
  else
    match stdmap.find int_pair_lt from_to (ndsfpy_data s) with
    | Some r =>
        if source =? 1 then
          Some (if get_error then ndsfpysub_struct.yield_thermal_err r
                else ndsfpysub_struct.yield_thermal r)
        else if source =? 2 then
          Some (if get_error then ndsfpysub_struct.yield_fast_err r
                else ndsfpysub_struct.yield_fast r)
        else if source =? 3 then
          Some (if get_error then ndsfpysub_struct.yield_14MeV_err r
                else ndsfpysub_struct.yield_14MeV r)
        else None
    | None => None
    end.

Fixpoint fpyield (fuel : nat) (from_to : Z * Z) (source : Z) (get_error : bool)
  (s : caches) : outcome double :=
  match fuel with
  | O => OutOfFuel
  | S fuel =>
      match fpyield_lookup from_to source get_error s with
      | Some v => Ret v s
      | None =>
          if (source =? 0) && stdmap.empty (wimsdfpy_data s) then
            bind (_load_wimsdfpy s) (fun _ s => fpyield fuel from_to 0 get_error s)
          else if stdmap.empty (ndsfpy_data s) then
            bind (_load_ndsfpy s)
              (fun _ s => fpyield fuel from_to source get_error s)
          else
            let fpy := 0%float in
            Ret fpy (set_wimsdfpy_data
                       (stdmap.insert int_pair_lt from_to fpy (wimsdfpy_data s)) s)
      end
  end.

(** *** Decay constants, branch ratios, decay children *)

(** One pass of the loop that fills the decay tables, "giving precedence
    to ground state values or those seen first". *)
Definition half_life_decay_row (s : caches) (r : half_life_decay_struct.t)
  : caches :=
  let from_nuc := half_life_decay_struct.from_nuc r in
  let level := half_life_decay_struct.level r in
  let to_nuc := half_life_decay_struct.to_nuc r in
  let from_to := (from_nuc, to_nuc) in
  let s :=
    if (0 =? stdmap.count int_lt from_nuc (half_life_map s))
       || PrimFloat.eqb 0 level
    then set_half_life_map
           (stdmap.insert int_lt from_nuc (half_life_decay_struct.half_life r)
              (half_life_map s)) s
    else s in
  let s :=
    if (0 =? stdmap.count int_lt from_nuc (decay_const_map s))
       || PrimFloat.eqb 0 level
    then set_decay_const_map
           (stdmap.insert int_lt from_nuc (half_life_decay_struct.decay_const r)
              (decay_const_map s)) s
    else s in
  let s :=
    if (0 =? stdmap.count int_pair_lt from_to (branch_ratio_map s))
       || PrimFloat.eqb 0 level
    then set_branch_ratio_map
           (stdmap.insert int_pair_lt from_to
              (half_life_decay_struct.branch_ratio r) (branch_ratio_map s)) s
    else s in
  let s := set_state_energy_map
             (stdmap.insert int_lt from_nuc level (state_energy_map s)) s in
  if negb (PrimFloat.eqb 0 (half_life_decay_struct.decay_const r)) then
    let children :=
      match stdmap.find int_lt from_nuc (decay_children_map s) with
      | Some c => c
      | None => []
      end in
    set_decay_children_map
      (stdmap.insert int_lt from_nuc (set_insert to_nuc children)
         (decay_children_map s)) s
  else s.

Definition _load_half_life_decay (s : caches) : outcome unit :=
  bind (open_nuc_data nd s) (fun _ s =>
    Ret tt (fold_left half_life_decay_row (tbl_half_life nd) s)).

Fixpoint decay_const (fuel : nat) (nuc : Z) (s : caches) : outcome double :=
  match fuel with
  | O => OutOfFuel
  | S fuel =>
      match stdmap.find int_lt nuc (decay_const_map s) with
      | Some v => Ret v s
      | None =>
          if stdmap.empty (decay_const_map s) then
            bind (_load_half_life_decay s) (fun _ s => decay_const fuel nuc s)
          else
            let dc := 0%float in
            Ret dc (set_decay_const_map
                      (stdmap.insert int_lt nuc dc (decay_const_map s)) s)
      end
  end.

Fixpoint branch_ratio (fuel : nat) (from_to : Z * Z) (s : caches)
  : outcome double :=
  match fuel with
  | O => OutOfFuel
  | S fuel =>
      match stdmap.find int_pair_lt from_to (branch_ratio_map s) with
      | Some v => Ret v s
      | None =>
          if stdmap.empty (branch_ratio_map s) then
            bind (_load_half_life_decay s) (fun _ s => branch_ratio fuel from_to s)
          else
            let br := 0%float in
            Ret br (set_branch_ratio_map
                      (stdmap.insert int_pair_lt from_to br (branch_ratio_map s)) s)
      end
  end.

Fixpoint decay_children (fuel : nat) (nuc : Z) (s : caches) : outcome (list Z) :=
  match fuel with
  | O => OutOfFuel
  | S fuel =>
      match stdmap.find int_lt nuc (decay_children_map s) with
      | Some v => Ret v s
      | None =>
          if stdmap.empty (decay_children_map s) then
            bind (_load_half_life_decay s) (fun _ s => decay_children fuel nuc s)
          else
            let dc : list Z := [] in
            Ret dc (set_decay_children_map
                      (stdmap.insert int_lt nuc dc (decay_children_map s)) s)
      end
  end.

(** *** Level data *)

Definition level_row (s : caches) (r : level_struct.t) : caches :=
  set_level_data
    (stdmap.insert int_lt (level_struct.nuc_id r) r (level_data s)) s.

Definition _load_level_data (s : caches) : outcome unit :=
  bind (open_nuc_data nd s) (fun _ s =>
    Ret tt (fold_left level_row (tbl_level_list nd) s)).

(** The [for] loop of [metastable_id] over the entries it visits. *)
Fixpoint scan_metastable (m : Z) (visited : list (Z * level_struct.t)) : Z :=
  match visited with
  | [] => 0
  | (_, r) :: rest =>
      if level_struct.metastable r =? m then level_struct.nuc_id r
      else scan_metastable m rest
  end.

(** [nostate+9999] is an [int] sum: past [INT_MAX] it overflows, which
    is undefined. *)
Definition metastable_id (nuc m : Z) (s : caches) : outcome Z :=
  if m =? 0 then Ret 0 s
  else
    let nostate := Z.quot nuc 1000 * 1000 in
    bind (if stdmap.empty (level_data s) then _load_level_data s else Ret tt s)
      (fun _ s =>
         let nuc_lower := stdmap.lower_bound int_lt nostate (level_data s) in
         if 2147483647 <? nostate + 9999 then Undefined
         else
           let nuc_upper :=
             stdmap.upper_bound int_lt (nostate + 9999) (level_data s) in
           match stdmap.iterate nuc_lower (List.length nuc_upper) with
           | None => Undefined
           | Some visited => Ret (scan_metastable m visited) s
           end).

Fixpoint state_energy (fuel : nat) (nuc : Z) (s : caches) : outcome double :=
  match fuel with
  | O => OutOfFuel
  | S fuel =>
      match stdmap.find int_lt nuc (level_data s) with
      | Some r => Ret (level_struct.level r) s
      | None =>
          if stdmap.empty (level_data s) then
            bind (_load_level_data s) (fun _ s =>
            bind (state_energy fuel nuc s) (fun _ s =>
              Ret 0%float s))
          else Ret 0%float s
      end
  end.

Fixpoint half_life (fuel : nat) (nuc : Z) (s : caches) : outcome double :=
  match fuel with
  | O => OutOfFuel
  | S fuel =>
      match stdmap.find int_lt nuc (level_data s) with
      | Some r => Ret (level_struct.half_life r) s
      | None =>
          if stdmap.empty (level_data s) then
            bind (_load_level_data s) (fun _ s => half_life fuel nuc s)
          else Ret 0%float s
      end
  end.

(** *** Decay and gamma records: [data_access]

    A byte offset into the record ([offsetof]) is modelled by the
    projection of the field at that offset; the [_load_data<U>]
    specialisation and the table are passed along. *)

Definition decay_row (s : caches) (r : decay_struct.t) : caches :=
  set_decay_data
    (stdmap.insert int_pair_lt
       (decay_struct.parent r, decay_struct.daughter r) r (decay_data s)) s.

(** [_load_data<decay_struct>]. *)
Definition _load_decay_data (s : caches) : outcome unit :=
  bind (open_nuc_data nd s) (fun _ s =>
    Ret tt (fold_left decay_row (tbl_decays nd) s)).

Definition gamma_row (s : caches) (r : gamma_struct.t) : caches :=
  set_gamma_data
    (stdmap.insert int_double_lt
       (gamma_struct.parent_nuc r, gamma_struct.energy r) r (gamma_data s)) s.

(** [_load_data<gamma_struct>]. *)
Definition _load_gamma_data (s : caches) : outcome unit :=
  bind (open_nuc_data nd s) (fun _ s =>
    Ret tt (fold_left gamma_row (tbl_gammas nd) s)).

(** The body of the range loops: whatever entry [it] is at, the value
    pushed is read through [nuc_iter], the iterator at the start of the
    range. *)
Definition push_visited {K U T : Type} (valoffset : U -> T)
  (nuc_iter visited : list (K * U)) : list T :=
  flat_map
    (fun _ : K * U =>
       match nuc_iter with
       | kv :: _ => [valoffset (snd kv)]
       | [] => []
       end)
    visited.

(** [data_access<T,U>(std::pair<int,int> from_to, valoffset, data)]. *)
Fixpoint data_access_from_to {T U : Type}
  (load : caches -> outcome unit) (data : caches -> list ((Z * Z) * U))
  (zero : T) (fuel : nat) (from_to : Z * Z) (valoffset : U -> T) (s : caches)
  : outcome T :=
  match fuel with
  | O => OutOfFuel
  | S fuel =>
      match stdmap.find int_pair_lt from_to (data s) with
      | Some r => Ret (valoffset r) s
      | None =>
          if stdmap.empty (data s) then
            bind (load s) (fun _ s =>
              data_access_from_to load data zero fuel from_to valoffset s)
          else Ret zero s
      end
  end.

(** [data_access<T,U>(int parent, valoffset, data)] on a table keyed by
    [std::pair<int,int>].  The constant 9999999999 is a [long] and is
    narrowed to [int] when the pair is converted to the key type. *)
Fixpoint data_access_parent {T U : Type}
  (load : caches -> outcome unit) (data : caches -> list ((Z * Z) * U))
  (fuel : nat) (parent : Z) (valoffset : U -> T) (s : caches)
  : outcome (list T) :=
  match fuel with
  | O => OutOfFuel
  | S fuel =>
      let nuc_iter := stdmap.lower_bound int_pair_lt (parent, 0) (data s) in
      let nuc_end :=
        stdmap.upper_bound int_pair_lt (parent, int_of_long 9999999999) (data s) in
      match stdmap.iterate nuc_iter (List.length nuc_end) with
      | None => Undefined
      | Some visited =>
          let result := push_visited valoffset nuc_iter visited in
          if stdmap.empty (data s) then
            bind (load s) (fun _ s =>
              data_access_parent load data fuel parent valoffset s)
          else Ret result s
      end
  end.

(** [(int) DBL_MAX]: the value is not representable in [int], so the
    conversion has no defined result; whatever the platform produces is a
    parameter. *)
Variable int_of_DBL_MAX : Z.

(** [data_access<T,U>(int parent, valoffset, data)] on a table keyed by
    [std::pair<int,double>].  [std::make_pair(0, parent)] and
    [std::make_pair(DBL_MAX, parent)] are converted to the key type
    component by component. *)
Fixpoint data_access_parent_energy {T U : Type}
  (load : caches -> outcome unit) (data : caches -> list ((Z * double) * U))
  (fuel : nat) (parent : Z) (valoffset : U -> T) (s : caches)
  : outcome (list T) :=
  match fuel with
  | O => OutOfFuel
  | S fuel =>
      let nuc_iter :=
        stdmap.lower_bound int_double_lt (0, double_of_int parent) (data s) in
      let nuc_end :=
        stdmap.upper_bound int_double_lt
          (int_of_DBL_MAX, double_of_int parent) (data s) in
      match stdmap.iterate nuc_iter (List.length nuc_end) with
      | None => Undefined
      | Some visited =>
          let result := push_visited valoffset nuc_iter visited in
          if stdmap.empty (data s) then
            bind (load s) (fun _ s =>
              data_access_parent_energy load data fuel parent valoffset s)
          else Ret result s
      end
  end.

(** [for (i = 0; i < part1.size(); ++i) result.push_back(make_pair(part1[i],
    part2[i]))]: reading [part2] past its end is undefined. *)
Fixpoint pair_up {A B : Type} (part1 : list A) (part2 : list B) (i : nat)
  : option (list (A * B)) :=
  match part1 with
  | [] => Some []
  | x :: rest =>
      match nth_error part2 i with
      | Some y => option_map (cons (x, y)) (pair_up rest part2 (S i))
      | None => None
      end
  end.

Definition pair_parts {A B : Type} (part1 : list A) (part2 : list B) (s : caches)
  : outcome (list (A * B)) :=
  match pair_up part1 part2 0 with
  | Some result => Ret result s
  | None => Undefined
  end.

Definition decay_half_life (fuel : nat) (from_to : Z * Z) (s : caches)
  : outcome (double * double) :=
  bind (data_access_from_to _load_decay_data decay_data 0%float fuel from_to
          decay_struct.half_life s) (fun v1 s =>
  bind (data_access_from_to _load_decay_data decay_data 0%float fuel from_to
          decay_struct.half_life_error s) (fun v2 s =>
    Ret (v1, v2) s)).

Definition decay_half_lifes (fuel : nat) (parent : Z) (s : caches)
  : outcome (list (double * double)) :=
  bind (data_access_parent _load_decay_data decay_data fuel parent
          decay_struct.half_life s) (fun part1 s =>
  bind (data_access_parent _load_decay_data decay_data fuel parent
          decay_struct.half_life_error s) (fun part2 s =>
    pair_parts part1 part2 s)).

Definition decay_branch_ratio (fuel : nat) (from_to : Z * Z) (s : caches)
  : outcome double :=
  data_access_from_to _load_decay_data decay_data 0%float fuel from_to
    decay_struct.branch_ratio s.

Definition decay_branch_ratios (fuel : nat) (parent : Z) (s : caches)
  : outcome (list double) :=
  data_access_parent _load_decay_data decay_data fuel parent
    decay_struct.half_life s.

Definition gamma_energy (fuel : nat) (parent : Z) (s : caches)
  : outcome (list (double * double)) :=
  bind (data_access_parent_energy _load_gamma_data gamma_data fuel parent
          gamma_struct.energy s) (fun part1 s =>
  bind (data_access_parent_energy _load_gamma_data gamma_data fuel parent
          gamma_struct.energy_err s) (fun part2 s =>
    pair_parts part1 part2 s)).

End Accessors.

(** ** Further accessors of the decay and gamma tables *)

(** [(int) x] for a [double] [x]: the fraction is dropped; the
    conversion has no defined result when what is left is not an [int]
    (nor for an infinity or a NaN). *)
Definition int_of_double (x : double) : option Z :=
  match Prim2SF x with
  | S754_zero _ => Some 0
  | S754_finite sign m e =>
      let magnitude :=
        if 0 <=? e then Z.shiftl (Z.pos m) e else Z.shiftr (Z.pos m) (- e) in
      let v := if sign then - magnitude else magnitude in
      if (-2147483648 <=? v) && (v <=? 2147483647) then Some v else None
  | S754_infinity _ => None
  | S754_nan => None
  end.

Section MoreAccessors.
Variable nd : nuc_data.
Variable int_of_DBL_MAX : Z.

(** [data_access<T,U>(double energy_min, double energy_max, valoffset,
    data)] on a table keyed by [std::pair<int,double>].
    [std::make_pair(energy_min, 0)] and [std::make_pair(energy_max,
    9999999999)] are converted to the key type component by component:
    the energies to [int], the integers to [double]. *)
Fixpoint data_access_energy {T U : Type}
  (load : caches -> outcome unit) (data : caches -> list ((Z * double) * U))
  (fuel : nat) (energy_min energy_max : double) (valoffset : U -> T) (s : caches)
  : outcome (list T) :=
  match fuel with
  | O => OutOfFuel
  | S fuel =>
      match int_of_double energy_min, int_of_double energy_max with
      | Some first_min, Some first_max =>
          let nuc_iter :=
            stdmap.lower_bound int_double_lt (first_min, 0%float) (data s) in
          let nuc_end :=
            stdmap.upper_bound int_double_lt
              (first_max, 9999999999%float) (data s) in
          match stdmap.iterate nuc_iter (List.length nuc_end) with
          | None => Undefined
          | Some visited =>
              let result := push_visited valoffset nuc_iter visited in
              if stdmap.empty (data s) then
                bind (load s) (fun _ s =>
                  data_access_energy load data fuel energy_min energy_max
                    valoffset s)
              else Ret result s
          end
      | _, _ => Undefined
      end
  end.

Definition decay_photon_branch_ratios (fuel : nat) (parent : Z) (s : caches)
  : outcome (list (double * double)) :=
  bind (data_access_parent (_load_decay_data nd) decay_data fuel parent
          decay_struct.photon_branch_ratio s) (fun part1 s =>
  bind (data_access_parent (_load_decay_data nd) decay_data fuel parent
          decay_struct.photon_branch_ratio_error s) (fun part2 s =>
    pair_parts part1 part2 s)).

Definition decay_beta_branch_ratios (fuel : nat) (parent : Z) (s : caches)
  : outcome (list (double * double)) :=
  bind (data_access_parent (_load_decay_data nd) decay_data fuel parent
          decay_struct.beta_branch_ratio s) (fun part1 s =>
  bind (data_access_parent (_load_decay_data nd) decay_data fuel parent
          decay_struct.beta_branch_ratio_error s) (fun part2 s =>
    pair_parts part1 part2 s)).

Definition gamma_photon_intensity (fuel : nat) (parent : Z) (s : caches)
  : outcome (list (double * double)) :=
  bind (data_access_parent_energy int_of_DBL_MAX (_load_gamma_data nd) gamma_data
          fuel parent gamma_struct.photon_intensity s) (fun part1 s =>
  bind (data_access_parent_energy int_of_DBL_MAX (_load_gamma_data nd) gamma_data
          fuel parent gamma_struct.photon_intensity_err s) (fun part2 s =>
    pair_parts part1 part2 s)).

Definition gamma_conversion_intensity (fuel : nat) (parent : Z) (s : caches)
  : outcome (list (double * double)) :=
  bind (data_access_parent_energy int_of_DBL_MAX (_load_gamma_data nd) gamma_data
          fuel parent gamma_struct.conv_intensity s) (fun part1 s =>
  bind (data_access_parent_energy int_of_DBL_MAX (_load_gamma_data nd) gamma_data
          fuel parent gamma_struct.conv_intensity_err s) (fun part2 s =>
    pair_parts part1 part2 s)).

Definition gamma_total_intensity (fuel : nat) (parent : Z) (s : caches)
  : outcome (list (double * double)) :=
  bind (data_access_parent_energy int_of_DBL_MAX (_load_gamma_data nd) gamma_data
          fuel parent gamma_struct.total_intensity s) (fun part1 s =>
  bind (data_access_parent_energy int_of_DBL_MAX (_load_gamma_data nd) gamma_data
          fuel parent gamma_struct.total_intensity_err s) (fun part2 s =>
    pair_parts part1 part2 s)).

(** [gamma_from_to(double energy, double error)]: the window is handed
    over as [energy+error], [energy-error]. *)
Definition gamma_from_to_energy (fuel : nat) (energy error : double) (s : caches)
  : outcome (list (Z * Z)) :=
  bind (data_access_energy (_load_gamma_data nd) gamma_data fuel
          (energy + error)%float (energy - error)%float
          gamma_struct.from_nuc s) (fun part1 s =>
  bind (data_access_energy (_load_gamma_data nd) gamma_data fuel
          (energy + error)%float (energy - error)%float
          gamma_struct.to_nuc s) (fun part2 s =>
    pair_parts part1 part2 s)).

Definition gamma_parent (fuel : nat) (energy error : double) (s : caches)
  : outcome (list Z) :=
  data_access_energy (_load_gamma_data nd) gamma_data fuel
    (energy + error)%float (energy - error)%float gamma_struct.parent_nuc s.

End MoreAccessors.

(** ** The documented behaviour, in the words of the specification *)

(** A well-formed [std::map<int, V>]: keys strictly ascending. *)
Definition ascending {V : Type} (m : list (Z * V)) : Prop :=
  StronglySorted Z.lt (map fst m).

(** The ground state of a nuclide: its canonical ID with the four-digit
    state field zeroed, [(nucid/10000)*10000]. *)
Definition ground_state_of {NN : NucName} (nuc : Z) : Z :=
  Z.quot (nucname_id nuc) 10000 * 10000.

(** The mass-number estimate of the atomic mass, [(double) ((nucid/10000)%1000)]. *)
Definition mass_number_guess {NN : NucName} (nuc : Z) : double :=
  double_of_int (Z.rem (Z.quot (nucname_id nuc) 10000) 1000).

(** Among the entries whose key satisfies [p], the one with the least
    key: "the first entry in ascending key order". *)
Fixpoint least_key_match {V : Type} (p : Z -> bool) (m : list (Z * V))
  : option (Z * V) :=
  match m with
  | [] => None
  | (k, v) :: m' =>
      let rest := least_key_match p m' in
      if p k then
        match rest with
        | Some (k2, v2) => if k2 <? k then Some (k2, v2) else Some (k, v)
        | None => Some (k, v)
        end
      else rest
  end.

(** The scattering-length fallback: the least-keyed entry with the mass
    number of [nuc], else the least-keyed entry with its atomic number,
    else complex zero. *)
Definition scattering_fallback_spec {NN : NucName} (nuc : Z)
  (m : list (Z * complex_t)) : complex_t :=
  let nucid := nucname_id nuc in
  match least_key_match (fun k => nucname_anum nucid =? nucname_anum k) m with
  | Some (_, v) => v
  | None =>
      match least_key_match (fun k => nucname_znum nucid =? nucname_znum k) m with
      | Some (_, v) => v
      | None => mk_complex 0%float 0%float
      end
  end.

(** The metastable lookup over a loaded level table: the ground-state
    prefix is the ID with its four-digit state field zeroed, the block is
    the 10,000 IDs from there, and the answer is the [nuc_id] of the
    least-keyed entry of the block whose metastable ordinal is [m], or 0. *)
Definition metastable_id_spec (nuc m : Z) (levels : list (Z * level_struct.t))
  : Z :=
  let ground := Z.quot nuc 10000 * 10000 in
  match
    least_key_match (fun k => (ground <=? k) && (k <=? ground + 9999))
      (filter (fun kv => level_struct.metastable (snd kv) =? m) levels)
  with
  | Some (_, r) => level_struct.nuc_id r
  | None => 0
  end.

(** The range query over the gamma table: one (energy, energy_err) pair
    per record keyed by [parent], in the order of the table. *)
Definition gamma_energy_spec (parent : Z)
  (gammas : list ((Z * double) * gamma_struct.t)) : list (double * double) :=
  map (fun kv => (gamma_struct.energy (snd kv), gamma_struct.energy_err (snd kv)))
    (filter (fun kv => fst (fst kv) =? parent) gammas).

(** The two scattering tables are filled together: once the coherent
    table holds something, so does the incoherent one. *)
Definition scattering_tables_paired (s : caches) : Prop :=
  stdmap.empty (b_coherent_map s) = false ->
  stdmap.empty (b_incoherent_map s) = false.

(** A decay record with another value in its [branch_ratio] field. *)
Definition set_branch_ratio (x : double) (r : decay_struct.t) : decay_struct.t :=
  decay_struct.mk (decay_struct.parent r) (decay_struct.daughter r)
    (decay_struct.decay r) (decay_struct.half_life r)
    (decay_struct.half_life_error r) x (decay_struct.photon_branch_ratio r)
    (decay_struct.photon_branch_ratio_error r) (decay_struct.beta_branch_ratio r)
    (decay_struct.beta_branch_ratio_error r).

(** The decay table with the [branch_ratio] field of every record
    replaced by what [br] gives for that record. *)
Definition overwrite_branch_ratios (br : decay_struct.t -> double)
  (m : list ((Z * Z) * decay_struct.t)) : list ((Z * Z) * decay_struct.t) :=
  map (fun kv => (fst kv, set_branch_ratio (br (snd kv)) (snd kv))) m.

(** The last row of a table that satisfies [p]. *)
Definition last_row {R : Type} (p : R -> bool) (rows : list R) : option R :=
  List.find p (rev rows).

(** The decay constant the decay table gives a nuclide: the one of its
    last row with a zero level, or else the one of its first row. *)
Definition decay_const_of_rows (rows : list half_life_decay_struct.t) (nuc : Z)
  : option double :=
  match
    last_row (fun r => (half_life_decay_struct.from_nuc r =? nuc)
                       && PrimFloat.eqb 0 (half_life_decay_struct.level r)) rows
  with
  | Some r => Some (half_life_decay_struct.decay_const r)
  | None =>
      option_map half_life_decay_struct.decay_const
        (List.find (fun r => half_life_decay_struct.from_nuc r =? nuc) rows)
  end.

(** A row of the decay table that names [child] as a daughter of [nuc]
    with a non-zero decay constant. *)
Definition decays_to (nuc child : Z) (r : half_life_decay_struct.t) : Prop :=
  half_life_decay_struct.from_nuc r = nuc /\
  half_life_decay_struct.to_nuc r = child /\
  PrimFloat.eqb 0 (half_life_decay_struct.decay_const r) = false.

(** The abundance the dataset gives an ID: the one of the last row that
    names it. *)
Definition abundance_of_rows (rows : list atomic_mass_struct.t) (nuc : Z)
  : option double :=
  option_map atomic_mass_struct.abund
    (last_row (fun r => atomic_mass_struct.nuc r =? nuc) rows).

(** A loaded abundance table: it is not empty, it holds the dataset's
    abundance for every ID of the dataset, and for any other ID it holds
    nothing or the 0.0 that a lookup of an ID without an excited state
    field stored. *)
Definition abundance_table_loaded {NN : NucName}
  (rows : list atomic_mass_struct.t) (s : caches) : Prop :=
  stdmap.empty (natural_abund_map s) = false /\
  forall k,
    match abundance_of_rows rows k with
    | Some a => stdmap.find int_lt k (natural_abund_map s) = Some a
    | None =>
        stdmap.find int_lt k (natural_abund_map s) = None \/
        (stdmap.find int_lt k (natural_abund_map s) = Some 0%float /\
         Z.rem (nucname_id k) 10000 <= 0)
    end.

(** A vector that lists one value, any number of times. *)
Definition all_equal {T : Type} (l : list T) : Prop :=
  forall x y, In x l -> In y l -> x = y.

(** A well-formed [std::map<std::pair<int,int>, U>]. *)
Definition pair_ascending {U : Type} (m : list ((Z * Z) * U)) : Prop :=
  StronglySorted (fun a b => int_pair_lt a b = true) (map fst m).

(** The entries of a [(parent, daughter)]-keyed table that the parent
    range covers: daughters from 0 to the narrowed 9999999999. *)
Definition parent_block {U : Type} (parent : Z) (m : list ((Z * Z) * U))
  : list ((Z * Z) * U) :=
  filter (fun kv => (fst (fst kv) =? parent)
                    && (0 <=? snd (fst kv))
                    && (snd (fst kv) <=? int_of_long 9999999999)) m.

(** [n] copies of the fields of the first record of a block. *)
Definition first_record_repeated {K U T : Type} (fields : U -> T)
  (block : list (K * U)) : list T :=
  match block with
  | [] => []
  | first :: _ => map (fun _ => fields (snd first)) block
  end.

(** ** Sample datasets *)

Set Warnings "-inexact-float".

Definition no_rows_nuc_data : nuc_data :=
  mk_nuc_data true true [] [] [] [] [] [] [] [].

(** No file at [NUC_DATA_PATH]. *)
Definition missing_nuc_data : nuc_data :=
  mk_nuc_data false false [] [] [] [] [] [] [] [].

(** One row of the mass table: U-235. *)
Definition u235_nuc_data : nuc_data :=
  mk_nuc_data true true
    [atomic_mass_struct.mk 922350000 235.0439299%float 0.000002%float 0.0072%float]
    [] [] [] [] [] [] [].

Definition gamma_line (parent : Z) (energy energy_err : double) : gamma_struct.t :=
  gamma_struct.mk energy energy_err 0%float 0%float 0%float 0%float 0%float
    0%float parent parent parent 0%float 0%float 0%float.

(** Two gamma lines of Co-60. *)
Definition co60_nuc_data : nuc_data :=
  mk_nuc_data true true [] [] [] [] [] [] []
    [gamma_line 270600000 1173.25%float 0.5%float;
     gamma_line 270600000 1332.5%float 0.25%float].

(** The tables once the gamma lines of [co60_nuc_data] are loaded. *)
Definition co60_gamma_caches : caches :=
  mk_caches [] [] [] [] [] [] [] [] [] [] [] [] [] []
    [((270600000, 1173.25%float), gamma_line 270600000 1173.25%float 0.5%float);
     ((270600000, 1332.5%float), gamma_line 270600000 1332.5%float 0.25%float)].

(** Levels of U-235 and U-236: ground states and one isomer each. *)
Definition uranium_level_nuc_data : nuc_data :=
  mk_nuc_data true true [] [] [] [] []
    [level_struct.mk 922350000 0%float 2.22e16%float 0;
     level_struct.mk 922350001 0.0765%float 1560%float 1;
     level_struct.mk 922360000 0%float 7.39e14%float 0;
     level_struct.mk 922360002 2750%float 1.2e-7%float 1]
    [] [].

Definition sample_complex (x : double) : complex_t := mk_complex x 0%float.

(** The richer yield table filled, the WIMS table still empty. *)
Definition loaded_nds_caches : caches :=
  set_ndsfpy_data
    [((922350000, 541350000),
      ndsfpysub_struct.mk 0.5%float 0.25%float 0.125%float 0.0625%float
        0.03125%float 0.015625%float)]
    init_caches.

(** The WIMS yield table filled, the richer table still empty. *)
Definition loaded_wims_caches : caches :=
  set_wimsdfpy_data [((922350000, 551370000), 0.0625%float)] init_caches.

(** Tables of a process that has loaded decay and yield data. *)
Definition loaded_caches : caches :=
  mk_caches
    [(922350000, 235.0439299%float)]
    [(922350000, 0.0072%float)]
    [(10010000, sample_complex 1%float); (20030000, sample_complex 2%float);
     (30060000, sample_complex 3%float)]
    [(10010000, sample_complex 4%float)]
    []
    [((922350000, 551370000), 0.0625%float)]
    [((922350000, 541350000),
      ndsfpysub_struct.mk 0.5%float 0.25%float 0.125%float 0.0625%float
        0.03125%float 0.015625%float)]
    [] [] [] [] [] []
    [((10030000, 20030000),
      decay_struct.mk 10030000 20030000 "B-" 388800000%float 64%float 1%float
        0%float 0%float 1%float 0%float);
     ((10030000, 20040000),
      decay_struct.mk 10030000 20040000 "X" 5%float 6%float 0.5%float
        0%float 0%float 1%float 0%float)]
    [].

(** A decay table: tritium to He-3, and two U-235 rows, an excited level
    first and the ground state after it. *)
Definition decay_rows_nuc_data : nuc_data :=
  mk_nuc_data true true [] [] [] []
    [half_life_decay_struct.mk 10030000 0%float 20030000 388800000%float
       1.78e-9%float 1%float;
     half_life_decay_struct.mk 922350000 0.0765%float 922350000 1560%float
       0.000444%float 1%float;
     half_life_decay_struct.mk 922350000 0%float 902310000 2.22e16%float
       3.12e-17%float 1%float]
    [] [] [].

(** A decay table of stable nuclides only: every decay constant is 0.0. *)
Definition stable_rows_nuc_data : nuc_data :=
  mk_nuc_data true true [] [] [] []
    [half_life_decay_struct.mk 20040000 0%float 20040000 0%float 0%float 1%float;
     half_life_decay_struct.mk 80160000 0%float 80160000 0%float 0%float 1%float]
    [] [] [].

(** * Verification *)

(** ** Facts about the table model *)

Section MapFacts.
Context {V : Type}.
Implicit Types (m : list (Z * V)) (k : Z) (v : V).

Lemma int_equiv_eqb k k' : stdmap.equiv int_lt k k' = (k =? k').
Proof.
  unfold stdmap.equiv, int_lt.
  destruct (Z.ltb_spec k k'), (Z.ltb_spec k' k), (Z.eqb_spec k k'); simpl; lia || reflexivity.
Qed.

Lemma find_insert_same k v m :
  stdmap.find int_lt k (stdmap.insert int_lt k v m) = Some v.
Proof.
  induction m as [|[k' v'] m IH]; cbn [stdmap.find stdmap.insert].
  - rewrite int_equiv_eqb, Z.eqb_refl. reflexivity.
  - change (int_lt k k') with (k <? k'); change (int_lt k' k) with (k' <? k).
    destruct (Z.ltb_spec k k'); cbn [stdmap.find].
    + rewrite int_equiv_eqb, Z.eqb_refl. reflexivity.
    + destruct (Z.ltb_spec k' k); cbn [stdmap.find]; rewrite int_equiv_eqb.
      * destruct (Z.eqb_spec k k'); [lia | exact IH].
      * destruct (Z.eqb_spec k k'); [reflexivity | lia].
Qed.

Lemma find_insert_other k k' v m :
  k <> k' -> stdmap.find int_lt k' (stdmap.insert int_lt k v m) = stdmap.find int_lt k' m.
Proof.
  intros Hne. induction m as [|[k0 v0] m IH]; cbn [stdmap.find stdmap.insert].
  - rewrite int_equiv_eqb. destruct (Z.eqb_spec k' k); [congruence | reflexivity].
  - change (int_lt k k0) with (k <? k0); change (int_lt k0 k) with (k0 <? k).
    destruct (Z.ltb_spec k k0); cbn [stdmap.find].
    + rewrite (int_equiv_eqb k' k). destruct (Z.eqb_spec k' k); [congruence | reflexivity].
    + destruct (Z.ltb_spec k0 k); cbn [stdmap.find]; rewrite !int_equiv_eqb.
      * destruct (Z.eqb_spec k' k0); [reflexivity | exact IH].
      * assert (k0 = k) by lia. subst k0.
        destruct (Z.eqb_spec k' k); [congruence | reflexivity].
Qed.

Lemma find_none_not_key k m :
  stdmap.find int_lt k m = None -> ~ In k (map fst m).
Proof.
  induction m as [|[k' v'] m IH]; cbn [stdmap.find map fst In]; intros Hf; [tauto|].
  rewrite int_equiv_eqb in Hf. destruct (Z.eqb_spec k k'); [discriminate|].
  intros [E | Hin]; [congruence | exact (IH Hf Hin)].
Qed.

Lemma not_key_find_none k m :
  ~ In k (map fst m) -> stdmap.find int_lt k m = None.
Proof.
  induction m as [|[k' v'] m IH]; cbn [stdmap.find map fst In]; intros Hn; [reflexivity|].
  rewrite int_equiv_eqb. destruct (Z.eqb_spec k k'); [subst; tauto|].
  apply IH. tauto.
Qed.

Lemma insert_keys k v m x :
  In x (map fst (stdmap.insert int_lt k v m)) <-> x = k \/ In x (map fst m).
Proof.
  induction m as [|[k' v'] m IH]; simpl.
  - intuition.
  - change (int_lt k k') with (k <? k'); change (int_lt k' k) with (k' <? k).
    destruct (Z.ltb_spec k k'); simpl.
    + intuition.
    + destruct (Z.ltb_spec k' k); simpl.
      * rewrite IH. intuition.
      * assert (k' = k) by lia. subst k'. intuition.
Qed.

Lemma insert_ascending k v m : ascending m -> ascending (stdmap.insert int_lt k v m).
Proof.
  unfold ascending. induction m as [|[k' v'] m IH]; simpl; intros Hs.
  - constructor; constructor.
  - inversion Hs as [|? ? Hs' Hall]; subst.
    change (int_lt k k') with (k <? k'); change (int_lt k' k) with (k' <? k).
    destruct (Z.ltb_spec k k'); simpl.
    + constructor; [exact Hs|]. constructor; [assumption|].
      rewrite Forall_forall in *. intros x Hx. specialize (Hall x Hx). lia.
    + destruct (Z.ltb_spec k' k); simpl.
      * constructor; [apply IH; assumption|].
        rewrite Forall_forall in *. intros x Hx.
        apply insert_keys in Hx. destruct Hx as [-> | Hx]; [assumption | auto].
      * constructor; assumption.
Qed.

Lemma least_key_match_key (p : Z -> bool) m k v :
  least_key_match p m = Some (k, v) -> In k (map fst m) /\ p k = true.
Proof.
  revert k v. induction m as [|[k' v'] m IH]; simpl; intros k v Hl; [discriminate|].
  destruct (p k') eqn:Hp.
  - destruct (least_key_match p m) as [[k2 v2]|] eqn:Hr.
    + destruct (k2 <? k'); inversion Hl; subst.
      * destruct (IH _ _ eq_refl). tauto.
      * tauto.
    + inversion Hl; subst. tauto.
  - destruct (IH _ _ Hl). tauto.
Qed.

(** On a well-formed table, walking from [begin()] to the first entry
    whose key satisfies [p] finds the entry of least key that does. *)
Lemma first_entry_is_least (p : Z -> bool) m :
  ascending m ->
  List.find (fun kv => p (fst kv)) m = least_key_match p m.
Proof.
  unfold ascending. induction m as [|[k v] m IH]; simpl; intros Hs; [reflexivity|].
  inversion Hs as [|? ? Hs' Hall]; subst.
  destruct (p k) eqn:Hp.
  - destruct (least_key_match p m) as [[k2 v2]|] eqn:Hr; [|reflexivity].
    apply least_key_match_key in Hr. destruct Hr as [Hin _].
    rewrite Forall_forall in Hall. specialize (Hall _ Hin).
    destruct (Z.ltb_spec k2 k); [lia | reflexivity].
  - apply IH. assumption.
Qed.

End MapFacts.

Lemma insert_not_empty {K V : Type} (lt : K -> K -> bool) k (v : V) m :
  stdmap.empty (stdmap.insert lt k v m) = false.
Proof.
  destruct m as [|[k' v'] m]; simpl; [reflexivity|].
  destruct (lt k k'); [reflexivity|]. destruct (lt k' k); reflexivity.
Qed.

Lemma find_insert_same_irrefl {K V : Type} (lt : K -> K -> bool) k (v : V) m :
  lt k k = false ->
  stdmap.find lt k (stdmap.insert lt k v m) = Some v.
Proof.
  intros Hirr. induction m as [|[k' v'] m IH]; cbn [stdmap.find stdmap.insert].
  - unfold stdmap.equiv. rewrite Hirr. reflexivity.
  - destruct (lt k k') eqn:H1; cbn [stdmap.find].
    + unfold stdmap.equiv. rewrite Hirr. reflexivity.
    + destruct (lt k' k) eqn:H2; cbn [stdmap.find]; unfold stdmap.equiv;
        rewrite H1, H2; cbn [negb andb].
      * exact IH.
      * reflexivity.
Qed.

Lemma int_pair_lt_irrefl (k : Z * Z) : int_pair_lt k k = false.
Proof.
  unfold int_pair_lt, pair_lt. rewrite !Z.ltb_irrefl. reflexivity.
Qed.

Lemma empty_false_iff {K V : Type} (m : list (K * V)) :
  stdmap.empty m = false <-> m <> [].
Proof. destruct m; simpl; split; congruence. Qed.

(** ** Atomic mass and natural abundance *)

Section MassAbundance.
Context {NN : NucName}.
Variable nd : nuc_data.

Lemma atomic_mass_found fuel nuc s v :
  stdmap.find int_lt nuc (atomic_mass_map s) = Some v ->
  atomic_mass nd (S fuel) nuc s = Ret v s.
Proof. intros H. cbn [atomic_mass]. rewrite H. reflexivity. Qed.

Lemma atomic_mass_ground_guess fuel nuc s :
  stdmap.find int_lt nuc (atomic_mass_map s) = None ->
  stdmap.empty (atomic_mass_map s) = false ->
  Z.rem (nucname_id nuc) 10000 <= 0 ->
  atomic_mass nd (S fuel) nuc s =
  Ret (mass_number_guess nuc)
    (set_atomic_mass_map
       (stdmap.insert int_lt nuc (mass_number_guess nuc) (atomic_mass_map s)) s).
Proof.
  intros Hf He Hg. cbn [atomic_mass]. rewrite Hf, He.
  destruct (Z.ltb_spec 0 (Z.rem (nucname_id nuc) 10000)); [lia | reflexivity].
Qed.

Lemma atomic_mass_excited_guess fuel nuc s :
  stdmap.find int_lt nuc (atomic_mass_map s) = None ->
  stdmap.empty (atomic_mass_map s) = false ->
  0 < Z.rem (nucname_id nuc) 10000 ->
  atomic_mass nd (S fuel) nuc s =
  bind (atomic_mass nd fuel (ground_state_of nuc) s)
    (fun aw s1 =>
       Ret aw (set_atomic_mass_map
                 (stdmap.insert int_lt nuc aw (atomic_mass_map s1)) s1)).
Proof.
  intros Hf He Hx. cbn [atomic_mass]. rewrite Hf, He.
  destruct (Z.ltb_spec 0 (Z.rem (nucname_id nuc) 10000)); [reflexivity | lia].
Qed.

(** A ground-state lookup in a loaded table returns at once: the stored
    mass, or the mass-number estimate, which it stores. *)
Lemma atomic_mass_ground_returns fuel g s :
  stdmap.empty (atomic_mass_map s) = false ->
  Z.rem (nucname_id g) 10000 <= 0 ->
  exists aw s1,
    atomic_mass nd (S fuel) g s = Ret aw s1 /\
    aw = match stdmap.find int_lt g (atomic_mass_map s) with
         | Some v => v
         | None => mass_number_guess g
         end.
Proof.
  intros He Hg. destruct (stdmap.find int_lt g (atomic_mass_map s)) as [v|] eqn:Hf.
  - exists v, s. split; [apply atomic_mass_found; assumption | reflexivity].
  - eexists _, _. split; [apply atomic_mass_ground_guess; assumption | reflexivity].
Qed.

Lemma natural_abund_found fuel nuc s v :
  stdmap.find int_lt nuc (natural_abund_map s) = Some v ->
  natural_abund nd (S fuel) nuc s = Ret v s.
Proof. intros H. cbn [natural_abund]. rewrite H. reflexivity. Qed.

Lemma natural_abund_ground_guess fuel nuc s :
  stdmap.find int_lt nuc (natural_abund_map s) = None ->
  stdmap.empty (natural_abund_map s) = false ->
  Z.rem (nucname_id nuc) 10000 <= 0 ->
  natural_abund nd (S fuel) nuc s =
  Ret 0%float
    (set_natural_abund_map
       (stdmap.insert int_lt nuc 0%float (natural_abund_map s)) s).
Proof.
  intros Hf He Hg. cbn [natural_abund]. rewrite Hf, He.
  destruct (Z.ltb_spec 0 (Z.rem (nucname_id nuc) 10000)); [lia | reflexivity].
Qed.

Lemma natural_abund_excited_guess fuel nuc s :
  stdmap.find int_lt nuc (natural_abund_map s) = None ->
  stdmap.empty (natural_abund_map s) = false ->
  0 < Z.rem (nucname_id nuc) 10000 ->
  natural_abund nd (S fuel) nuc s =
  bind (natural_abund nd fuel (ground_state_of nuc) s)
    (fun na s1 =>
       Ret na (set_atomic_mass_map
                 (stdmap.insert int_lt nuc na (atomic_mass_map s1)) s1)).
Proof.
  intros Hf He Hx. cbn [natural_abund]. rewrite Hf, He.
  destruct (Z.ltb_spec 0 (Z.rem (nucname_id nuc) 10000)); [reflexivity | lia].
Qed.

(** What the mass loader leaves in the abundance table. *)
Lemma load_natural_abund_map rows s :
  natural_abund_map (fold_left atomic_mass_row rows s) =
  fold_left
    (fun m r => stdmap.insert int_lt (atomic_mass_struct.nuc r)
                  (atomic_mass_struct.abund r) m)
    rows (natural_abund_map s).
Proof.
  revert s. induction rows as [|r rows IH]; intros s; [reflexivity|].
  cbn [fold_left]. rewrite IH. reflexivity.
Qed.

Lemma fold_insert_find_absent {R V : Type} (key : R -> Z) (val : R -> V) rows m k :
  (forall r, In r rows -> key r <> k) ->
  stdmap.find int_lt k
    (fold_left (fun m r => stdmap.insert int_lt (key r) (val r) m) rows m) =
  stdmap.find int_lt k m.
Proof.
  revert m. induction rows as [|r rows IH]; intros m Hab; [reflexivity|].
  cbn [fold_left]. rewrite IH by (intros r' Hr'; apply Hab; right; exact Hr').
  apply find_insert_other. apply Hab. left; reflexivity.
Qed.

Lemma fold_insert_not_empty {R V : Type} (key : R -> Z) (val : R -> V) rows m :
  rows <> [] \/ stdmap.empty m = false ->
  stdmap.empty
    (fold_left (fun m r => stdmap.insert int_lt (key r) (val r) m) rows m) = false.
Proof.
  revert m. induction rows as [|r rows IH]; intros m [Hr | Hm].
  - congruence.
  - exact Hm.
  - cbn [fold_left]. apply IH. right. apply insert_not_empty.
  - cbn [fold_left]. apply IH. right. apply insert_not_empty.
Qed.

Lemma load_atomic_mass_map_ok s :
  load_failure nd = None ->
  _load_atomic_mass_map nd s =
  Ret tt (fold_left atomic_mass_row (tbl_atomic_mass nd) s).
Proof.
  intros Hok. unfold _load_atomic_mass_map, open_nuc_data. rewrite Hok. reflexivity.
Qed.

Lemma load_atomic_mass_map_fails s e :
  load_failure nd = Some e -> _load_atomic_mass_map nd s = Throw e s.
Proof.
  intros Hf. unfold _load_atomic_mass_map, open_nuc_data. rewrite Hf. reflexivity.
Qed.

(** The first lookup in a never-filled table loads the dataset and asks
    again. *)
Lemma atomic_mass_after_load fuel nuc s v s' :
  atomic_mass_map s = [] ->
  load_failure nd = None ->
  atomic_mass nd fuel nuc (fold_left atomic_mass_row (tbl_atomic_mass nd) s)
  = Ret v s' ->
  atomic_mass nd (S fuel) nuc s = Ret v s'.
Proof.
  intros Hs Hok Hret. cbn [atomic_mass]. rewrite Hs. cbn [stdmap.find stdmap.empty].
  rewrite (load_atomic_mass_map_ok s Hok). cbn [bind]. rewrite Hret. reflexivity.
Qed.

Lemma natural_abund_after_load fuel nuc s v s' :
  natural_abund_map s = [] ->
  load_failure nd = None ->
  natural_abund nd fuel nuc (fold_left atomic_mass_row (tbl_atomic_mass nd) s)
  = Ret v s' ->
  natural_abund nd (S fuel) nuc s = Ret v s'.
Proof.
  intros Hs Hok Hret. cbn [natural_abund]. rewrite Hs. cbn [stdmap.find stdmap.empty].
  rewrite (load_atomic_mass_map_ok s Hok). cbn [bind]. rewrite Hret. reflexivity.
Qed.

(** C5: for an excited-state ID (non-zero state field) that a loaded
    atomic-mass table does not hold, [atomic_mass] returns what
    [atomic_mass] of the ground-state ID returns, and stores that value in
    the atomic-mass table under the excited ID, so that the table then
    holds the excited key. *)
Theorem atomic_mass_excited_equals_ground (fuel : nat) (nuc : Z) (s : caches) :
  stdmap.find int_lt nuc (atomic_mass_map s) = None ->
  stdmap.empty (atomic_mass_map s) = false ->
  0 < Z.rem (nucname_id nuc) 10000 ->
  Z.rem (nucname_id (ground_state_of nuc)) 10000 = 0 ->
  exists aw s1 s',
    atomic_mass nd (S fuel) (ground_state_of nuc) s = Ret aw s1 /\
    atomic_mass nd (S (S fuel)) nuc s = Ret aw s' /\
    atomic_mass_map s' = stdmap.insert int_lt nuc aw (atomic_mass_map s1) /\
    stdmap.find int_lt nuc (atomic_mass_map s') = Some aw.
Proof.
  intros Hf He Hx Hg.
  destruct (atomic_mass_ground_returns fuel (ground_state_of nuc) s He)
    as (aw & s1 & Hret & _); [lia|].
  exists aw, s1. eexists. split; [exact Hret|].
  rewrite (atomic_mass_excited_guess (S fuel) nuc s Hf He Hx), Hret.
  cbn [bind]. split; [reflexivity|]. split; [reflexivity|].
  apply find_insert_same.
Qed.

(** C9: for an excited-state ID that a non-empty abundance table does not
    hold, [natural_abund] stores the abundance it obtained for the ground
    state in the atomic-mass table under that ID, not in the abundance
    table: a later [atomic_mass] of the ID returns that abundance, and the
    abundance table still has no entry for the ID. *)
Theorem natural_abund_excited_writes_mass_table (fuel : nat) (nuc : Z) (s : caches) :
  stdmap.find int_lt nuc (natural_abund_map s) = None ->
  stdmap.empty (natural_abund_map s) = false ->
  0 < Z.rem (nucname_id nuc) 10000 ->
  Z.rem (nucname_id (ground_state_of nuc)) 10000 = 0 ->
  exists na s1 s',
    natural_abund nd (S fuel) (ground_state_of nuc) s = Ret na s1 /\
    natural_abund nd (S (S fuel)) nuc s = Ret na s' /\
    atomic_mass_map s' = stdmap.insert int_lt nuc na (atomic_mass_map s1) /\
    stdmap.find int_lt nuc (natural_abund_map s') = None /\
    forall fuel', atomic_mass nd (S fuel') nuc s' = Ret na s'.
Proof.
  intros Hf He Hx Hg.
  assert (Hne : ground_state_of nuc <> nuc).
  { intros E. rewrite E in Hg. lia. }
  rewrite (natural_abund_excited_guess (S fuel) nuc s Hf He Hx).
  destruct (stdmap.find int_lt (ground_state_of nuc) (natural_abund_map s))
    as [v|] eqn:Hfg.
  - rewrite (natural_abund_found fuel _ s v Hfg). cbn [bind].
    exists v, s. eexists. split; [reflexivity|]. split; [reflexivity|].
    split; [reflexivity|]. split; [exact Hf|].
    intros fuel'. apply atomic_mass_found. apply find_insert_same.
  - rewrite (natural_abund_ground_guess fuel _ s Hfg He) by lia. cbn [bind].
    eexists _, _, _. split; [reflexivity|]. split; [reflexivity|].
    split; [reflexivity|]. split.
    + cbn [natural_abund_map set_atomic_mass_map set_natural_abund_map].
      rewrite find_insert_other by exact Hne. exact Hf.
    + intros fuel'. apply atomic_mass_found. apply find_insert_same.
Qed.

End MassAbundance.

Lemma atomic_mass_excited_equals_ground_witness :
  exists aw s1 s',
    atomic_mass (NN := canonical_nucname) u235_nuc_data 1
      (ground_state_of (NN := canonical_nucname) 922350001) loaded_caches
    = Ret aw s1 /\
    atomic_mass (NN := canonical_nucname) u235_nuc_data 2 922350001 loaded_caches
    = Ret aw s' /\
    atomic_mass_map s' = stdmap.insert int_lt 922350001 aw (atomic_mass_map s1) /\
    stdmap.find int_lt 922350001 (atomic_mass_map s') = Some aw.
Proof.
  apply (@atomic_mass_excited_equals_ground canonical_nucname u235_nuc_data
           0%nat 922350001 loaded_caches); reflexivity.
Defined.

(** C8, as first stated, fails: U-235m (922350001) is in no row of the
    dataset, yet its abundance is the one of the U-235 ground state. *)
Lemma natural_abund_absent_excited_counterexample :
  (forall r, In r (tbl_atomic_mass u235_nuc_data) ->
             atomic_mass_struct.nuc r <> 922350001) /\
  (exists s',
     natural_abund (NN := canonical_nucname) u235_nuc_data 3 922350001 init_caches
     = Ret 0.0072%float s') /\
  0.0072%float <> 0%float.
Proof.
  split; [|split].
  - intros r [<- | []]. discriminate.
  - eexists. vm_compute. reflexivity.
  - intros E. apply (f_equal (PrimFloat.eqb 0%float)) in E. vm_compute in E.
    discriminate.
Qed.

Lemma natural_abund_excited_writes_mass_table_witness :
  exists na s1 s',
    natural_abund (NN := canonical_nucname) u235_nuc_data 1
      (ground_state_of (NN := canonical_nucname) 922350001) loaded_caches
    = Ret na s1 /\
    natural_abund (NN := canonical_nucname) u235_nuc_data 2 922350001 loaded_caches
    = Ret na s' /\
    atomic_mass_map s' = stdmap.insert int_lt 922350001 na (atomic_mass_map s1) /\
    stdmap.find int_lt 922350001 (natural_abund_map s') = None /\
    forall fuel',
      atomic_mass (NN := canonical_nucname) u235_nuc_data (S fuel') 922350001 s'
      = Ret na s'.
Proof.
  apply (@natural_abund_excited_writes_mass_table canonical_nucname u235_nuc_data
           0%nat 922350001 loaded_caches); reflexivity.
Defined.

(** ** Load failures: who swallows them *)

Section LoadFailure.
Context {NN : NucName}.
Variable nd : nuc_data.
Variable e : load_error.
Hypothesis Hfail : load_failure nd = Some e.

Lemma decay_const_load_fails fuel nuc s :
  decay_const_map s = [] -> decay_const nd (S fuel) nuc s = Throw e s.
Proof.
  intros Hs. cbn [decay_const]. rewrite Hs. cbn [stdmap.find stdmap.empty].
  unfold _load_half_life_decay, open_nuc_data. rewrite Hfail. reflexivity.
Qed.

Lemma branch_ratio_load_fails fuel from_to s :
  branch_ratio_map s = [] -> branch_ratio nd (S fuel) from_to s = Throw e s.
Proof.
  intros Hs. cbn [branch_ratio]. rewrite Hs. cbn [stdmap.find stdmap.empty].
  unfold _load_half_life_decay, open_nuc_data. rewrite Hfail. reflexivity.
Qed.

Lemma decay_children_load_fails fuel nuc s :
  decay_children_map s = [] -> decay_children nd (S fuel) nuc s = Throw e s.
Proof.
  intros Hs. cbn [decay_children]. rewrite Hs. cbn [stdmap.find stdmap.empty].
  unfold _load_half_life_decay, open_nuc_data. rewrite Hfail. reflexivity.
Qed.

Lemma atomic_mass_load_fails fuel nuc s :
  atomic_mass_map s = [] ->
  Z.rem (nucname_id nuc) 10000 = 0 ->
  atomic_mass nd (S fuel) nuc s =
  Ret (mass_number_guess nuc)
    (set_atomic_mass_map [(nuc, mass_number_guess nuc)] s).
Proof.
  intros Hs Hg. cbn [atomic_mass]. rewrite Hs. cbn [stdmap.find stdmap.empty].
  rewrite (load_atomic_mass_map_fails nd s e Hfail). cbn [bind try_catch].
  rewrite Hg, Hs. reflexivity.
Qed.

(** [fpyield] asks the loader of the table its [source] selects. *)
Lemma fpyield_wims_load_fails fuel from_to get_error s :
  wimsdfpy_data s = [] ->
  fpyield nd (S fuel) from_to 0 get_error s = Throw e s.
Proof.
  intros Hw. cbn [fpyield]. unfold fpyield_lookup. rewrite Hw.
  cbn [Z.eqb stdmap.find stdmap.empty andb].
  unfold _load_wimsdfpy, open_nuc_data. rewrite Hfail. reflexivity.
Qed.

Lemma fpyield_nds_load_fails fuel from_to source get_error s :
  source <> 0 ->
  ndsfpy_data s = [] ->
  fpyield nd (S fuel) from_to source get_error s = Throw e s.
Proof.
  intros Hsrc Hn. cbn [fpyield]. unfold fpyield_lookup. rewrite Hn.
  destruct (Z.eqb_spec source 0) as [E|_]; [contradiction|].
  cbn [stdmap.find stdmap.empty andb].
  unfold _load_ndsfpy, open_nuc_data. rewrite Hfail. reflexivity.
Qed.

(** For the WIMS table, a pair that a filled table does not hold sends
    [fpyield] to the loader of the other table. *)
Lemma fpyield_wims_miss_load_fails fuel from_to get_error s :
  stdmap.find int_pair_lt from_to (wimsdfpy_data s) = None ->
  ndsfpy_data s = [] ->
  fpyield nd (S fuel) from_to 0 get_error s = Throw e s.
Proof.
  intros Hf Hn. cbn [fpyield]. unfold fpyield_lookup. cbn [Z.eqb].
  rewrite Hf, Hn. cbn [andb stdmap.empty].
  unfold _load_wimsdfpy, _load_ndsfpy, open_nuc_data. rewrite Hfail.
  destruct (stdmap.empty (wimsdfpy_data s)); reflexivity.
Qed.

Lemma atomic_mass_load_fails_ground fuel nuc s :
  atomic_mass_map s = [] ->
  Z.rem (nucname_id nuc) 10000 <= 0 ->
  atomic_mass nd (S fuel) nuc s =
  Ret (mass_number_guess nuc)
    (set_atomic_mass_map [(nuc, mass_number_guess nuc)] s).
Proof.
  intros Hs Hg. cbn [atomic_mass]. rewrite Hs. cbn [stdmap.find stdmap.empty].
  rewrite (load_atomic_mass_map_fails nd s e Hfail). cbn [bind try_catch].
  destruct (Z.ltb_spec 0 (Z.rem (nucname_id nuc) 10000)); [lia|].
  rewrite Hs. reflexivity.
Qed.

Lemma atomic_mass_load_fails_excited fuel nuc s :
  atomic_mass_map s = [] ->
  0 < Z.rem (nucname_id nuc) 10000 ->
  Z.rem (nucname_id (ground_state_of nuc)) 10000 <= 0 ->
  atomic_mass nd (S (S fuel)) nuc s =
  Ret (mass_number_guess (ground_state_of nuc))
    (set_atomic_mass_map
       (stdmap.insert int_lt nuc (mass_number_guess (ground_state_of nuc))
          [(ground_state_of nuc, mass_number_guess (ground_state_of nuc))]) s).
Proof.
  intros Hs Hx Hg.
  pose proof (atomic_mass_load_fails_ground fuel (ground_state_of nuc) s Hs Hg)
    as Hground.
  remember (S fuel) as fuel1 eqn:Efuel.
  cbn [atomic_mass]. rewrite Hs. cbn [stdmap.find stdmap.empty].
  rewrite (load_atomic_mass_map_fails nd s e Hfail). cbn [bind try_catch].
  destruct (Z.ltb_spec 0 (Z.rem (nucname_id nuc) 10000)); [|lia].
  change (Z.quot (nucname_id nuc) 10000 * 10000) with (ground_state_of nuc).
  rewrite Hground. reflexivity.
Qed.

Lemma natural_abund_load_fails_ground fuel nuc s :
  natural_abund_map s = [] ->
  Z.rem (nucname_id nuc) 10000 <= 0 ->
  natural_abund nd (S fuel) nuc s =
  Ret 0%float (set_natural_abund_map [(nuc, 0%float)] s).
Proof.
  intros Hs Hg. cbn [natural_abund]. rewrite Hs. cbn [stdmap.find stdmap.empty].
  rewrite (load_atomic_mass_map_fails nd s e Hfail). cbn [bind try_catch].
  destruct (Z.ltb_spec 0 (Z.rem (nucname_id nuc) 10000)); [lia|].
  rewrite Hs. reflexivity.
Qed.

Lemma natural_abund_load_fails_excited fuel nuc s :
  natural_abund_map s = [] ->
  0 < Z.rem (nucname_id nuc) 10000 ->
  Z.rem (nucname_id (ground_state_of nuc)) 10000 <= 0 ->
  natural_abund nd (S (S fuel)) nuc s =
  Ret 0%float
    (set_atomic_mass_map
       (stdmap.insert int_lt nuc 0%float (atomic_mass_map s))
       (set_natural_abund_map [(ground_state_of nuc, 0%float)] s)).
Proof.
  intros Hs Hx Hg.
  pose proof (natural_abund_load_fails_ground fuel (ground_state_of nuc) s Hs Hg)
    as Hground.
  remember (S fuel) as fuel1 eqn:Efuel.
  cbn [natural_abund]. rewrite Hs. cbn [stdmap.find stdmap.empty].
  rewrite (load_atomic_mass_map_fails nd s e Hfail). cbn [bind try_catch].
  destruct (Z.ltb_spec 0 (Z.rem (nucname_id nuc) 10000)); [|lia].
  change (Z.quot (nucname_id nuc) 10000 * 10000) with (ground_state_of nuc).
  rewrite Hground. reflexivity.
Qed.

End LoadFailure.

Section LoadFailureClaim.
Context {NN : NucName}.
Variable nd : nuc_data.

(** C3 (as amended): when the bulk load fails (no file, or not an HDF5
    file), [decay_const], [branch_ratio] and [decay_children], called on
    their still-empty tables, and [fpyield], called on the still-empty
    table its [source] selects (the WIMS table for source 0, the richer
    table for any other source) or, for source 0, on a pair the WIMS table
    does not hold while the richer table is still empty, pass the loader's
    exception on to the caller and leave every table as it was.  Only
    [atomic_mass] and [natural_abund], called on their still-empty tables,
    drop the exception and return their arithmetic fallback: for an ID
    without an excited state field the mass-number estimate and 0.0,
    stored under the ID; for an excited-state ID the same fallback of
    its ground state (whose ID the name service gives no excited state
    field), stored under the ground state and, in the atomic-mass table,
    under the ID. *)
Theorem load_failure_propagates_except_mass_abundance
  (e : load_error) (fuel : nat) (s : caches) :
  load_failure nd = Some e ->
  (forall nuc,
     decay_const_map s = [] -> decay_const nd (S fuel) nuc s = Throw e s) /\
  (forall from_to,
     branch_ratio_map s = [] -> branch_ratio nd (S fuel) from_to s = Throw e s) /\
  (forall nuc,
     decay_children_map s = [] -> decay_children nd (S fuel) nuc s = Throw e s) /\
  (forall from_to get_error,
     wimsdfpy_data s = [] ->
     fpyield nd (S fuel) from_to 0 get_error s = Throw e s) /\
  (forall from_to source get_error,
     source <> 0 ->
     ndsfpy_data s = [] ->
     fpyield nd (S fuel) from_to source get_error s = Throw e s) /\
  (forall from_to get_error,
     stdmap.find int_pair_lt from_to (wimsdfpy_data s) = None ->
     ndsfpy_data s = [] ->
     fpyield nd (S fuel) from_to 0 get_error s = Throw e s) /\
  (forall nuc,
     atomic_mass_map s = [] ->
     Z.rem (nucname_id nuc) 10000 <= 0 ->
     atomic_mass nd (S fuel) nuc s =
     Ret (mass_number_guess nuc)
       (set_atomic_mass_map [(nuc, mass_number_guess nuc)] s)) /\
  (forall nuc,
     atomic_mass_map s = [] ->
     0 < Z.rem (nucname_id nuc) 10000 ->
     Z.rem (nucname_id (ground_state_of nuc)) 10000 <= 0 ->
     atomic_mass nd (S (S fuel)) nuc s =
     Ret (mass_number_guess (ground_state_of nuc))
       (set_atomic_mass_map
          (stdmap.insert int_lt nuc (mass_number_guess (ground_state_of nuc))
             [(ground_state_of nuc, mass_number_guess (ground_state_of nuc))])
          s)) /\
  (forall nuc,
     natural_abund_map s = [] ->
     Z.rem (nucname_id nuc) 10000 <= 0 ->
     natural_abund nd (S fuel) nuc s =
     Ret 0%float (set_natural_abund_map [(nuc, 0%float)] s)) /\
  (forall nuc,
     natural_abund_map s = [] ->
     0 < Z.rem (nucname_id nuc) 10000 ->
     Z.rem (nucname_id (ground_state_of nuc)) 10000 <= 0 ->
     natural_abund nd (S (S fuel)) nuc s =
     Ret 0%float
       (set_atomic_mass_map
          (stdmap.insert int_lt nuc 0%float (atomic_mass_map s))
          (set_natural_abund_map [(ground_state_of nuc, 0%float)] s))).
Proof.
  intros Hfail.
  split; [intros nuc Hs; apply decay_const_load_fails; assumption|].
  split; [intros from_to Hs; apply branch_ratio_load_fails; assumption|].
  split; [intros nuc Hs; apply decay_children_load_fails; assumption|].
  split; [intros from_to get_error Hw;
          apply fpyield_wims_load_fails; assumption|].
  split; [intros from_to source get_error Hsrc Hn;
          apply fpyield_nds_load_fails; assumption|].
  split; [intros from_to get_error Hf Hn;
          apply fpyield_wims_miss_load_fails; assumption|].
  split; [intros nuc Hs Hg;
          apply atomic_mass_load_fails_ground with (e := e); assumption|].
  split; [intros nuc Hs Hx Hg;
          apply atomic_mass_load_fails_excited with (e := e); assumption|].
  split; [intros nuc Hs Hg;
          apply natural_abund_load_fails_ground with (e := e); assumption|].
  intros nuc Hs Hx Hg.
  apply natural_abund_load_fails_excited with (e := e); assumption.
Qed.

End LoadFailureClaim.

Lemma load_failure_propagates_except_mass_abundance_witness :
  decay_const missing_nuc_data 1 10030000 init_caches
  = Throw FileNotFound init_caches /\
  branch_ratio missing_nuc_data 1 (10030000, 20030000) init_caches
  = Throw FileNotFound init_caches /\
  decay_children missing_nuc_data 1 10030000 init_caches
  = Throw FileNotFound init_caches /\
  fpyield missing_nuc_data 1 (922350000, 551370000) 0 false loaded_nds_caches
  = Throw FileNotFound loaded_nds_caches /\
  fpyield missing_nuc_data 1 (922350000, 541350000) 1 false loaded_wims_caches
  = Throw FileNotFound loaded_wims_caches /\
  fpyield missing_nuc_data 1 (922350000, 541350000) 0 false loaded_wims_caches
  = Throw FileNotFound loaded_wims_caches /\
  atomic_mass (NN := canonical_nucname) missing_nuc_data 1 10030000 init_caches
  = Ret 3%float (set_atomic_mass_map [(10030000, 3%float)] init_caches) /\
  atomic_mass (NN := canonical_nucname) missing_nuc_data 2 922350001 init_caches
  = Ret 235%float
      (set_atomic_mass_map [(922350000, 235%float); (922350001, 235%float)]
         init_caches) /\
  natural_abund (NN := canonical_nucname) missing_nuc_data 1 10030000 init_caches
  = Ret 0%float (set_natural_abund_map [(10030000, 0%float)] init_caches) /\
  natural_abund (NN := canonical_nucname) missing_nuc_data 2 922350001 init_caches
  = Ret 0%float
      (set_atomic_mass_map [(922350001, 0%float)]
         (set_natural_abund_map [(922350000, 0%float)] init_caches)).
Proof.
  destruct (@load_failure_propagates_except_mass_abundance canonical_nucname
              missing_nuc_data FileNotFound 0%nat init_caches eq_refl)
    as (H1 & H2 & H3 & _ & _ & _ & H7 & H8 & H9 & H10).
  destruct (@load_failure_propagates_except_mass_abundance canonical_nucname
              missing_nuc_data FileNotFound 0%nat loaded_nds_caches eq_refl)
    as (_ & _ & _ & H4 & _).
  destruct (@load_failure_propagates_except_mass_abundance canonical_nucname
              missing_nuc_data FileNotFound 0%nat loaded_wims_caches eq_refl)
    as (_ & _ & _ & _ & H5 & H6 & _).
  split; [apply H1; reflexivity|].
  split; [apply H2; reflexivity|].
  split; [apply H3; reflexivity|].
  split; [apply H4; reflexivity|].
  split; [apply H5; [discriminate | reflexivity]|].
  split; [apply H6; reflexivity|].
  split; [apply H7; [reflexivity | vm_compute; discriminate]|].
  split; [apply (H8 922350001);
          [reflexivity | reflexivity | vm_compute; discriminate]|].
  split; [apply H9; [reflexivity | vm_compute; discriminate]|].
  apply (H10 922350001); [reflexivity | reflexivity | vm_compute; discriminate].
Defined.

(** C3, as first stated, fails: with no file at [NUC_DATA_PATH], none of
    the four accessors returns its fallback; each throws [FileNotFound]. *)
Lemma load_failure_not_swallowed_counterexample :
  (forall fuel s', decay_const missing_nuc_data fuel 10030000 init_caches
                   <> Ret 0%float s') /\
  decay_const missing_nuc_data 1 10030000 init_caches
  = Throw FileNotFound init_caches /\
  branch_ratio missing_nuc_data 1 (10030000, 20030000) init_caches
  = Throw FileNotFound init_caches /\
  decay_children missing_nuc_data 1 10030000 init_caches
  = Throw FileNotFound init_caches /\
  fpyield missing_nuc_data 1 (10030000, 20030000) 0 false init_caches
  = Throw FileNotFound init_caches /\
  fpyield missing_nuc_data 1 (10030000, 20030000) 1 false init_caches
  = Throw FileNotFound init_caches.
Proof.
  split.
  - intros [|fuel] s'; [discriminate|].
    rewrite (decay_const_load_fails missing_nuc_data FileNotFound eq_refl);
      [discriminate | reflexivity].
  - repeat split; reflexivity.
Qed.

(** ** Fission product yields *)

Section Yields.
Variable nd : nuc_data.

Lemma fpyield_lookup_absent from_to source get_error s :
  (source = 0 -> stdmap.find int_pair_lt from_to (wimsdfpy_data s) = None) ->
  (source <> 0 -> stdmap.find int_pair_lt from_to (ndsfpy_data s) = None) ->
  fpyield_lookup from_to source get_error s = None.
Proof.
  unfold fpyield_lookup. intros H0 H1. destruct (Z.eqb_spec source 0) as [E|E].
  - apply H0. exact E.
  - rewrite (H1 E). reflexivity.
Qed.

(** C7: when both yield tables are loaded and the pair is not in the
    table that [source] selects, [fpyield] returns 0.0 and stores 0.0 under
    the pair in the WIMS table, whichever table [source] selected; the
    richer table is left as it was. *)
Theorem fpyield_fallback_lands_in_wims
  (fuel : nat) (from_to : Z * Z) (source : Z) (get_error : bool) (s : caches) :
  stdmap.empty (wimsdfpy_data s) = false ->
  stdmap.empty (ndsfpy_data s) = false ->
  (source = 0 -> stdmap.find int_pair_lt from_to (wimsdfpy_data s) = None) ->
  (source <> 0 -> stdmap.find int_pair_lt from_to (ndsfpy_data s) = None) ->
  exists s',
    fpyield nd (S fuel) from_to source get_error s = Ret 0%float s' /\
    s' = set_wimsdfpy_data
           (stdmap.insert int_pair_lt from_to 0%float (wimsdfpy_data s)) s /\
    stdmap.find int_pair_lt from_to (wimsdfpy_data s') = Some 0%float /\
    ndsfpy_data s' = ndsfpy_data s.
Proof.
  intros Hw Hn Hab0 Hab1. eexists. split; [|split; [reflexivity|split]].
  - cbn [fpyield]. rewrite (fpyield_lookup_absent _ _ _ _ Hab0 Hab1), Hw, Hn.
    rewrite andb_false_r. reflexivity.
  - cbn [wimsdfpy_data set_wimsdfpy_data].
    apply find_insert_same_irrefl. apply int_pair_lt_irrefl.
  - reflexivity.
Qed.

End Yields.

Lemma fpyield_fallback_lands_in_wims_witness :
  exists s',
    fpyield no_rows_nuc_data 1 (922350000, 400900000) 1 false loaded_caches
    = Ret 0%float s' /\
    s' = set_wimsdfpy_data
           (stdmap.insert int_pair_lt (922350000, 400900000) 0%float
              (wimsdfpy_data loaded_caches)) loaded_caches /\
    stdmap.find int_pair_lt (922350000, 400900000) (wimsdfpy_data s') = Some 0%float /\
    ndsfpy_data s' = ndsfpy_data loaded_caches.
Proof.
  apply (fpyield_fallback_lands_in_wims no_rows_nuc_data 0%nat
           (922350000, 400900000) 1 false loaded_caches);
    [reflexivity | reflexivity | discriminate | reflexivity].
Defined.

(** ** Scattering lengths *)

Section LeastKey.
Context {V : Type}.
Variable p : Z -> bool.
Implicit Types (m : list (Z * V)).

Lemma least_key_match_in m k v :
  least_key_match p m = Some (k, v) -> In (k, v) m /\ p k = true.
Proof.
  revert k v. induction m as [|[k' v'] m IH]; cbn [least_key_match In];
    intros k v Hl; [discriminate|].
  destruct (p k') eqn:Hp.
  - destruct (least_key_match p m) as [[k2 v2]|] eqn:Hr.
    + destruct (k2 <? k'); inversion Hl; subst.
      * destruct (IH _ _ eq_refl). tauto.
      * tauto.
    + inversion Hl; subst. tauto.
  - destruct (IH _ _ Hl). tauto.
Qed.

Lemma least_key_match_some m k :
  In k (map fst m) -> p k = true -> least_key_match p m <> None.
Proof.
  induction m as [|[k0 v0] m IH]; cbn [least_key_match map fst In];
    intros Hin Hk; [tauto|].
  destruct (p k0) eqn:Hp.
  - destruct (least_key_match p m) as [[k2 v2]|]; [destruct (k2 <? k0)|]; discriminate.
  - destruct Hin as [E | Hin]; [subst; congruence | exact (IH Hin Hk)].
Qed.

Lemma least_key_match_least m k v :
  least_key_match p m = Some (k, v) ->
  forall k', In k' (map fst m) -> p k' = true -> k <= k'.
Proof.
  revert k v. induction m as [|[k0 v0] m IH]; cbn [least_key_match map fst In];
    intros k v Hl k' Hin Hk'; [tauto|].
  destruct (p k0) eqn:Hp.
  - destruct (least_key_match p m) as [[k2 v2]|] eqn:Hr.
    + destruct (Z.ltb_spec k2 k0); inversion Hl; subst.
      * destruct Hin as [E | Hin]; [subst; lia | exact (IH _ _ eq_refl _ Hin Hk')].
      * destruct Hin as [E | Hin]; [subst; lia|].
        specialize (IH _ _ eq_refl _ Hin Hk'). lia.
    + inversion Hl; subst. destruct Hin as [E | Hin]; [subst; lia|].
      exfalso. exact (least_key_match_some m k' Hin Hk' Hr).
  - destruct Hin as [E | Hin]; [subst; congruence | exact (IH _ _ Hl _ Hin Hk')].
Qed.

End LeastKey.

Section Scattering.
Context {NN : NucName}.
Variable nd : nuc_data.

Lemma scan_anum_first anum m :
  scan_anum anum m =
  option_map snd (List.find (fun kv => anum =? nucname_anum (fst kv)) m).
Proof.
  induction m as [|[k v] m IH]; cbn [scan_anum List.find fst]; [reflexivity|].
  destruct (anum =? nucname_anum k); [reflexivity | exact IH].
Qed.

Lemma scan_znum_first znum m :
  scan_znum znum m =
  option_map snd (List.find (fun kv => znum =? nucname_znum (fst kv)) m).
Proof.
  induction m as [|[k v] m IH]; cbn [scan_znum List.find fst]; [reflexivity|].
  destruct (znum =? nucname_znum k); [reflexivity | exact IH].
Qed.

(** The two loops of the fallback compute the documented choice. *)
Lemma scan_fallback_spec nuc m :
  ascending m ->
  match scan_anum (nucname_anum (nucname_id nuc)) m with
  | Some bc => bc
  | None =>
      match scan_znum (nucname_znum (nucname_id nuc)) m with
      | Some bc => bc
      | None => mk_complex 0%float 0%float
      end
  end = scattering_fallback_spec nuc m.
Proof.
  intros Hasc. unfold scattering_fallback_spec.
  rewrite scan_anum_first, scan_znum_first.
  rewrite (first_entry_is_least
             (fun k => nucname_anum (nucname_id nuc) =? nucname_anum k) m Hasc).
  rewrite (first_entry_is_least
             (fun k => nucname_znum (nucname_id nuc) =? nucname_znum k) m Hasc).
  destruct (least_key_match _ m) as [[k v]|]; [reflexivity|].
  cbn [option_map].
  destruct (least_key_match _ m) as [[k v]|]; reflexivity.
Qed.

Lemma b_coherent_fallback_step fuel nuc s :
  stdmap.empty (b_coherent_map s) = false ->
  stdmap.find int_lt nuc (b_coherent_map s) = None ->
  b_coherent nd (S fuel) nuc s =
  let bc :=
    match scan_anum (nucname_anum (nucname_id nuc)) (b_coherent_map s) with
    | Some bc => bc
    | None =>
        match scan_znum (nucname_znum (nucname_id nuc)) (b_coherent_map s) with
        | Some bc => bc
        | None => mk_complex 0%float 0%float
        end
    end in
  Ret bc (set_b_coherent_map (stdmap.insert int_lt nuc bc (b_coherent_map s)) s).
Proof.
  intros He Hf. cbn [b_coherent]. rewrite Hf, He. cbn zeta.
  destruct (scan_anum _ _); [reflexivity|].
  destruct (scan_znum _ _); reflexivity.
Qed.

(** C6: for an ID that a non-empty coherent-scattering-length table does
    not hold, [b_coherent] returns the value of the entry of least key
    whose mass number is the ID's; failing that, of the entry of least key
    whose atomic number is the ID's; failing that, complex zero; and it
    stores the value under the ID.  A mass-number match wins over every
    atomic-number match. *)
Theorem b_coherent_fallback_precedence (fuel : nat) (nuc : Z) (s : caches) :
  ascending (b_coherent_map s) ->
  stdmap.empty (b_coherent_map s) = false ->
  stdmap.find int_lt nuc (b_coherent_map s) = None ->
  exists bc s',
    b_coherent nd (S fuel) nuc s = Ret bc s' /\
    bc = scattering_fallback_spec nuc (b_coherent_map s) /\
    s' = set_b_coherent_map (stdmap.insert int_lt nuc bc (b_coherent_map s)) s /\
    stdmap.find int_lt nuc (b_coherent_map s') = Some bc /\
    (forall k0 v0,
       In (k0, v0) (b_coherent_map s) ->
       nucname_anum (nucname_id nuc) = nucname_anum k0 ->
       exists k v,
         In (k, v) (b_coherent_map s) /\
         nucname_anum (nucname_id nuc) = nucname_anum k /\
         k <= k0 /\ bc = v).
Proof.
  intros Hasc He Hf.
  exists (scattering_fallback_spec nuc (b_coherent_map s)). eexists.
  split; [|split; [reflexivity | split; [reflexivity | split]]].
  - rewrite (b_coherent_fallback_step fuel nuc s He Hf). cbn zeta.
    rewrite (scan_fallback_spec nuc _ Hasc). reflexivity.
  - cbn [b_coherent_map set_b_coherent_map]. apply find_insert_same.
  - intros k0 v0 Hin Hk0. unfold scattering_fallback_spec.
    assert (Hkey : In k0 (map fst (b_coherent_map s))).
    { apply in_map_iff. exists (k0, v0). split; [reflexivity | exact Hin]. }
    destruct (least_key_match
                (fun k => nucname_anum (nucname_id nuc) =? nucname_anum k)
                (b_coherent_map s)) as [[k v]|] eqn:Hl.
    + exists k, v. destruct (least_key_match_in _ _ _ _ Hl) as [Hkv Hp].
      split; [exact Hkv|]. split; [apply Z.eqb_eq; exact Hp|].
      split; [|reflexivity].
      apply (least_key_match_least _ _ _ _ Hl k0 Hkey). apply Z.eqb_eq. exact Hk0.
    + exfalso.
      apply (least_key_match_some
               (fun k => nucname_anum (nucname_id nuc) =? nucname_anum k)
               (b_coherent_map s) k0 Hkey); [|exact Hl].
      apply Z.eqb_eq. exact Hk0.
Qed.

End Scattering.

Lemma b_coherent_fallback_precedence_witness :
  exists bc s',
    b_coherent (NN := canonical_nucname) no_rows_nuc_data 1 10030000 loaded_caches
    = Ret bc s' /\
    bc = scattering_fallback_spec (NN := canonical_nucname) 10030000
           (b_coherent_map loaded_caches) /\
    s' = set_b_coherent_map
           (stdmap.insert int_lt 10030000 bc (b_coherent_map loaded_caches))
           loaded_caches /\
    stdmap.find int_lt 10030000 (b_coherent_map s') = Some bc /\
    (forall k0 v0,
       In (k0, v0) (b_coherent_map loaded_caches) ->
       nucname_anum (NucName := canonical_nucname)
         (nucname_id (NucName := canonical_nucname) 10030000)
       = nucname_anum (NucName := canonical_nucname) k0 ->
       exists k v,
         In (k, v) (b_coherent_map loaded_caches) /\
         nucname_anum (NucName := canonical_nucname)
           (nucname_id (NucName := canonical_nucname) 10030000)
         = nucname_anum (NucName := canonical_nucname) k /\
         k <= k0 /\ bc = v).
Proof.
  apply (@b_coherent_fallback_precedence canonical_nucname no_rows_nuc_data
           0%nat 10030000 loaded_caches).
  - unfold ascending. cbn. repeat constructor.
  - reflexivity.
  - reflexivity.
Defined.

(** The tritium entry is absent; He-3 shares its mass number, H-1 its
    atomic number and a smaller key: the He-3 value is returned. *)
Example b_coherent_tritium_takes_helium3 :
  exists s',
    b_coherent (NN := canonical_nucname) no_rows_nuc_data 1 10030000 loaded_caches
    = Ret (sample_complex 2%float) s'.
Proof. eexists. vm_compute. reflexivity. Qed.

(** ** Range queries *)

Section RangeFacts.
Context {K U : Type}.
Variable lt : K -> K -> bool.
Implicit Types (m it visited rest nuc_iter : list (K * U)).

Lemma iterate_app (visited rest : list (K * U)) :
  stdmap.iterate (visited ++ rest) (List.length rest) = Some visited.
Proof.
  induction visited as [|kv visited IH]; cbn [app].
  - destruct rest; cbn [stdmap.iterate List.length]; rewrite Nat.eqb_refl; reflexivity.
  - cbn [stdmap.iterate]. rewrite IH.
    destruct (Nat.eqb_spec (List.length (kv :: visited ++ rest)) (List.length rest))
      as [E|_]; [|reflexivity].
    cbn [List.length] in E. rewrite length_app in E. lia.
Qed.

Lemma upper_bound_suffix k m : exists pre, m = pre ++ stdmap.upper_bound lt k m.
Proof.
  induction m as [|[k' v] m [pre IH]]; cbn [stdmap.upper_bound].
  - exists []. reflexivity.
  - destruct (lt k k').
    + exists []. reflexivity.
    + exists ((k', v) :: pre). cbn [app]. rewrite <- IH. reflexivity.
Qed.

Lemma lower_bound_suffix k m : exists pre, m = pre ++ stdmap.lower_bound lt k m.
Proof.
  induction m as [|[k' v] m [pre IH]]; cbn [stdmap.lower_bound].
  - exists []. reflexivity.
  - destruct (lt k' k).
    + exists ((k', v) :: pre). cbn [app]. rewrite <- IH. reflexivity.
    + exists []. reflexivity.
Qed.

(** When no key above [hi] is below [lo], [upper_bound hi] is reached from
    [lower_bound lo] by incrementing. *)
Lemma bounds_split lo hi m :
  (forall x, lt hi x = true -> lt x lo = false) ->
  exists visited,
    stdmap.lower_bound lt lo m = visited ++ stdmap.upper_bound lt hi m.
Proof.
  intros Hord. induction m as [|[k v] m [visited IH]].
  - exists []. reflexivity.
  - cbn [stdmap.lower_bound stdmap.upper_bound]. destruct (lt k lo) eqn:Hlo.
    + destruct (lt hi k) eqn:Hhi.
      * rewrite (Hord k Hhi) in Hlo. discriminate.
      * exists visited. exact IH.
    + apply (upper_bound_suffix hi ((k, v) :: m)).
Qed.

Lemma push_visited_length {T : Type} (valoffset : U -> T) visited rest :
  List.length (push_visited valoffset (visited ++ rest) visited)
  = List.length visited.
Proof.
  unfold push_visited. destruct visited as [|kv visited]; [reflexivity|].
  cbn [app]. generalize (kv :: visited). intros l.
  induction l as [|x l IH]; cbn [flat_map app List.length]; [reflexivity|].
  rewrite IH. reflexivity.
Qed.

Lemma push_visited_in {T : Type} (valoffset : U -> T) nuc_iter visited x :
  In x (push_visited valoffset nuc_iter visited) ->
  exists kv, In kv nuc_iter /\ x = valoffset (snd kv).
Proof.
  unfold push_visited. destruct nuc_iter as [|kv nuc_iter].
  - induction visited as [|y visited IH]; cbn [flat_map app]; [intros []|exact IH].
  - induction visited as [|y visited IH]; cbn [flat_map app In]; [intros []|].
    intros [<- | Hin]; [|exact (IH Hin)].
    exists kv. split; [left; reflexivity | reflexivity].
Qed.

(** Rewriting the records, keys untouched, moves no iterator. *)
Lemma lower_bound_map (g : U -> U) k m :
  stdmap.lower_bound lt k (map (fun kv => (fst kv, g (snd kv))) m)
  = map (fun kv => (fst kv, g (snd kv))) (stdmap.lower_bound lt k m).
Proof.
  induction m as [|[k' v] m IH]; cbn [map stdmap.lower_bound fst snd]; [reflexivity|].
  destruct (lt k' k); [exact IH | reflexivity].
Qed.

Lemma upper_bound_map (g : U -> U) k m :
  stdmap.upper_bound lt k (map (fun kv => (fst kv, g (snd kv))) m)
  = map (fun kv => (fst kv, g (snd kv))) (stdmap.upper_bound lt k m).
Proof.
  induction m as [|[k' v] m IH]; cbn [map stdmap.upper_bound fst snd]; [reflexivity|].
  destruct (lt k k'); [reflexivity | exact IH].
Qed.

Lemma push_visited_map {T : Type} (valoffset : U -> T) (g : U -> U) nuc_iter visited :
  (forall r, valoffset (g r) = valoffset r) ->
  push_visited valoffset (map (fun kv => (fst kv, g (snd kv))) nuc_iter)
    (map (fun kv => (fst kv, g (snd kv))) visited)
  = push_visited valoffset nuc_iter visited.
Proof.
  intros Hg. unfold push_visited. destruct nuc_iter as [|kv nuc_iter]; cbn [map snd].
  - induction visited as [|y visited IH]; cbn [map flat_map app]; [reflexivity | exact IH].
  - induction visited as [|y visited IH]; cbn [map flat_map app]; [reflexivity|].
    rewrite IH, Hg. reflexivity.
Qed.

End RangeFacts.

Lemma pair_up_combine {A B : Type} (part1 : list A) :
  forall (pre part2 : list B),
    List.length part1 = List.length part2 ->
    pair_up part1 (pre ++ part2) (List.length pre) = Some (combine part1 part2).
Proof.
  induction part1 as [|x part1 IH]; intros pre part2 Hlen; [reflexivity|].
  destruct part2 as [|y part2]; [discriminate|].
  cbn [pair_up combine]. rewrite nth_error_app2 by lia. rewrite Nat.sub_diag.
  cbn [nth_error].
  replace (pre ++ y :: part2) with ((pre ++ [y]) ++ part2)
    by (rewrite <- app_assoc; reflexivity).
  replace (S (List.length pre)) with (List.length (pre ++ [y]))
    by (rewrite length_app; cbn; lia).
  rewrite IH by (cbn in Hlen; lia). reflexivity.
Qed.

Lemma map_fst_combine {A B : Type} (part1 : list A) :
  forall part2 : list B,
    List.length part1 = List.length part2 -> map fst (combine part1 part2) = part1.
Proof.
  induction part1 as [|x part1 IH]; intros [|y part2] Hlen;
    try reflexivity; try discriminate.
  cbn [combine map fst]. rewrite IH by (cbn in Hlen; lia). reflexivity.
Qed.

(** The bounds of the parent range of a table keyed by [(parent,
    daughter)] are in order. *)
Lemma int_pair_bounds_ordered parent x :
  int_pair_lt (parent, int_of_long 9999999999) x = true ->
  int_pair_lt x (parent, 0) = false.
Proof.
  destruct x as [x1 x2]. unfold int_pair_lt, pair_lt. cbn [fst snd].
  change (int_of_long 9999999999) with 1410065407.
  destruct (Z.ltb_spec parent x1), (Z.ltb_spec x1 parent),
    (Z.ltb_spec 1410065407 x2), (Z.ltb_spec x2 0); cbn; intros; lia || congruence.
Qed.

Section DecayRange.
Variable nd : nuc_data.

Lemma data_access_parent_loaded {T U : Type}
  (load : caches -> outcome unit) (data : caches -> list ((Z * Z) * U))
  (fuel : nat) (parent : Z) (valoffset : U -> T) (s : caches)
  (visited : list ((Z * Z) * U)) :
  stdmap.empty (data s) = false ->
  stdmap.lower_bound int_pair_lt (parent, 0) (data s)
  = visited
    ++ stdmap.upper_bound int_pair_lt (parent, int_of_long 9999999999) (data s) ->
  data_access_parent load data (S fuel) parent valoffset s
  = Ret (push_visited valoffset
           (stdmap.lower_bound int_pair_lt (parent, 0) (data s)) visited) s.
Proof.
  intros He Hsplit. cbn [data_access_parent]. rewrite He.
  rewrite Hsplit at 1. rewrite iterate_app. reflexivity.
Qed.

(** C10: with the decay table loaded, [decay_branch_ratios] returns,
    element by element, the first components of [decay_half_lifes]: every
    element is the [half_life] field of a decay record, and none is read
    from a [branch_ratio] field (overwriting those fields changes no
    element). *)
Theorem decay_branch_ratios_are_half_lifes (fuel : nat) (parent : Z) (s : caches) :
  stdmap.empty (decay_data s) = false ->
  exists hl,
    decay_half_lifes nd (S fuel) parent s = Ret hl s /\
    decay_branch_ratios nd (S fuel) parent s = Ret (map fst hl) s /\
    (forall x, In x (map fst hl) ->
               exists kv, In kv (decay_data s) /\
                          x = decay_struct.half_life (snd kv)) /\
    (forall br : decay_struct.t -> double,
       decay_branch_ratios nd (S fuel) parent
         (set_decay_data (overwrite_branch_ratios br (decay_data s)) s)
       = Ret (map fst hl)
           (set_decay_data (overwrite_branch_ratios br (decay_data s)) s)).
Proof.
  intros He.
  destruct (bounds_split int_pair_lt (parent, 0) (parent, int_of_long 9999999999)
              (decay_data s) (int_pair_bounds_ordered parent))
    as [visited Hsplit].
  set (nuc_iter := stdmap.lower_bound int_pair_lt (parent, 0) (decay_data s)) in *.
  set (part1 := push_visited decay_struct.half_life nuc_iter visited).
  set (part2 := push_visited decay_struct.half_life_error nuc_iter visited).
  assert (Hlen : List.length part1 = List.length part2).
  { unfold part1, part2. rewrite Hsplit, !push_visited_length. reflexivity. }
  assert (H1 : decay_branch_ratios nd (S fuel) parent s = Ret part1 s).
  { unfold decay_branch_ratios.
    apply (data_access_parent_loaded (_load_decay_data nd) decay_data fuel parent
             decay_struct.half_life s visited He Hsplit). }
  exists (combine part1 part2). rewrite (map_fst_combine part1 part2 Hlen).
  split; [|split; [exact H1 | split]].
  - unfold decay_half_lifes.
    rewrite (data_access_parent_loaded (_load_decay_data nd) decay_data fuel parent
               decay_struct.half_life s visited He Hsplit).
    cbn [bind].
    rewrite (data_access_parent_loaded (_load_decay_data nd) decay_data fuel parent
               decay_struct.half_life_error s visited He Hsplit).
    cbn [bind]. fold nuc_iter. fold part1. fold part2. unfold pair_parts.
    change (pair_up part1 part2 0)
      with (pair_up part1 ([] ++ part2) (List.length (@nil double))).
    rewrite (pair_up_combine part1 [] part2 Hlen). reflexivity.
  - intros x Hx. apply push_visited_in in Hx. destruct Hx as (kv & Hkv & ->).
    exists kv. split; [|reflexivity].
    destruct (lower_bound_suffix int_pair_lt (parent, 0) (decay_data s)) as [pre Hpre].
    rewrite Hpre. apply in_or_app. right. exact Hkv.
  - intros br. unfold decay_branch_ratios.
    set (g := fun r => set_branch_ratio (br r) r).
    set (G := fun kv : (Z * Z) * decay_struct.t => (fst kv, g (snd kv))).
    set (s2 := set_decay_data (overwrite_branch_ratios br (decay_data s)) s).
    assert (Hd : decay_data s2 = map G (decay_data s)) by reflexivity.
    assert (He2 : stdmap.empty (decay_data s2) = false).
    { rewrite Hd. destruct (decay_data s); [discriminate He | reflexivity]. }
    assert (Hsplit2 :
              stdmap.lower_bound int_pair_lt (parent, 0) (decay_data s2)
              = map G visited
                ++ stdmap.upper_bound int_pair_lt
                     (parent, int_of_long 9999999999) (decay_data s2)).
    { rewrite Hd. unfold G. rewrite lower_bound_map, upper_bound_map.
      fold nuc_iter. rewrite Hsplit, map_app. reflexivity. }
    rewrite (data_access_parent_loaded (_load_decay_data nd) decay_data fuel parent
               decay_struct.half_life s2 (map G visited) He2 Hsplit2).
    f_equal. rewrite Hd. unfold G. rewrite lower_bound_map.
    apply push_visited_map. intros r. reflexivity.
Qed.

End DecayRange.

Lemma decay_branch_ratios_are_half_lifes_witness :
  exists hl,
    decay_half_lifes no_rows_nuc_data 1 10030000 loaded_caches
    = Ret hl loaded_caches /\
    decay_branch_ratios no_rows_nuc_data 1 10030000 loaded_caches
    = Ret (map fst hl) loaded_caches /\
    (forall x, In x (map fst hl) ->
               exists kv, In kv (decay_data loaded_caches) /\
                          x = decay_struct.half_life (snd kv)) /\
    (forall br : decay_struct.t -> double,
       decay_branch_ratios no_rows_nuc_data 1 10030000
         (set_decay_data (overwrite_branch_ratios br (decay_data loaded_caches))
            loaded_caches)
       = Ret (map fst hl)
           (set_decay_data (overwrite_branch_ratios br (decay_data loaded_caches))
              loaded_caches)).
Proof.
  apply (decay_branch_ratios_are_half_lifes no_rows_nuc_data 0%nat 10030000
           loaded_caches).
  reflexivity.
Defined.

(** Tritium has two decay records in the sample tables; the branch
    ratios returned are its first half-life, twice. *)
Example decay_branch_ratios_tritium :
  decay_branch_ratios no_rows_nuc_data 1 10030000 loaded_caches
  = Ret [388800000%float; 388800000%float] loaded_caches.
Proof. vm_compute. reflexivity. Qed.

(** ** Level data *)

Section Levels.
Variable nd : nuc_data.

Lemma state_energy_found fuel nuc s r :
  stdmap.find int_lt nuc (level_data s) = Some r ->
  state_energy nd (S fuel) nuc s = Ret (level_struct.level r) s.
Proof. intros H. cbn [state_energy]. rewrite H. reflexivity. Qed.

Lemma state_energy_loaded_returns fuel nuc s :
  stdmap.empty (level_data s) = false ->
  exists v, state_energy nd (S fuel) nuc s = Ret v s.
Proof.
  intros He. cbn [state_energy].
  destruct (stdmap.find int_lt nuc (level_data s)); rewrite ?He; eexists; reflexivity.
Qed.

Lemma load_level_data_rows rows s :
  level_data (fold_left level_row rows s)
  = fold_left (fun m r => stdmap.insert int_lt (level_struct.nuc_id r) r m)
      rows (level_data s).
Proof.
  revert s. induction rows as [|r rows IH]; intros s; [reflexivity|].
  cbn [fold_left]. rewrite IH. reflexivity.
Qed.

(** The first [state_energy] on a never-filled table loads the levels,
    asks again, drops the answer and returns 0.0, whatever the dataset
    says about the nuclide. *)
Lemma state_energy_first_call_zero fuel nuc s :
  level_data s = [] ->
  load_failure nd = None ->
  tbl_level_list nd <> [] ->
  state_energy nd (S (S fuel)) nuc s
  = Ret 0%float (fold_left level_row (tbl_level_list nd) s).
Proof.
  intros Hs Hok Hrows.
  assert (He : stdmap.empty
                 (level_data (fold_left level_row (tbl_level_list nd) s)) = false).
  { rewrite load_level_data_rows. apply fold_insert_not_empty. left. exact Hrows. }
  destruct (state_energy_loaded_returns fuel nuc _ He) as [v Hv].
  change (state_energy nd (S (S fuel)) nuc s)
    with (match stdmap.find int_lt nuc (level_data s) with
          | Some r => Ret (level_struct.level r) s
          | None =>
              if stdmap.empty (level_data s) then
                bind (_load_level_data nd s) (fun _ s =>
                bind (state_energy nd (S fuel) nuc s) (fun _ s => Ret 0%float s))
              else Ret 0%float s
          end).
  rewrite Hs. cbn [stdmap.find stdmap.empty].
  unfold _load_level_data, open_nuc_data. rewrite Hok. cbn [bind].
  rewrite Hv. reflexivity.
Qed.

End Levels.

(** ** Repeated calls *)

Section Idempotence.
Context {NN : NucName}.
Variable nd : nuc_data.

Lemma find_some_not_empty {K V : Type} (lt : K -> K -> bool) k (m : list (K * V)) v :
  stdmap.find lt k m = Some v -> stdmap.empty m = false.
Proof. destruct m; [discriminate | reflexivity]. Qed.

(** Whatever [atomic_mass] returns is in the mass table under the key. *)
Lemma atomic_mass_memoizes fuel :
  forall nuc s v s',
    atomic_mass nd fuel nuc s = Ret v s' ->
    stdmap.find int_lt nuc (atomic_mass_map s') = Some v.
Proof.
  induction fuel as [|fuel IH]; intros nuc s v s' Hret; [discriminate|].
  cbn [atomic_mass] in Hret.
  destruct (stdmap.find int_lt nuc (atomic_mass_map s)) as [v0|] eqn:Hf.
  { inversion Hret; subst. exact Hf. }
  assert (Hguess : forall s0,
             (if 0 <? Z.rem (nucname_id nuc) 10000
              then bind (atomic_mass nd fuel (Z.quot (nucname_id nuc) 10000 * 10000) s0)
                     (fun aw s1 =>
                        Ret aw (set_atomic_mass_map
                                  (stdmap.insert int_lt nuc aw (atomic_mass_map s1)) s1))
              else Ret (double_of_int (Z.rem (Z.quot (nucname_id nuc) 10000) 1000))
                     (set_atomic_mass_map
                        (stdmap.insert int_lt nuc
                           (double_of_int (Z.rem (Z.quot (nucname_id nuc) 10000) 1000))
                           (atomic_mass_map s0)) s0))
             = Ret v s' ->
             stdmap.find int_lt nuc (atomic_mass_map s') = Some v).
  { intros s0 H. destruct (0 <? Z.rem (nucname_id nuc) 10000).
    - destruct (atomic_mass nd fuel _ s0); cbn [bind] in H; try discriminate.
      inversion H; subst. cbn [atomic_mass_map set_atomic_mass_map].
      apply find_insert_same.
    - inversion H; subst. cbn [atomic_mass_map set_atomic_mass_map].
      apply find_insert_same. }
  destruct (stdmap.empty (atomic_mass_map s)); [|exact (Hguess _ Hret)].
  unfold _load_atomic_mass_map, open_nuc_data in Hret.
  destruct (load_failure nd); cbn [bind try_catch] in Hret; [exact (Hguess _ Hret)|].
  destruct (atomic_mass nd fuel nuc _) eqn:Hrec; cbn [try_catch] in Hret;
    try discriminate.
  - inversion Hret; subst. exact (IH _ _ _ _ Hrec).
  - exact (Hguess _ Hret).
Qed.

(** X8: when [atomic_mass] returns a value, the next [atomic_mass] of
    the same nuclide returns that value and changes no table. *)
Lemma atomic_mass_idempotent fuel nuc s v s' :
  atomic_mass nd fuel nuc s = Ret v s' ->
  atomic_mass nd fuel nuc s' = Ret v s'.
Proof.
  intros Hret. pose proof (atomic_mass_memoizes _ _ _ _ _ Hret) as Hm.
  destruct fuel; [discriminate|]. apply atomic_mass_found. exact Hm.
Qed.

Lemma b_coherent_memoizes fuel :
  forall nuc s v s',
    b_coherent nd fuel nuc s = Ret v s' ->
    stdmap.find int_lt nuc (b_coherent_map s') = Some v.
Proof.
  induction fuel as [|fuel IH]; intros nuc s v s' Hret; [discriminate|].
  cbn [b_coherent] in Hret.
  destruct (stdmap.find int_lt nuc (b_coherent_map s)) as [v0|] eqn:Hf.
  { inversion Hret; subst. exact Hf. }
  destruct (stdmap.empty (b_coherent_map s)).
  - unfold _load_scattering_lengths, open_nuc_data in Hret.
    destruct (load_failure nd); [discriminate|]. exact (IH _ _ _ _ Hret).
  - destruct (scan_anum _ _) as [bc|]; [|destruct (scan_znum _ _) as [bc|]];
      inversion Hret; subst; cbn [b_coherent_map set_b_coherent_map];
      apply find_insert_same.
Qed.

Lemma b_coherent_idempotent fuel nuc s v s' :
  b_coherent nd fuel nuc s = Ret v s' ->
  b_coherent nd fuel nuc s' = Ret v s'.
Proof.
  intros Hret. pose proof (b_coherent_memoizes _ _ _ _ _ Hret) as Hm.
  destruct fuel; [discriminate|]. cbn [b_coherent]. rewrite Hm. reflexivity.
Qed.

Lemma b_incoherent_memoizes fuel :
  forall nuc s v s',
    b_incoherent nd fuel nuc s = Ret v s' ->
    stdmap.find int_lt nuc (b_incoherent_map s') = Some v.
Proof.
  induction fuel as [|fuel IH]; intros nuc s v s' Hret; [discriminate|].
  cbn [b_incoherent] in Hret.
  destruct (stdmap.find int_lt nuc (b_incoherent_map s)) as [v0|] eqn:Hf.
  { inversion Hret; subst. exact Hf. }
  destruct (stdmap.empty (b_incoherent_map s)).
  - unfold _load_scattering_lengths, open_nuc_data in Hret.
    destruct (load_failure nd); [discriminate|]. exact (IH _ _ _ _ Hret).
  - destruct (scan_anum _ _) as [bc|]; [|destruct (scan_znum _ _) as [bc|]];
      inversion Hret; subst; cbn [b_incoherent_map set_b_incoherent_map];
      apply find_insert_same.
Qed.

Lemma b_incoherent_idempotent fuel nuc s v s' :
  b_incoherent nd fuel nuc s = Ret v s' ->
  b_incoherent nd fuel nuc s' = Ret v s'.
Proof.
  intros Hret. pose proof (b_incoherent_memoizes _ _ _ _ _ Hret) as Hm.
  destruct fuel; [discriminate|]. cbn [b_incoherent]. rewrite Hm. reflexivity.
Qed.

Lemma decay_const_memoizes fuel :
  forall nuc s v s',
    decay_const nd fuel nuc s = Ret v s' ->
    stdmap.find int_lt nuc (decay_const_map s') = Some v.
Proof.
  induction fuel as [|fuel IH]; intros nuc s v s' Hret; [discriminate|].
  cbn [decay_const] in Hret.
  destruct (stdmap.find int_lt nuc (decay_const_map s)) as [v0|] eqn:Hf.
  { inversion Hret; subst. exact Hf. }
  destruct (stdmap.empty (decay_const_map s)).
  - unfold _load_half_life_decay, open_nuc_data in Hret.
    destruct (load_failure nd); [discriminate|]. exact (IH _ _ _ _ Hret).
  - inversion Hret; subst. cbn [decay_const_map set_decay_const_map].
    apply find_insert_same.
Qed.

(** X11: when [decay_const] returns a value, loaded or the 0.0
    fallback, the next [decay_const] of the same nuclide returns that
    value and changes no table. *)
Lemma decay_const_idempotent fuel nuc s v s' :
  decay_const nd fuel nuc s = Ret v s' ->
  decay_const nd fuel nuc s' = Ret v s'.
Proof.
  intros Hret. pose proof (decay_const_memoizes _ _ _ _ _ Hret) as Hm.
  destruct fuel; [discriminate|]. cbn [decay_const]. rewrite Hm. reflexivity.
Qed.

Lemma branch_ratio_memoizes fuel :
  forall from_to s v s',
    branch_ratio nd fuel from_to s = Ret v s' ->
    stdmap.find int_pair_lt from_to (branch_ratio_map s') = Some v.
Proof.
  induction fuel as [|fuel IH]; intros from_to s v s' Hret; [discriminate|].
  cbn [branch_ratio] in Hret.
  destruct (stdmap.find int_pair_lt from_to (branch_ratio_map s)) as [v0|] eqn:Hf.
  { inversion Hret; subst. exact Hf. }
  destruct (stdmap.empty (branch_ratio_map s)).
  - unfold _load_half_life_decay, open_nuc_data in Hret.
    destruct (load_failure nd); [discriminate|]. exact (IH _ _ _ _ Hret).
  - inversion Hret; subst. cbn [branch_ratio_map set_branch_ratio_map].
    apply find_insert_same_irrefl. apply int_pair_lt_irrefl.
Qed.

Lemma branch_ratio_idempotent fuel from_to s v s' :
  branch_ratio nd fuel from_to s = Ret v s' ->
  branch_ratio nd fuel from_to s' = Ret v s'.
Proof.
  intros Hret. pose proof (branch_ratio_memoizes _ _ _ _ _ Hret) as Hm.
  destruct fuel; [discriminate|]. cbn [branch_ratio]. rewrite Hm. reflexivity.
Qed.

(** [half_life] stores nothing, but what it returns is what the table
    it leaves behind says. *)
Lemma half_life_reads_table fuel :
  forall nuc s v s',
    half_life nd fuel nuc s = Ret v s' ->
    stdmap.empty (level_data s') = false /\
    v = match stdmap.find int_lt nuc (level_data s') with
        | Some r => level_struct.half_life r
        | None => 0%float
        end.
Proof.
  induction fuel as [|fuel IH]; intros nuc s v s' Hret; [discriminate|].
  cbn [half_life] in Hret.
  destruct (stdmap.find int_lt nuc (level_data s)) as [r|] eqn:Hf.
  { inversion Hret; subst. rewrite Hf.
    split; [exact (find_some_not_empty _ _ _ _ Hf) | reflexivity]. }
  destruct (stdmap.empty (level_data s)) eqn:He.
  - unfold _load_level_data, open_nuc_data in Hret.
    destruct (load_failure nd); [discriminate|]. exact (IH _ _ _ _ Hret).
  - inversion Hret; subst. rewrite Hf. split; [exact He | reflexivity].
Qed.

(** X12: when [half_life] returns a value, the next [half_life] of the
    same nuclide returns that value and changes no table, although
    [half_life] stores nothing of its own. *)
Lemma half_life_idempotent fuel nuc s v s' :
  half_life nd fuel nuc s = Ret v s' ->
  half_life nd fuel nuc s' = Ret v s'.
Proof.
  intros Hret. destruct (half_life_reads_table _ _ _ _ _ Hret) as [He Hv].
  destruct fuel; [discriminate|]. cbn [half_life].
  destruct (stdmap.find int_lt nuc (level_data s')); subst v; [reflexivity|].
  rewrite He. reflexivity.
Qed.

(** After [fpyield] returns, the lookup that opens it finds the value,
    or the call fell back to 0.0 for a [source] other than 0 and would
    fall back again. *)
Lemma fpyield_settles fuel :
  forall from_to source get_error s v s',
    fpyield nd fuel from_to source get_error s = Ret v s' ->
    fpyield_lookup from_to source get_error s' = Some v \/
    (fpyield_lookup from_to source get_error s' = None /\
     (source =? 0) = false /\
     stdmap.empty (ndsfpy_data s') = false /\ v = 0%float).
Proof.
  induction fuel as [|fuel IH]; intros from_to source get_error s v s' Hret;
    [discriminate|].
  cbn [fpyield] in Hret.
  destruct (fpyield_lookup from_to source get_error s) as [v0|] eqn:Hl.
  { inversion Hret; subst. left. exact Hl. }
  destruct (source =? 0) eqn:Hsrc.
  - destruct (stdmap.empty (wimsdfpy_data s)); cbn [andb] in Hret.
    + unfold _load_wimsdfpy, open_nuc_data in Hret.
      destruct (load_failure nd); [discriminate|]. cbn [bind] in Hret.
      apply Z.eqb_eq in Hsrc. subst source.
      destruct (IH _ _ _ _ _ _ Hret) as [H | (_ & H2 & _)];
        [left; exact H | discriminate H2].
    + destruct (stdmap.empty (ndsfpy_data s)).
      * unfold _load_ndsfpy, open_nuc_data in Hret.
        destruct (load_failure nd); [discriminate|]. cbn [bind] in Hret.
        destruct (IH _ _ _ _ _ _ Hret) as [H | (_ & H2 & _)];
          [left; exact H | congruence].
      * inversion Hret; subst. left. unfold fpyield_lookup. rewrite Hsrc.
        cbn [wimsdfpy_data set_wimsdfpy_data].
        apply find_insert_same_irrefl. apply int_pair_lt_irrefl.
  - cbn [andb] in Hret. destruct (stdmap.empty (ndsfpy_data s)) eqn:He.
    + unfold _load_ndsfpy, open_nuc_data in Hret.
      destruct (load_failure nd); [discriminate|]. cbn [bind] in Hret.
      destruct (IH _ _ _ _ _ _ Hret) as [H | (H1 & _ & H3 & H4)];
        [left; exact H | right; repeat split; assumption].
    + inversion Hret; subst. right.
      split; [|split; [reflexivity | split; [exact He | reflexivity]]].
      unfold fpyield_lookup in *. rewrite Hsrc in *. exact Hl.
Qed.

(** X13: when [fpyield] returns a value, the next [fpyield] with the
    same pair, source and error flag returns that value. *)
Lemma fpyield_idempotent fuel from_to source get_error s v s' :
  fpyield nd fuel from_to source get_error s = Ret v s' ->
  exists s'', fpyield nd fuel from_to source get_error s' = Ret v s''.
Proof.
  intros Hret.
  destruct (fpyield_settles _ _ _ _ _ _ _ Hret) as [Hl | (Hl & Hsrc & He & ->)];
    (destruct fuel; [discriminate|]); cbn [fpyield]; rewrite Hl.
  - eexists. reflexivity.
  - rewrite Hsrc, He. cbn [andb]. eexists. reflexivity.
Qed.

End Idempotence.

(** ** Repeated calls: [b] and [natural_abund] *)

Section IdempotenceScattering.
Context {NN : NucName}.
Variable nd : nuc_data.

Lemma scattering_rows_tables rows s :
  b_coherent_map (fold_left scattering_lengths_row rows s)
  = fold_left (fun m r => stdmap.insert int_lt (scattering_lengths_struct.nuc r)
                            (scattering_lengths_struct.b_coherent r) m)
      rows (b_coherent_map s) /\
  b_incoherent_map (fold_left scattering_lengths_row rows s)
  = fold_left (fun m r => stdmap.insert int_lt (scattering_lengths_struct.nuc r)
                            (scattering_lengths_struct.b_incoherent r) m)
      rows (b_incoherent_map s) /\
  b_map (fold_left scattering_lengths_row rows s) = b_map s.
Proof.
  revert s. induction rows as [|r rows IH]; intros s; [repeat split|].
  cbn [fold_left]. destruct (IH (scattering_lengths_row s r)) as (H1 & H2 & H3).
  rewrite H1, H2, H3. repeat split.
Qed.

Lemma scattering_rows_paired rows s :
  scattering_tables_paired s ->
  scattering_tables_paired (fold_left scattering_lengths_row rows s).
Proof.
  unfold scattering_tables_paired. intros Hp.
  destruct (scattering_rows_tables rows s) as (H1 & H2 & _). rewrite H1, H2.
  destruct rows as [|r rows]; [exact Hp|]. intros _.
  apply fold_insert_not_empty. left. discriminate.
Qed.

Lemma b_coherent_frame fuel :
  forall nuc s bc s1,
    scattering_tables_paired s ->
    b_coherent nd fuel nuc s = Ret bc s1 ->
    b_map s1 = b_map s /\ stdmap.empty (b_incoherent_map s1) = false.
Proof.
  induction fuel as [|fuel IH]; intros nuc s bc s1 Hp Hret; [discriminate|].
  cbn [b_coherent] in Hret.
  destruct (stdmap.find int_lt nuc (b_coherent_map s)) as [v0|] eqn:Hf.
  { inversion Hret; subst. split; [reflexivity|].
    apply Hp. exact (find_some_not_empty _ _ _ _ Hf). }
  destruct (stdmap.empty (b_coherent_map s)) eqn:He.
  - unfold _load_scattering_lengths, open_nuc_data in Hret.
    destruct (load_failure nd); [discriminate|]. cbn [bind] in Hret.
    destruct (IH _ _ _ _ (scattering_rows_paired _ _ Hp) Hret) as [Hb Hi].
    split; [|exact Hi]. rewrite Hb.
    apply (scattering_rows_tables (tbl_scattering_lengths nd) s).
  - destruct (scan_anum _ _) as [x|]; [|destruct (scan_znum _ _) as [x|]];
      inversion Hret; subst; (split; [reflexivity | exact (Hp He)]).
Qed.

Lemma b_incoherent_frame fuel nuc s bi s2 :
  stdmap.empty (b_incoherent_map s) = false ->
  b_incoherent nd fuel nuc s = Ret bi s2 ->
  b_map s2 = b_map s /\ b_coherent_map s2 = b_coherent_map s.
Proof.
  intros He Hret. destruct fuel; [discriminate|]. cbn [b_incoherent] in Hret.
  destruct (stdmap.find int_lt nuc (b_incoherent_map s)) as [v0|].
  { inversion Hret; subst. split; reflexivity. }
  rewrite He in Hret.
  destruct (scan_anum _ _) as [x|]; [|destruct (scan_znum _ _) as [x|]];
    inversion Hret; subst; split; reflexivity.
Qed.

(** X10: [b] is recomputed from the two scattering tables on every
    call; when the tables are paired (the incoherent table holds
    something whenever the coherent one does) and [b] returns a value, the
    next [b] of the same nuclide returns that value and changes no
    table. *)
Lemma b_idempotent fuel nuc s v s' :
  scattering_tables_paired s ->
  b nd fuel nuc s = Ret v s' ->
  b nd fuel nuc s' = Ret v s'.
Proof.
  intros Hp Hret. unfold b in *.
  destruct (stdmap.find int_lt nuc (b_map s)) as [v0|] eqn:Hb.
  { inversion Hret; subst. rewrite Hb. reflexivity. }
  destruct (b_coherent nd fuel nuc s) as [bc s1| | |] eqn:Hc;
    cbn [bind] in Hret; try discriminate.
  destruct (b_incoherent nd fuel nuc s1) as [bi s2| | |] eqn:Hi;
    cbn [bind] in Hret; try discriminate.
  inversion Hret; subst v s'. clear Hret.
  destruct (b_coherent_frame _ _ _ _ _ Hp Hc) as [Hb1 He1].
  destruct (b_incoherent_frame _ _ _ _ _ He1 Hi) as [Hb2 Hc2].
  pose proof (b_coherent_memoizes nd _ _ _ _ _ Hc) as Hmc.
  pose proof (b_incoherent_memoizes nd _ _ _ _ _ Hi) as Hmi.
  rewrite Hb2, Hb1, Hb.
  assert (Hc' : b_coherent nd fuel nuc s2 = Ret bc s2).
  { destruct fuel; [discriminate|]. cbn [b_coherent]. rewrite Hc2, Hmc. reflexivity. }
  rewrite Hc'. cbn [bind].
  rewrite (b_incoherent_idempotent nd _ _ _ _ _ Hi). reflexivity.
Qed.

End IdempotenceScattering.

Section IdempotenceAbundance.
Context {NN : NucName}.
Variable nd : nuc_data.

(** The name service gives every ground-state ID a zero state field. *)
Hypothesis ground_is_ground :
  forall nuc, Z.rem (nucname_id (ground_state_of nuc)) 10000 <= 0.

Lemma natural_abund_never_throws fuel :
  forall nuc s e s', natural_abund nd fuel nuc s <> Throw e s'.
Proof.
  induction fuel as [|fuel IH]; intros nuc s e s'; [discriminate|].
  cbn [natural_abund].
  destruct (stdmap.find int_lt nuc (natural_abund_map s)); [discriminate|].
  assert (Hguess : forall s0,
             (if 0 <? Z.rem (nucname_id nuc) 10000
              then bind (natural_abund nd fuel (Z.quot (nucname_id nuc) 10000 * 10000) s0)
                     (fun na s1 =>
                        Ret na (set_atomic_mass_map
                                  (stdmap.insert int_lt nuc na (atomic_mass_map s1)) s1))
              else Ret 0%float
                     (set_natural_abund_map
                        (stdmap.insert int_lt nuc 0%float (natural_abund_map s0)) s0))
             <> Throw e s').
  { intros s0. destruct (0 <? Z.rem (nucname_id nuc) 10000); [|discriminate].
    destruct (natural_abund nd fuel _ s0) eqn:Hrec; cbn [bind]; try discriminate.
    exfalso. exact (IH _ _ _ _ Hrec). }
  destruct (stdmap.empty (natural_abund_map s)); [|apply Hguess].
  unfold _load_atomic_mass_map, open_nuc_data.
  destruct (load_failure nd); cbn [bind try_catch]; [apply Hguess|].
  destruct (natural_abund nd fuel nuc _) eqn:Hrec; cbn [try_catch];
    try discriminate. apply Hguess.
Qed.

(** A call on an ID with a zero state field stores what it returns in
    the abundance table. *)
Lemma natural_abund_ground_memoizes fuel :
  forall g s v s',
    Z.rem (nucname_id g) 10000 <= 0 ->
    natural_abund nd fuel g s = Ret v s' ->
    stdmap.find int_lt g (natural_abund_map s') = Some v.
Proof.
  induction fuel as [|fuel IH]; intros g s v s' Hg Hret; [discriminate|].
  cbn [natural_abund] in Hret.
  destruct (stdmap.find int_lt g (natural_abund_map s)) as [v0|] eqn:Hf.
  { inversion Hret; subst. exact Hf. }
  destruct (Z.ltb_spec 0 (Z.rem (nucname_id g) 10000)) as [Hx|_]; [lia|].
  assert (Hguess : forall s0,
             Ret 0%float
               (set_natural_abund_map
                  (stdmap.insert int_lt g 0%float (natural_abund_map s0)) s0)
             = Ret v s' ->
             stdmap.find int_lt g (natural_abund_map s') = Some v).
  { intros s0 H. inversion H; subst.
    cbn [natural_abund_map set_natural_abund_map]. apply find_insert_same. }
  destruct (stdmap.empty (natural_abund_map s)); [|exact (Hguess _ Hret)].
  unfold _load_atomic_mass_map, open_nuc_data in Hret.
  destruct (load_failure nd); cbn [bind try_catch] in Hret; [exact (Hguess _ Hret)|].
  destruct (natural_abund nd fuel g _) eqn:Hrec; cbn [try_catch] in Hret;
    try discriminate.
  - inversion Hret; subst. exact (IH _ _ _ _ Hg Hrec).
  - exact (Hguess _ Hret).
Qed.

(** A call on an ID with a zero state field, made when no load can
    succeed any more, touches no other key of the abundance table. *)
Lemma natural_abund_ground_frame fuel g s v s1 :
  Z.rem (nucname_id g) 10000 <= 0 ->
  stdmap.empty (natural_abund_map s) = false \/ load_failure nd <> None ->
  natural_abund nd fuel g s = Ret v s1 ->
  forall k, k <> g ->
    stdmap.find int_lt k (natural_abund_map s1)
    = stdmap.find int_lt k (natural_abund_map s).
Proof.
  intros Hg Hnoload Hret k Hk. destruct fuel; [discriminate|].
  cbn [natural_abund] in Hret.
  destruct (stdmap.find int_lt g (natural_abund_map s)) as [v0|].
  { inversion Hret; subst. reflexivity. }
  destruct (Z.ltb_spec 0 (Z.rem (nucname_id g) 10000)) as [Hx|_]; [lia|].
  destruct (stdmap.empty (natural_abund_map s)) eqn:He.
  - destruct Hnoload as [Hne | Hfail]; [discriminate|].
    unfold _load_atomic_mass_map, open_nuc_data in Hret.
    destruct (load_failure nd); [|contradiction]. cbn [bind try_catch] in Hret.
    inversion Hret; subst. cbn [natural_abund_map set_natural_abund_map].
    apply find_insert_other. congruence.
  - inversion Hret; subst. cbn [natural_abund_map set_natural_abund_map].
    apply find_insert_other. congruence.
Qed.

(** After [natural_abund] returns, the table it leaves holds the value
    under the ID, or the ID is an excited state and the table holds the
    value under its ground state. *)
Lemma natural_abund_settles fuel :
  forall nuc s v s',
    natural_abund nd fuel nuc s = Ret v s' ->
    stdmap.find int_lt nuc (natural_abund_map s') = Some v \/
    (0 < Z.rem (nucname_id nuc) 10000 /\
     stdmap.find int_lt nuc (natural_abund_map s') = None /\
     stdmap.find int_lt (ground_state_of nuc) (natural_abund_map s') = Some v /\
     exists fuel', fuel = S (S fuel')).
Proof.
  induction fuel as [|fuel IH]; intros nuc s v s' Hret; [discriminate|].
  cbn [natural_abund] in Hret.
  destruct (stdmap.find int_lt nuc (natural_abund_map s)) as [v0|] eqn:Hf.
  { inversion Hret; subst. left. exact Hf. }
  assert (Hguess :
            stdmap.empty (natural_abund_map s) = false \/ load_failure nd <> None ->
            (if 0 <? Z.rem (nucname_id nuc) 10000
             then bind (natural_abund nd fuel (Z.quot (nucname_id nuc) 10000 * 10000) s)
                    (fun na s1 =>
                       Ret na (set_atomic_mass_map
                                 (stdmap.insert int_lt nuc na (atomic_mass_map s1)) s1))
             else Ret 0%float
                    (set_natural_abund_map
                       (stdmap.insert int_lt nuc 0%float (natural_abund_map s)) s))
            = Ret v s' ->
            stdmap.find int_lt nuc (natural_abund_map s') = Some v \/
            (0 < Z.rem (nucname_id nuc) 10000 /\
             stdmap.find int_lt nuc (natural_abund_map s') = None /\
             stdmap.find int_lt (ground_state_of nuc) (natural_abund_map s') = Some v /\
             exists fuel', S fuel = S (S fuel'))).
  { intros Hnoload H.
    destruct (Z.ltb_spec 0 (Z.rem (nucname_id nuc) 10000)) as [Hx|Hx].
    - fold (ground_state_of nuc) in H.
      destruct (natural_abund nd fuel (ground_state_of nuc) s) as [na s1| | |] eqn:Hin;
        cbn [bind] in H; try discriminate.
      inversion H; subst v s'. clear H.
      cbn [natural_abund_map set_atomic_mass_map].
      pose proof (ground_is_ground nuc) as Hg.
      assert (Hne : nuc <> ground_state_of nuc) by (intros E; rewrite <- E in Hg; lia).
      right. split; [exact Hx|]. split; [|split].
      + rewrite (natural_abund_ground_frame _ _ _ _ _ Hg Hnoload Hin nuc Hne).
        exact Hf.
      + exact (natural_abund_ground_memoizes _ _ _ _ _ Hg Hin).
      + destruct fuel; [discriminate Hin|]. exists fuel. reflexivity.
    - inversion H; subst. left. cbn [natural_abund_map set_natural_abund_map].
      apply find_insert_same. }
  destruct (stdmap.empty (natural_abund_map s)) eqn:He;
    [|apply Hguess; [left; reflexivity | exact Hret]].
  unfold _load_atomic_mass_map, open_nuc_data in Hret.
  destruct (load_failure nd) as [e|] eqn:Hl; cbn [bind try_catch] in Hret.
  - apply Hguess; [right; discriminate | exact Hret].
  - destruct (natural_abund nd fuel nuc _) eqn:Hrec; cbn [try_catch] in Hret;
      try discriminate.
    + inversion Hret; subst.
      destruct (IH _ _ _ _ Hrec) as [H | (H1 & H2 & H3 & f' & ->)];
        [left; exact H|].
      right. split; [exact H1|]. split; [exact H2|]. split; [exact H3|].
      eexists. reflexivity.
    + exfalso. exact (natural_abund_never_throws _ _ _ _ _ Hrec).
Qed.

(** X9: for a name service that gives every ground-state ID a zero
    state field: when [natural_abund] returns a value, the next
    [natural_abund] of the same nuclide returns that value, also for an
    excited state, whose value is not stored in the abundance table. *)
Lemma natural_abund_idempotent fuel nuc s v s' :
  natural_abund nd fuel nuc s = Ret v s' ->
  exists s'', natural_abund nd fuel nuc s' = Ret v s''.
Proof.
  intros Hret.
  destruct (natural_abund_settles _ _ _ _ _ Hret)
    as [Hm | (Hx & Hn & Hg & fuel' & ->)].
  - destruct fuel; [discriminate|]. exists s'. apply natural_abund_found. exact Hm.
  - rewrite (natural_abund_excited_guess nd (S fuel') nuc s' Hn
               (find_some_not_empty _ _ _ _ Hg) Hx).
    rewrite (natural_abund_found nd fuel' _ s' v Hg). cbn [bind].
    eexists. reflexivity.
Qed.

End IdempotenceAbundance.

(** C2: the claim fails on [state_energy].  With the U-235 levels in the
    dataset and nothing loaded yet, the first [state_energy(922350001)]
    returns 0.0 and the next one returns the level energy 0.0765: the
    recursive call after the load is made without [return]. *)
Theorem state_energy_second_call_differs :
  forall fuel,
    exists s1,
      state_energy uranium_level_nuc_data (S (S fuel)) 922350001 init_caches
      = Ret 0%float s1 /\
      state_energy uranium_level_nuc_data (S (S fuel)) 922350001 s1
      = Ret 0.0765%float s1 /\
      0%float <> 0.0765%float.
Proof.
  intros fuel. eexists. split; [|split].
  - apply state_energy_first_call_zero; [reflexivity | reflexivity | discriminate].
  - apply (state_energy_found uranium_level_nuc_data (S fuel) 922350001 _
             (level_struct.mk 922350001 0.0765%float 1560%float 1)).
    vm_compute. reflexivity.
  - intros E. apply (f_equal (PrimFloat.eqb 0%float)) in E. vm_compute in E.
    discriminate.
Qed.

(** The sibling [half_life], which does [return half_life(nuc)], gives the
    same answer on both calls. *)
Example half_life_both_calls_agree :
  exists s1,
    half_life uranium_level_nuc_data 2 922350001 init_caches = Ret 1560%float s1 /\
    half_life uranium_level_nuc_data 2 922350001 s1 = Ret 1560%float s1.
Proof.
  exists (fold_left level_row (tbl_level_list uranium_level_nuc_data) init_caches).
  split; vm_compute; reflexivity.
Qed.

(** C4: the claim fails on the ground-state prefix.  [metastable_id]
    zeroes three digits, [(nuc/1000)*1000], of the four-digit state field:
    for the U-235 level 922351000 it scans the block from 922351000 to
    922360999 and returns the U-236 isomer 922360002, where the block of
    the ground state 922350000 holds the first isomer 922350001. *)
Theorem metastable_id_wrong_block :
  exists s1,
    metastable_id uranium_level_nuc_data 922351000 1 init_caches
    = Ret 922360002 s1 /\
    metastable_id_spec 922351000 1 (level_data s1) = 922350001.
Proof.
  exists (fold_left level_row (tbl_level_list uranium_level_nuc_data) init_caches).
  split; vm_compute; reflexivity.
Qed.

(** For a state field below 1000 the two prefixes coincide. *)
Lemma nostate_is_ground_below_1000 (nuc : Z) :
  0 <= nuc -> Z.rem nuc 10000 < 1000 ->
  Z.quot nuc 1000 * 1000 = Z.quot nuc 10000 * 10000.
Proof.
  intros Hpos Hst.
  rewrite Z.rem_mod_nonneg in Hst by lia.
  rewrite !Z.quot_div_nonneg by lia.
  pose proof (Z.div_mod nuc 10000 ltac:(lia)) as Hd.
  pose proof (Z.mod_pos_bound nuc 10000 ltac:(lia)) as Hb.
  assert (Hq : nuc / 1000 = 10 * (nuc / 10000)).
  { symmetry. apply (Z.div_unique nuc 1000 (10 * (nuc / 10000)) (nuc mod 10000)); lia. }
  rewrite Hq. lia.
Qed.

(** There the block scanned is the block of the ground state. *)
Example metastable_id_low_state :
  exists s1,
    metastable_id uranium_level_nuc_data 922350000 1 init_caches
    = Ret 922350001 s1 /\
    metastable_id_spec 922350000 1 (level_data s1) = 922350001.
Proof.
  exists (fold_left level_row (tbl_level_list uranium_level_nuc_data) init_caches).
  split; vm_compute; reflexivity.
Qed.

(** ** Gamma lines *)

Section GammaRange.
Variable int_of_DBL_MAX : Z.

Lemma data_access_parent_energy_load {T U : Type}
  (load : caches -> outcome unit) (data : caches -> list ((Z * double) * U))
  (fuel : nat) (parent : Z) (valoffset : U -> T) (s s1 : caches) :
  data s = [] ->
  load s = Ret tt s1 ->
  data_access_parent_energy int_of_DBL_MAX load data (S fuel) parent valoffset s
  = data_access_parent_energy int_of_DBL_MAX load data fuel parent valoffset s1.
Proof.
  intros Hs Hload. cbn [data_access_parent_energy]. rewrite Hs.
  cbn [stdmap.lower_bound stdmap.upper_bound stdmap.iterate List.length Nat.eqb
       stdmap.empty].
  rewrite Hload. reflexivity.
Qed.

Lemma data_access_parent_energy_loaded {T U : Type}
  (load : caches -> outcome unit) (data : caches -> list ((Z * double) * U))
  (fuel : nat) (parent : Z) (valoffset : U -> T) (s : caches)
  (visited : list ((Z * double) * U)) :
  stdmap.empty (data s) = false ->
  stdmap.lower_bound int_double_lt (0, double_of_int parent) (data s)
  = visited
    ++ stdmap.upper_bound int_double_lt
         (int_of_DBL_MAX, double_of_int parent) (data s) ->
  data_access_parent_energy int_of_DBL_MAX load data (S fuel) parent valoffset s
  = Ret (push_visited valoffset
           (stdmap.lower_bound int_double_lt (0, double_of_int parent) (data s))
           visited) s.
Proof.
  intros He Hsplit. cbn [data_access_parent_energy]. rewrite He.
  rewrite Hsplit at 1. rewrite iterate_app. reflexivity.
Qed.

(** Where the range of Co-60 ends, for each value the conversion of
    [DBL_MAX] may have. *)
Lemma co60_upper_bound :
  stdmap.upper_bound int_double_lt
    (int_of_DBL_MAX, double_of_int 270600000) (gamma_data co60_gamma_caches)
  = if int_of_DBL_MAX <? 270600000 then gamma_data co60_gamma_caches else [].
Proof.
  assert (Ht : gamma_data co60_gamma_caches
               = [((270600000, 1173.25%float),
                   gamma_line 270600000 1173.25%float 0.5%float);
                  ((270600000, 1332.5%float),
                   gamma_line 270600000 1332.5%float 0.25%float)])
    by (vm_compute; reflexivity).
  rewrite Ht. cbn [stdmap.upper_bound]. unfold int_double_lt, pair_lt. cbn [fst snd].
  change (PrimFloat.ltb (double_of_int 270600000) 1173.25%float) with false.
  change (PrimFloat.ltb (double_of_int 270600000) 1332.5%float) with false.
  rewrite !andb_false_r, !orb_false_r.
  destruct (int_of_DBL_MAX <? 270600000); reflexivity.
Qed.

Lemma co60_data_access_loaded {T : Type} (valoffset : gamma_struct.t -> T)
  (fuel : nat) :
  data_access_parent_energy int_of_DBL_MAX (_load_gamma_data co60_nuc_data)
    gamma_data (S fuel) 270600000 valoffset co60_gamma_caches
  = Ret (if int_of_DBL_MAX <? 270600000 then []
         else [valoffset (gamma_line 270600000 1173.25%float 0.5%float);
               valoffset (gamma_line 270600000 1173.25%float 0.5%float)])
      co60_gamma_caches.
Proof.
  assert (Hlo : stdmap.lower_bound int_double_lt (0, double_of_int 270600000)
                  (gamma_data co60_gamma_caches)
                = gamma_data co60_gamma_caches) by (vm_compute; reflexivity).
  rewrite (data_access_parent_energy_loaded _ _ _ _ _ co60_gamma_caches
             (if int_of_DBL_MAX <? 270600000 then []
              else gamma_data co60_gamma_caches)).
  - rewrite Hlo. destruct (int_of_DBL_MAX <? 270600000); reflexivity.
  - reflexivity.
  - rewrite Hlo, co60_upper_bound.
    destruct (int_of_DBL_MAX <? 270600000); [reflexivity | symmetry; apply app_nil_r].
Qed.

Lemma co60_data_access {T : Type} (valoffset : gamma_struct.t -> T) (fuel : nat) :
  data_access_parent_energy int_of_DBL_MAX (_load_gamma_data co60_nuc_data)
    gamma_data (S (S fuel)) 270600000 valoffset init_caches
  = Ret (if int_of_DBL_MAX <? 270600000 then []
         else [valoffset (gamma_line 270600000 1173.25%float 0.5%float);
               valoffset (gamma_line 270600000 1173.25%float 0.5%float)])
      co60_gamma_caches.
Proof.
  rewrite (data_access_parent_energy_load _ _ _ _ _ init_caches co60_gamma_caches)
    by reflexivity.
  apply co60_data_access_loaded.
Qed.

End GammaRange.

(** C1: the claim fails on the Co-60 lines.  The two records are loaded
    under the parent's key and the documented answer lists both; the
    range query starts at key (0, parent), ends at key ((int) DBL_MAX,
    parent) and reads every value through the iterator at the start of
    the range: the answer is empty, or the first line twice. *)
Theorem gamma_energy_repeats_first_line :
  forall (int_of_DBL_MAX : Z) (fuel : nat),
    exists got,
      gamma_energy co60_nuc_data int_of_DBL_MAX (S (S fuel)) 270600000 init_caches
      = Ret got co60_gamma_caches /\
      (got = [] \/
       got = [(1173.25%float, 0.5%float); (1173.25%float, 0.5%float)]) /\
      gamma_energy_spec 270600000 (gamma_data co60_gamma_caches)
      = [(1173.25%float, 0.5%float); (1332.5%float, 0.25%float)].
Proof.
  intros c fuel. unfold gamma_energy.
  rewrite co60_data_access. cbn [bind].
  rewrite co60_data_access_loaded. cbn [bind].
  destruct (c <? 270600000).
  - exists []. split; [reflexivity|]. split; [left; reflexivity|].
    vm_compute. reflexivity.
  - eexists. split; [reflexivity|]. split; [right; reflexivity|].
    vm_compute. reflexivity.
Qed.

(** The two values compilers give to [(int) DBL_MAX] on x86-64: the
    indefinite integer at run time, saturation when folded. *)
Example gamma_energy_int_min :
  gamma_energy co60_nuc_data (-2147483648) 2 270600000 init_caches
  = Ret [] co60_gamma_caches.
Proof. vm_compute. reflexivity. Qed.

Example gamma_energy_int_max :
  gamma_energy co60_nuc_data 2147483647 2 270600000 init_caches
  = Ret [(1173.25%float, 0.5%float); (1173.25%float, 0.5%float)] co60_gamma_caches.
Proof. vm_compute. reflexivity. Qed.

(** ** Well-formed tables, unbounded recursion, and the documented scenario *)

Section Invariants.
Context {NN : NucName}.
Variable nd : nuc_data.

(** The scattering-length table stays a well-formed map: the loader and
    the memoising fallback only ever assign through [operator[]]. *)
Lemma scattering_rows_ascending rows s :
  ascending (b_coherent_map s) ->
  ascending (b_coherent_map (fold_left scattering_lengths_row rows s)).
Proof.
  revert s. induction rows as [|r rows IH]; intros s Hasc; [exact Hasc|].
  cbn [fold_left]. apply IH. unfold scattering_lengths_row.
  cbn [b_coherent_map set_b_coherent_map set_b_incoherent_map].
  apply insert_ascending. exact Hasc.
Qed.

Lemma b_coherent_keeps_ascending fuel :
  forall nuc s v s',
    ascending (b_coherent_map s) ->
    b_coherent nd fuel nuc s = Ret v s' ->
    ascending (b_coherent_map s').
Proof.
  induction fuel as [|fuel IH]; intros nuc s v s' Hasc Hret; [discriminate|].
  cbn [b_coherent] in Hret.
  destruct (stdmap.find int_lt nuc (b_coherent_map s)) as [v0|].
  - inversion Hret; subst. exact Hasc.
  - destruct (stdmap.empty (b_coherent_map s)).
    + unfold _load_scattering_lengths, open_nuc_data in Hret.
      destruct (load_failure nd); [discriminate|]. cbn [bind] in Hret.
      apply (IH _ _ _ _ (scattering_rows_ascending _ _ Hasc) Hret).
    + destruct (scan_anum _ _) as [bc|];
        [|destruct (scan_znum _ _) as [bc|]];
        inversion Hret; subst;
        cbn [b_coherent_map set_b_coherent_map]; apply insert_ascending; exact Hasc.
Qed.

(** X2: a dataset that opens but has no mass rows leaves the mass table
    empty, and [atomic_mass] loads and asks again without end: no
    recursion budget is enough for it to return. *)
Lemma atomic_mass_no_rows_never_returns fuel :
  forall nuc s,
    load_failure nd = None ->
    tbl_atomic_mass nd = [] ->
    atomic_mass_map s = [] ->
    atomic_mass nd fuel nuc s = OutOfFuel.
Proof.
  induction fuel as [|fuel IH]; intros nuc s Hok Hrows Hs; [reflexivity|].
  cbn [atomic_mass]. rewrite Hs. cbn [stdmap.find stdmap.empty].
  rewrite (load_atomic_mass_map_ok nd s Hok), Hrows. cbn [fold_left bind].
  rewrite (IH nuc s Hok Hrows Hs). reflexivity.
Qed.

(** [atomic_mass] never throws, whatever the dataset. *)
Lemma atomic_mass_never_throws fuel :
  forall nuc s e s', atomic_mass nd fuel nuc s <> Throw e s'.
Proof.
  induction fuel as [|fuel IH]; intros nuc s e s'; [discriminate|].
  cbn [atomic_mass].
  destruct (stdmap.find int_lt nuc (atomic_mass_map s)); [discriminate|].
  assert (Hguess : forall s0,
             (if 0 <? Z.rem (nucname_id nuc) 10000
              then bind (atomic_mass nd fuel (Z.quot (nucname_id nuc) 10000 * 10000) s0)
                     (fun aw s1 =>
                        Ret aw (set_atomic_mass_map
                                  (stdmap.insert int_lt nuc aw (atomic_mass_map s1)) s1))
              else Ret (double_of_int (Z.rem (Z.quot (nucname_id nuc) 10000) 1000))
                     (set_atomic_mass_map
                        (stdmap.insert int_lt nuc
                           (double_of_int (Z.rem (Z.quot (nucname_id nuc) 10000) 1000))
                           (atomic_mass_map s0)) s0))
             <> Throw e s').
  { intros s0. destruct (0 <? Z.rem (nucname_id nuc) 10000); [|discriminate].
    destruct (atomic_mass nd fuel _ s0) eqn:Hrec; cbn [bind]; try discriminate.
    exfalso. exact (IH _ _ _ _ Hrec). }
  destruct (stdmap.empty (atomic_mass_map s)); [|apply Hguess].
  unfold _load_atomic_mass_map, open_nuc_data.
  destruct (load_failure nd); cbn [bind try_catch]; [apply Hguess|].
  destruct (atomic_mass nd fuel nuc _) eqn:Hrec; cbn [try_catch];
    try discriminate. apply Hguess.
Qed.

End Invariants.

(** The scenario of the documentation: one mass row for U-235. *)
Example u235_end_to_end :
  exists s1 s2 s3,
    atomic_mass (NN := canonical_nucname) u235_nuc_data 2 922350000 init_caches
    = Ret 235.0439299%float s1 /\
    natural_abund (NN := canonical_nucname) u235_nuc_data 2 922350000 s1
    = Ret 0.0072%float s2 /\
    atomic_mass (NN := canonical_nucname) u235_nuc_data 2 922350001 s2
    = Ret 235.0439299%float s3 /\
    stdmap.find int_lt 922350001 (atomic_mass_map s3) = Some 235.0439299%float.
Proof.
  exists (fold_left atomic_mass_row (tbl_atomic_mass u235_nuc_data) init_caches).
  exists (fold_left atomic_mass_row (tbl_atomic_mass u235_nuc_data) init_caches).
  eexists. split; [vm_compute; reflexivity|]. split; [vm_compute; reflexivity|].
  split; [vm_compute; reflexivity|]. vm_compute. reflexivity.
Qed.

(** ** Where the slips bite *)

Section RangeSlips.
Context {K U T : Type}.
Implicit Types (nuc_iter visited : list (K * U)).

(** A range loop that reads through [nuc_iter] pushes one value over and
    over: the answer never lists two different values. *)
Lemma push_visited_constant (valoffset : U -> T) nuc_iter visited x y :
  In x (push_visited valoffset nuc_iter visited) ->
  In y (push_visited valoffset nuc_iter visited) ->
  x = y.
Proof.
  unfold push_visited. destruct nuc_iter as [|kv nuc_iter].
  - intros Hx. exfalso. induction visited as [|z visited IH]; [exact Hx|].
    cbn [flat_map app] in Hx. exact (IH Hx).
  - assert (Hall : forall z, In z (flat_map (fun _ : K * U => [valoffset (snd kv)])
                                     visited) -> z = valoffset (snd kv)).
    { intros z. induction visited as [|w visited IH]; cbn [flat_map app In];
        [intros [] | intros [E | Hz]; [symmetry; exact E | exact (IH Hz)]]. }
    intros Hx Hy. rewrite (Hall x Hx), (Hall y Hy). reflexivity.
Qed.

End RangeSlips.

Lemma data_access_parent_energy_constant {T U : Type} (int_of_DBL_MAX : Z)
  (load : caches -> outcome unit) (data : caches -> list ((Z * double) * U))
  (fuel : nat) :
  forall (parent : Z) (valoffset : U -> T) (s : caches) (l : list T) (s' : caches),
    data_access_parent_energy int_of_DBL_MAX load data fuel parent valoffset s
    = Ret l s' ->
    forall x y, In x l -> In y l -> x = y.
Proof.
  induction fuel as [|fuel IH]; intros parent valoffset s l s' Hret; [discriminate|].
  cbn [data_access_parent_energy] in Hret.
  destruct (stdmap.iterate _ _) as [visited|]; [|discriminate].
  destruct (stdmap.empty (data s)).
  - destruct (load s) as [[] s1| | |]; cbn [bind] in Hret; try discriminate.
    exact (IH _ _ _ _ _ Hret).
  - inversion Hret; subst. intros x y. apply push_visited_constant.
Qed.

Section MetastableLowState.
Variable nd : nuc_data.

Lemma lower_bound_all_above {V : Type} lo (m : list (Z * V)) :
  Forall (fun k => lo <= k) (map fst m) -> stdmap.lower_bound int_lt lo m = m.
Proof.
  destruct m as [|[k v] m]; [reflexivity|]. cbn [map fst stdmap.lower_bound].
  intros H. inversion H; subst. change (int_lt k lo) with (k <? lo).
  destruct (Z.ltb_spec k lo); [lia | reflexivity].
Qed.

Lemma filter_none_above {V : Type} lo hi (m : list (Z * V)) :
  Forall (fun k => hi < k) (map fst m) ->
  filter (fun kv => (lo <=? fst kv) && (fst kv <=? hi)) m = [].
Proof.
  induction m as [|[k v] m IH]; [reflexivity|]. cbn [map fst filter].
  intros H. inversion H; subst.
  destruct (Z.leb_spec k hi); [lia|]. rewrite andb_false_r. apply IH. assumption.
Qed.

(** On a well-formed table the iterators of the block enclose the
    entries whose key is in the block, and nothing else. *)
Lemma block_between_bounds {V : Type} lo hi (m : list (Z * V)) :
  lo <= hi ->
  ascending m ->
  stdmap.lower_bound int_lt lo m
  = filter (fun kv => (lo <=? fst kv) && (fst kv <=? hi)) m
    ++ stdmap.upper_bound int_lt hi m.
Proof.
  intros Hle. unfold ascending. induction m as [|[k v] m IH]; [reflexivity|].
  cbn [map fst]. intros Hs. inversion Hs as [|? ? Hs' Hall]; subst.
  cbn [stdmap.lower_bound stdmap.upper_bound filter fst].
  change (int_lt k lo) with (k <? lo). change (int_lt hi k) with (hi <? k).
  destruct (Z.ltb_spec k lo).
  - destruct (Z.leb_spec lo k); [lia|]. cbn [andb].
    destruct (Z.ltb_spec hi k); [lia|]. exact (IH Hs').
  - destruct (Z.leb_spec lo k); [|lia]. cbn [andb].
    destruct (Z.ltb_spec hi k).
    + destruct (Z.leb_spec k hi); [lia|].
      rewrite filter_none_above; [reflexivity|].
      eapply Forall_impl; [|exact Hall]. cbn. intros; lia.
    + destruct (Z.leb_spec k hi); [|lia]. cbn [app]. f_equal.
      rewrite <- (IH Hs'). symmetry. apply lower_bound_all_above.
      eapply Forall_impl; [|exact Hall]. cbn. intros; lia.
Qed.

Lemma find_filter {A : Type} (p q : A -> bool) (l : list A) :
  List.find p (filter q l) = List.find (fun x => q x && p x) l.
Proof.
  induction l as [|x l IH]; [reflexivity|]. cbn [filter List.find].
  destruct (q x); cbn [andb List.find]; [destruct (p x); [reflexivity | exact IH]
                                         | exact IH].
Qed.

Lemma filter_ascending {V : Type} (q : Z * V -> bool) (m : list (Z * V)) :
  ascending m -> ascending (filter q m).
Proof.
  unfold ascending. induction m as [|[k v] m IH]; [intros; constructor|].
  cbn [map fst filter]. intros Hs. inversion Hs as [|? ? Hs' Hall]; subst.
  destruct (q (k, v)); [|exact (IH Hs')].
  cbn [map fst]. constructor; [exact (IH Hs')|].
  rewrite Forall_forall in *. intros x Hx. apply Hall.
  apply in_map_iff in Hx. destruct Hx as (kv & <- & Hkv).
  apply filter_In in Hkv. apply in_map. tauto.
Qed.

Lemma scan_metastable_first m visited :
  scan_metastable m visited
  = match List.find (fun kv => level_struct.metastable (snd kv) =? m) visited with
    | Some (_, r) => level_struct.nuc_id r
    | None => 0
    end.
Proof.
  induction visited as [|[k r] visited IH]; [reflexivity|].
  cbn [scan_metastable List.find snd].
  destruct (level_struct.metastable r =? m); [reflexivity | exact IH].
Qed.

(** X16: for an ID whose state field is below 1000, on a loaded
    well-formed level table and [m] other than 0, [metastable_id] returns
    the [nuc_id] of the least-keyed entry of the ground state's
    10,000-wide block whose metastable ordinal is [m], or 0 when the block
    has none, and changes no table. *)
Lemma metastable_id_low_state_agrees (nuc m : Z) (s : caches) :
  m <> 0 ->
  0 <= nuc < 2147470000 ->
  Z.rem nuc 10000 < 1000 ->
  ascending (level_data s) ->
  stdmap.empty (level_data s) = false ->
  metastable_id nd nuc m s = Ret (metastable_id_spec nuc m (level_data s)) s.
Proof.
  intros Hm Hrange Hst Hasc He. unfold metastable_id, metastable_id_spec.
  destruct (Z.eqb_spec m 0); [contradiction|]. rewrite He. cbn [bind].
  rewrite (nostate_is_ground_below_1000 nuc) by lia.
  set (ground := Z.quot nuc 10000 * 10000).
  assert (Hg : 0 <= ground <= nuc).
  { unfold ground. rewrite Z.quot_div_nonneg by lia.
    pose proof (Z.div_mod nuc 10000 ltac:(lia)).
    pose proof (Z.mod_pos_bound nuc 10000 ltac:(lia)). nia. }
  destruct (Z.ltb_spec 2147483647 (ground + 9999)); [lia|].
  rewrite (block_between_bounds ground (ground + 9999) (level_data s)) by (lia || exact Hasc).
  rewrite iterate_app. f_equal.
  rewrite scan_metastable_first, find_filter.
  rewrite <- (first_entry_is_least _ _ (filter_ascending _ _ Hasc)).
  rewrite (find_filter (fun kv => (ground <=? fst kv) && (fst kv <=? ground + 9999))).
  assert (Hext : forall l : list (Z * level_struct.t),
             List.find (fun x => (ground <=? fst x) && (fst x <=? ground + 9999)
                                 && (level_struct.metastable (snd x) =? m)) l
             = List.find (fun x => (level_struct.metastable (snd x) =? m)
                                   && ((ground <=? fst x) && (fst x <=? ground + 9999))) l).
  { intros l. induction l as [|x l IH]; [reflexivity|]. cbn [List.find].
    rewrite IH, (andb_comm (level_struct.metastable (snd x) =? m)). reflexivity. }
  rewrite Hext. reflexivity.
Qed.

End MetastableLowState.

(** * Further properties of the accessors *)

(** ** Sample runs of the repeated-call and edge-case properties *)

Lemma canonical_ground_is_ground (nuc : Z) :
  Z.rem (nucname_id (NucName := canonical_nucname)
           (ground_state_of (NN := canonical_nucname) nuc)) 10000 <= 0.
Proof.
  unfold ground_state_of. cbn [nucname_id canonical_nucname].
  rewrite Z.rem_mul by lia. lia.
Qed.

Lemma atomic_mass_no_rows_never_returns_witness :
  atomic_mass (NN := canonical_nucname) no_rows_nuc_data 7 922350000 init_caches
  = OutOfFuel.
Proof.
  apply (@atomic_mass_no_rows_never_returns canonical_nucname no_rows_nuc_data
           7%nat 922350000 init_caches); reflexivity.
Defined.

Lemma atomic_mass_idempotent_witness :
  atomic_mass (NN := canonical_nucname) u235_nuc_data 2 922350000
    (fold_left atomic_mass_row (tbl_atomic_mass u235_nuc_data) init_caches)
  = Ret 235.0439299%float
      (fold_left atomic_mass_row (tbl_atomic_mass u235_nuc_data) init_caches).
Proof.
  apply (@atomic_mass_idempotent canonical_nucname u235_nuc_data 2%nat 922350000
           init_caches).
  vm_compute. reflexivity.
Defined.

Lemma natural_abund_idempotent_witness :
  exists s'',
    natural_abund (NN := canonical_nucname) u235_nuc_data 3 922350001
      (set_atomic_mass_map
         [(922350000, 235.0439299%float); (922350001, 0.0072%float)]
         (fold_left atomic_mass_row (tbl_atomic_mass u235_nuc_data) init_caches))
    = Ret 0.0072%float s''.
Proof.
  apply (@natural_abund_idempotent canonical_nucname u235_nuc_data
           canonical_ground_is_ground 3%nat 922350001 init_caches).
  vm_compute. reflexivity.
Defined.

Lemma b_idempotent_witness :
  b (NN := canonical_nucname) no_rows_nuc_data 1 10030000
    (set_b_incoherent_map
       [(10010000, sample_complex 4%float); (10030000, sample_complex 4%float)]
       (set_b_coherent_map
          [(10010000, sample_complex 1%float); (10030000, sample_complex 2%float);
           (20030000, sample_complex 2%float); (30060000, sample_complex 3%float)]
          loaded_caches))
  = Ret (PrimFloat.sqrt 20%float)
      (set_b_incoherent_map
         [(10010000, sample_complex 4%float); (10030000, sample_complex 4%float)]
         (set_b_coherent_map
            [(10010000, sample_complex 1%float); (10030000, sample_complex 2%float);
             (20030000, sample_complex 2%float); (30060000, sample_complex 3%float)]
            loaded_caches)).
Proof.
  apply (@b_idempotent canonical_nucname no_rows_nuc_data 1%nat 10030000
           loaded_caches).
  - intros _. reflexivity.
  - vm_compute. reflexivity.
Defined.

Lemma decay_const_idempotent_witness :
  decay_const decay_rows_nuc_data 2 10030000
    (fold_left half_life_decay_row (tbl_half_life decay_rows_nuc_data) init_caches)
  = Ret 1.78e-9%float
      (fold_left half_life_decay_row (tbl_half_life decay_rows_nuc_data)
         init_caches).
Proof.
  apply (decay_const_idempotent decay_rows_nuc_data 2%nat 10030000 init_caches).
  vm_compute. reflexivity.
Defined.

Lemma half_life_idempotent_witness :
  half_life uranium_level_nuc_data 2 922350001
    (fold_left level_row (tbl_level_list uranium_level_nuc_data) init_caches)
  = Ret 1560%float
      (fold_left level_row (tbl_level_list uranium_level_nuc_data) init_caches).
Proof.
  apply (half_life_idempotent uranium_level_nuc_data 2%nat 922350001 init_caches).
  vm_compute. reflexivity.
Defined.

Lemma fpyield_idempotent_witness :
  exists s'',
    fpyield no_rows_nuc_data 1 (922350000, 400900000) 1 false
      (set_wimsdfpy_data
         (stdmap.insert int_pair_lt (922350000, 400900000) 0%float
            (wimsdfpy_data loaded_caches)) loaded_caches)
    = Ret 0%float s''.
Proof.
  apply (fpyield_idempotent no_rows_nuc_data 1%nat (922350000, 400900000) 1 false
           loaded_caches).
  vm_compute. reflexivity.
Defined.

Lemma metastable_id_low_state_agrees_witness :
  metastable_id uranium_level_nuc_data 922350000 1
    (fold_left level_row (tbl_level_list uranium_level_nuc_data) init_caches)
  = Ret (metastable_id_spec 922350000 1
           (level_data
              (fold_left level_row (tbl_level_list uranium_level_nuc_data)
                 init_caches)))
      (fold_left level_row (tbl_level_list uranium_level_nuc_data) init_caches).
Proof.
  apply (metastable_id_low_state_agrees uranium_level_nuc_data 922350000 1).
  - discriminate.
  - lia.
  - reflexivity.
  - unfold ascending. cbn. repeat constructor.
  - reflexivity.
Defined.

(** ** What never happens *)

(** X1: whatever the dataset and the tables, [atomic_mass] and
    [natural_abund] never pass a loader exception on to the caller. *)
Theorem mass_and_abundance_never_throw {NN : NucName} (nd : nuc_data)
  (fuel : nat) (nuc : Z) (s : caches) (e : load_error) (s' : caches) :
  atomic_mass nd fuel nuc s <> Throw e s' /\
  natural_abund nd fuel nuc s <> Throw e s'.
Proof.
  split.
  - apply atomic_mass_never_throws.
  - apply natural_abund_never_throws.
Qed.

(** ** What the loaders leave in the tables *)

Lemma find_app_first {A : Type} (p : A -> bool) (l1 l2 : list A) :
  List.find p (l1 ++ l2)
  = match List.find p l1 with Some x => Some x | None => List.find p l2 end.
Proof.
  induction l1 as [|x l1 IH]; [reflexivity|]. cbn [app List.find].
  destruct (p x); [reflexivity | exact IH].
Qed.

Lemma last_row_cons {R : Type} (p : R -> bool) (r : R) (rows : list R) :
  last_row p (r :: rows)
  = match last_row p rows with
    | Some x => Some x
    | None => if p r then Some r else None
    end.
Proof.
  unfold last_row. cbn [rev]. rewrite find_app_first.
  destruct (List.find p (rev rows)); [reflexivity|]. cbn [List.find].
  destruct (p r); reflexivity.
Qed.

Lemma last_row_snoc {R : Type} (p : R -> bool) (r : R) (rows : list R) :
  last_row p (rows ++ [r]) = if p r then Some r else last_row p rows.
Proof.
  unfold last_row. rewrite rev_app_distr. cbn [rev app List.find]. reflexivity.
Qed.

(** Filling a table row by row through [operator[]]: the last row of a
    key wins. *)
Lemma fold_insert_find_last {R V : Type} (key : R -> Z) (val : R -> V) rows :
  forall m k,
    stdmap.find int_lt k
      (fold_left (fun m r => stdmap.insert int_lt (key r) (val r) m) rows m)
    = match last_row (fun r => key r =? k) rows with
      | Some r => Some (val r)
      | None => stdmap.find int_lt k m
      end.
Proof.
  induction rows as [|r rows IH]; intros m k; [reflexivity|].
  cbn [fold_left]. rewrite IH, last_row_cons.
  destruct (last_row (fun r0 => key r0 =? k) rows); [reflexivity|].
  destruct (Z.eqb_spec (key r) k) as [E|E].
  - rewrite E. apply find_insert_same.
  - apply find_insert_other. exact E.
Qed.

Lemma load_atomic_mass_map_rows rows s :
  atomic_mass_map (fold_left atomic_mass_row rows s)
  = fold_left
      (fun m r => stdmap.insert int_lt (atomic_mass_struct.nuc r)
                    (atomic_mass_struct.mass r) m)
      rows (atomic_mass_map s).
Proof.
  revert s. induction rows as [|r rows IH]; intros s; [reflexivity|].
  cbn [fold_left]. rewrite IH. reflexivity.
Qed.

Section LoadedValues.
Context {NN : NucName}.
Variable nd : nuc_data.
Hypothesis Hok : load_failure nd = None.

(** X4: on tables not filled yet and a dataset that loads, [atomic_mass]
    and [natural_abund] of a nuclide return the mass and the abundance of
    the last row of the mass table that names the nuclide, and leave the
    loaded tables with no entry added. *)
Theorem atomic_mass_returns_last_row (fuel : nat) (nuc : Z) (s : caches)
  (r : atomic_mass_struct.t) :
  atomic_mass_map s = [] ->
  natural_abund_map s = [] ->
  last_row (fun r => atomic_mass_struct.nuc r =? nuc) (tbl_atomic_mass nd) = Some r ->
  atomic_mass nd (S (S fuel)) nuc s
  = Ret (atomic_mass_struct.mass r)
      (fold_left atomic_mass_row (tbl_atomic_mass nd) s) /\
  natural_abund nd (S (S fuel)) nuc s
  = Ret (atomic_mass_struct.abund r)
      (fold_left atomic_mass_row (tbl_atomic_mass nd) s).
Proof.
  intros Hm Ha Hlast. split.
  - apply atomic_mass_after_load; [exact Hm | exact Hok |].
    apply atomic_mass_found.
    rewrite load_atomic_mass_map_rows, fold_insert_find_last, Hlast. reflexivity.
  - apply natural_abund_after_load; [exact Ha | exact Hok |].
    apply natural_abund_found.
    rewrite load_natural_abund_map, fold_insert_find_last, Hlast. reflexivity.
Qed.

(** X15: on a level table not filled yet and a dataset with level rows,
    the first [half_life] of a nuclide returns the half-life of the last
    level row with that [nuc_id], or 0.0 when no row has it, and leaves
    the loaded table with no entry added. *)
Theorem half_life_first_call (fuel : nat) (nuc : Z) (s : caches) :
  level_data s = [] ->
  tbl_level_list nd <> [] ->
  half_life nd (S (S fuel)) nuc s
  = Ret match last_row (fun r => level_struct.nuc_id r =? nuc) (tbl_level_list nd) with
        | Some r => level_struct.half_life r
        | None => 0%float
        end
      (fold_left level_row (tbl_level_list nd) s).
Proof.
  intros Hs Hrows.
  set (s1 := fold_left level_row (tbl_level_list nd) s).
  assert (Hl : level_data s1
               = fold_left (fun m r => stdmap.insert int_lt (level_struct.nuc_id r) r m)
                   (tbl_level_list nd) []).
  { unfold s1. rewrite load_level_data_rows, Hs. reflexivity. }
  assert (Hstep : half_life nd (S (S fuel)) nuc s = half_life nd (S fuel) nuc s1).
  { change (half_life nd (S (S fuel)) nuc s)
      with (match stdmap.find int_lt nuc (level_data s) with
            | Some r => Ret (level_struct.half_life r) s
            | None =>
                if stdmap.empty (level_data s) then
                  bind (_load_level_data nd s) (fun _ s => half_life nd (S fuel) nuc s)
                else Ret 0%float s
            end).
    rewrite Hs. cbn [stdmap.find stdmap.empty].
    unfold _load_level_data, open_nuc_data. rewrite Hok. reflexivity. }
  rewrite Hstep. cbn [half_life]. rewrite Hl, fold_insert_find_last.
  destruct (last_row _ _); [reflexivity|]. cbn [stdmap.find].
  rewrite fold_insert_not_empty by (left; exact Hrows). reflexivity.
Qed.

End LoadedValues.

(** ** The decay tables *)

Lemma row_decay_const_map s r :
  decay_const_map (half_life_decay_row s r)
  = if (0 =? stdmap.count int_lt (half_life_decay_struct.from_nuc r)
               (decay_const_map s))
       || PrimFloat.eqb 0 (half_life_decay_struct.level r)
    then stdmap.insert int_lt (half_life_decay_struct.from_nuc r)
           (half_life_decay_struct.decay_const r) (decay_const_map s)
    else decay_const_map s.
Proof.
  unfold half_life_decay_row.
  destruct ((0 =? stdmap.count int_lt _ (half_life_map s)) || _);
    cbn [decay_const_map set_half_life_map];
    destruct ((0 =? stdmap.count int_lt _ (decay_const_map s)) || _);
    cbn [branch_ratio_map set_decay_const_map set_half_life_map];
    destruct ((0 =? stdmap.count int_pair_lt _ (branch_ratio_map s)) || _);
    destruct (negb _); reflexivity.
Qed.

Lemma row_decay_children_map s r :
  decay_children_map (half_life_decay_row s r)
  = if negb (PrimFloat.eqb 0 (half_life_decay_struct.decay_const r))
    then stdmap.insert int_lt (half_life_decay_struct.from_nuc r)
           (set_insert (half_life_decay_struct.to_nuc r)
              match stdmap.find int_lt (half_life_decay_struct.from_nuc r)
                      (decay_children_map s) with
              | Some c => c
              | None => []
              end)
           (decay_children_map s)
    else decay_children_map s.
Proof.
  unfold half_life_decay_row.
  destruct ((0 =? stdmap.count int_lt _ (half_life_map s)) || _);
    cbn [decay_const_map set_half_life_map];
    destruct ((0 =? stdmap.count int_lt _ (decay_const_map s)) || _);
    cbn [branch_ratio_map set_decay_const_map set_half_life_map];
    destruct ((0 =? stdmap.count int_pair_lt _ (branch_ratio_map s)) || _);
    destruct (negb _); reflexivity.
Qed.

(** The loop of the decay loader gives every parent the decay constant
    of its last zero-level row, or else of its first row. *)
Lemma decay_const_map_loaded rows :
  forall s k,
    decay_const_map s = [] ->
    stdmap.find int_lt k (decay_const_map (fold_left half_life_decay_row rows s))
    = decay_const_of_rows rows k.
Proof.
  induction rows as [|r rows IH] using rev_ind; intros s k Hs.
  - cbn [fold_left]. rewrite Hs. reflexivity.
  - rewrite fold_left_app. cbn [fold_left]. rewrite row_decay_const_map.
    set (S0 := fold_left half_life_decay_row rows s).
    pose proof (IH s (half_life_decay_struct.from_nuc r) Hs) as IHr.
    pose proof (IH s k Hs) as IHk. fold S0 in IHr, IHk. clear IH.
    unfold decay_const_of_rows in *. rewrite last_row_snoc, find_app_first.
    cbn [List.find]. unfold stdmap.count.
    destruct (Z.eqb_spec (half_life_decay_struct.from_nuc r) k) as [E|E].
    + subst k. clear IHr. cbn [andb].
      destruct (PrimFloat.eqb 0 (half_life_decay_struct.level r)).
      * rewrite orb_true_r. apply find_insert_same.
      * rewrite orb_false_r.
        destruct (stdmap.find int_lt _ (decay_const_map S0)) as [v|] eqn:Hf.
        -- cbn [Z.eqb]. rewrite Hf.
           destruct (last_row _ rows); [exact IHk|].
           destruct (List.find _ rows); [exact IHk | discriminate IHk].
        -- cbn [Z.eqb]. rewrite find_insert_same.
           destruct (last_row _ rows); [discriminate IHk|].
           destruct (List.find _ rows); [discriminate IHk | reflexivity].
    + clear IHr. cbn [andb].
      assert (Hfind : stdmap.find int_lt k
                        (if (0 =? match stdmap.find int_lt
                                          (half_life_decay_struct.from_nuc r)
                                          (decay_const_map S0) with
                                  | Some _ => 1
                                  | None => 0
                                  end)
                            || PrimFloat.eqb 0 (half_life_decay_struct.level r)
                         then stdmap.insert int_lt
                                (half_life_decay_struct.from_nuc r)
                                (half_life_decay_struct.decay_const r)
                                (decay_const_map S0)
                         else decay_const_map S0)
                      = stdmap.find int_lt k (decay_const_map S0)).
      { destruct (_ || _); [apply find_insert_other; exact E | reflexivity]. }
      rewrite Hfind, IHk.
      destruct (last_row _ rows); [reflexivity|].
      destruct (List.find _ rows); reflexivity.
Qed.

Lemma set_insert_in (x y : Z) (l : list Z) :
  In x (set_insert y l) <-> x = y \/ In x l.
Proof.
  induction l as [|z l IH]; cbn [set_insert In].
  - intuition.
  - destruct (Z.ltb_spec y z); cbn [In]; [intuition|].
    destruct (Z.ltb_spec z y); cbn [In].
    + rewrite IH. intuition.
    + assert (z = y) by lia. subst z. intuition.
Qed.

(** The loop of the decay loader gives every parent the set of its
    daughters over the rows with a non-zero decay constant. *)
Lemma decay_children_map_loaded rows :
  forall s k,
    decay_children_map s = [] ->
    match stdmap.find int_lt k
            (decay_children_map (fold_left half_life_decay_row rows s)) with
    | Some l => forall d, In d l <-> exists r, In r rows /\ decays_to k d r
    | None =>
        forall r, In r rows -> half_life_decay_struct.from_nuc r = k ->
                  PrimFloat.eqb 0 (half_life_decay_struct.decay_const r) = true
    end.
Proof.
  induction rows as [|r rows IH] using rev_ind; intros s k Hs.
  - cbn [fold_left]. rewrite Hs. cbn [stdmap.find]. intros r [].
  - rewrite fold_left_app. cbn [fold_left]. rewrite row_decay_children_map.
    set (S0 := fold_left half_life_decay_row rows s).
    pose proof (IH s (half_life_decay_struct.from_nuc r) Hs) as IHr.
    pose proof (IH s k Hs) as IHk. fold S0 in IHr, IHk.
    destruct (PrimFloat.eqb 0 (half_life_decay_struct.decay_const r)) eqn:Hdc;
      cbn [negb].
    + (* a row with a zero decay constant adds no daughter *)
      destruct (stdmap.find int_lt k (decay_children_map S0)) as [l|].
      * intros d. rewrite IHk. split.
        -- intros (r' & Hin & Hd). exists r'. split; [|exact Hd].
           apply in_or_app. left. exact Hin.
        -- intros (r' & Hin & Hd). apply in_app_or in Hin.
           destruct Hin as [Hin | [<- | []]]; [exists r'; tauto|].
           destruct Hd as (_ & _ & Hd). congruence.
      * intros r' Hin Hfrom. apply in_app_or in Hin.
        destruct Hin as [Hin | [<- | []]]; [exact (IHk r' Hin Hfrom) | exact Hdc].
    + destruct (Z.eqb_spec (half_life_decay_struct.from_nuc r) k) as [E|E].
      * subst k. rewrite find_insert_same. intros d. rewrite set_insert_in. split.
        -- intros [-> | Hin].
           ++ exists r. split; [apply in_or_app; right; left; reflexivity|].
              repeat split. exact Hdc.
           ++ destruct (stdmap.find int_lt _ (decay_children_map S0)) as [l|];
                [|destruct Hin].
              apply IHk in Hin. destruct Hin as (r' & Hin & Hd).
              exists r'. split; [apply in_or_app; left; exact Hin | exact Hd].
        -- intros (r' & Hin & Hd). apply in_app_or in Hin.
           destruct Hin as [Hin | [<- | []]].
           ++ right.
              destruct (stdmap.find int_lt _ (decay_children_map S0)) as [l|].
              ** apply IHk. exists r'. tauto.
              ** destruct Hd as (Hf & _ & Hd). rewrite (IHk r' Hin Hf) in Hd.
                 discriminate.
           ++ left. destruct Hd as (_ & Hd & _). symmetry. exact Hd.
      * rewrite find_insert_other by exact E.
        destruct (stdmap.find int_lt k (decay_children_map S0)) as [l|].
        -- intros d. rewrite IHk. split.
           ++ intros (r' & Hin & Hd). exists r'. split; [|exact Hd].
              apply in_or_app. left. exact Hin.
           ++ intros (r' & Hin & Hd). apply in_app_or in Hin.
              destruct Hin as [Hin | [<- | []]]; [exists r'; tauto|].
              destruct Hd as (Hd & _). contradiction.
        -- intros r' Hin Hfrom. apply in_app_or in Hin.
           destruct Hin as [Hin | [<- | []]]; [exact (IHk r' Hin Hfrom)|].
           contradiction.
Qed.

Lemma stable_rows_leave_children rows :
  forall s,
    (forall r, In r rows ->
               PrimFloat.eqb 0 (half_life_decay_struct.decay_const r) = true) ->
    decay_children_map (fold_left half_life_decay_row rows s)
    = decay_children_map s.
Proof.
  induction rows as [|r rows IH]; intros s Hall; [reflexivity|].
  cbn [fold_left]. rewrite IH by (intros r' Hr'; apply Hall; right; exact Hr').
  rewrite row_decay_children_map, (Hall r (or_introl eq_refl)). reflexivity.
Qed.

Section DecayLoaded.
Variable nd : nuc_data.
Hypothesis Hok : load_failure nd = None.

(** X5: on decay tables not filled yet and a dataset with decay rows,
    the first [decay_const] of a nuclide returns the decay constant of the
    nuclide's last row with a zero level, or else of its first row, or
    else 0.0 when no row names the nuclide as parent. *)
Theorem decay_const_first_call (fuel : nat) (nuc : Z) (s : caches) :
  decay_const_map s = [] ->
  tbl_half_life nd <> [] ->
  exists s',
    decay_const nd (S (S fuel)) nuc s
    = Ret match decay_const_of_rows (tbl_half_life nd) nuc with
          | Some v => v
          | None => 0%float
          end s'.
Proof.
  intros Hs Hrows.
  set (s1 := fold_left half_life_decay_row (tbl_half_life nd) s).
  assert (Hstep : decay_const nd (S (S fuel)) nuc s = decay_const nd (S fuel) nuc s1).
  { change (decay_const nd (S (S fuel)) nuc s)
      with (match stdmap.find int_lt nuc (decay_const_map s) with
            | Some v => Ret v s
            | None =>
                if stdmap.empty (decay_const_map s) then
                  bind (_load_half_life_decay nd s)
                    (fun _ s => decay_const nd (S fuel) nuc s)
                else
                  Ret 0%float
                    (set_decay_const_map
                       (stdmap.insert int_lt nuc 0%float (decay_const_map s)) s)
            end).
    rewrite Hs. cbn [stdmap.find stdmap.empty].
    unfold _load_half_life_decay, open_nuc_data. rewrite Hok. reflexivity. }
  assert (He : stdmap.empty (decay_const_map s1) = false).
  { destruct (tbl_half_life nd) as [|r0 rows] eqn:Hr; [contradiction|].
    pose proof (decay_const_map_loaded (r0 :: rows) s
                  (half_life_decay_struct.from_nuc r0) Hs) as Hf.
    fold s1 in Hf.
    destruct (stdmap.find int_lt _ (decay_const_map s1)) as [v|] eqn:Hv.
    - exact (find_some_not_empty _ _ _ _ Hv).
    - exfalso. symmetry in Hf. unfold decay_const_of_rows in Hf.
      destruct (last_row _ (r0 :: rows)); [discriminate|].
      cbn [List.find] in Hf. rewrite Z.eqb_refl in Hf. discriminate. }
  rewrite Hstep. cbn [decay_const].
  unfold s1 at 1. rewrite (decay_const_map_loaded _ s nuc Hs). fold s1.
  destruct (decay_const_of_rows (tbl_half_life nd) nuc).
  - eexists. reflexivity.
  - rewrite He. eexists. reflexivity.
Qed.

(** X6: on decay tables not filled yet and a dataset where some row has
    a non-zero decay constant, the first [decay_children] of a nuclide
    returns exactly the daughters that the rows with that parent and a
    non-zero decay constant name; the set is empty when there is none. *)
Theorem decay_children_first_call (fuel : nat) (nuc : Z) (s : caches) :
  decay_children_map s = [] ->
  (exists r0, In r0 (tbl_half_life nd) /\
              PrimFloat.eqb 0 (half_life_decay_struct.decay_const r0) = false) ->
  exists l s',
    decay_children nd (S (S fuel)) nuc s = Ret l s' /\
    forall d, In d l <-> exists r, In r (tbl_half_life nd) /\ decays_to nuc d r.
Proof.
  intros Hs (r0 & Hin0 & Hdc0).
  set (s1 := fold_left half_life_decay_row (tbl_half_life nd) s).
  assert (Hstep : decay_children nd (S (S fuel)) nuc s
                  = decay_children nd (S fuel) nuc s1).
  { change (decay_children nd (S (S fuel)) nuc s)
      with (match stdmap.find int_lt nuc (decay_children_map s) with
            | Some v => Ret v s
            | None =>
                if stdmap.empty (decay_children_map s) then
                  bind (_load_half_life_decay nd s)
                    (fun _ s => decay_children nd (S fuel) nuc s)
                else
                  Ret []
                    (set_decay_children_map
                       (stdmap.insert int_lt nuc [] (decay_children_map s)) s)
            end).
    rewrite Hs. cbn [stdmap.find stdmap.empty].
    unfold _load_half_life_decay, open_nuc_data. rewrite Hok. reflexivity. }
  assert (He : stdmap.empty (decay_children_map s1) = false).
  { pose proof (decay_children_map_loaded (tbl_half_life nd) s
                  (half_life_decay_struct.from_nuc r0) Hs) as Hf.
    fold s1 in Hf.
    destruct (stdmap.find int_lt _ (decay_children_map s1)) as [l|] eqn:Hl.
    - exact (find_some_not_empty _ _ _ _ Hl).
    - rewrite (Hf r0 Hin0 eq_refl) in Hdc0. discriminate. }
  pose proof (decay_children_map_loaded (tbl_half_life nd) s nuc Hs) as Hk.
  fold s1 in Hk. rewrite Hstep. cbn [decay_children].
  destruct (stdmap.find int_lt nuc (decay_children_map s1)) as [l|].
  - exists l, s1. split; [reflexivity | exact Hk].
  - rewrite He. eexists _, _. split; [reflexivity|].
    intros d. split; [intros []|].
    intros (r & Hin & Hf & _ & Hd). rewrite (Hk r Hin Hf) in Hd. discriminate.
Qed.

(** X3: on a children table not filled yet, when every row of the decay
    table has a decay constant of 0.0 (or there is no row), the load
    leaves the children table empty and [decay_children] loads and asks
    again without end: no recursion budget is enough for it to return. *)
Theorem decay_children_stable_rows_never_returns (fuel : nat) :
  forall (nuc : Z) (s : caches),
    (forall r, In r (tbl_half_life nd) ->
               PrimFloat.eqb 0 (half_life_decay_struct.decay_const r) = true) ->
    decay_children_map s = [] ->
    decay_children nd fuel nuc s = OutOfFuel.
Proof.
  induction fuel as [|fuel IH]; intros nuc s Hall Hs; [reflexivity|].
  cbn [decay_children]. rewrite Hs. cbn [stdmap.find stdmap.empty].
  unfold _load_half_life_decay, open_nuc_data. rewrite Hok. cbn [bind].
  apply IH; [exact Hall|]. rewrite stable_rows_leave_children by exact Hall.
  exact Hs.
Qed.

End DecayLoaded.

Lemma atomic_mass_returns_last_row_witness :
  atomic_mass (NN := canonical_nucname) u235_nuc_data 2 922350000 init_caches
  = Ret 235.0439299%float
      (fold_left atomic_mass_row (tbl_atomic_mass u235_nuc_data) init_caches) /\
  natural_abund (NN := canonical_nucname) u235_nuc_data 2 922350000 init_caches
  = Ret 0.0072%float
      (fold_left atomic_mass_row (tbl_atomic_mass u235_nuc_data) init_caches).
Proof.
  apply (@atomic_mass_returns_last_row canonical_nucname u235_nuc_data eq_refl
           0%nat 922350000 init_caches
           (atomic_mass_struct.mk 922350000 235.0439299%float 0.000002%float
              0.0072%float)); reflexivity.
Defined.

Lemma half_life_first_call_witness :
  half_life uranium_level_nuc_data 2 922350001 init_caches
  = Ret 1560%float
      (fold_left level_row (tbl_level_list uranium_level_nuc_data) init_caches).
Proof.
  apply (half_life_first_call uranium_level_nuc_data eq_refl 0%nat 922350001
           init_caches); [reflexivity | discriminate].
Defined.

Lemma decay_const_first_call_witness :
  exists s',
    decay_const decay_rows_nuc_data 2 922350000 init_caches
    = Ret 3.12e-17%float s'.
Proof.
  apply (decay_const_first_call decay_rows_nuc_data eq_refl 0%nat 922350000
           init_caches); [reflexivity | discriminate].
Defined.

Lemma decay_children_first_call_witness :
  exists l s',
    decay_children decay_rows_nuc_data 2 922350000 init_caches = Ret l s' /\
    forall d,
      In d l <->
      exists r, In r (tbl_half_life decay_rows_nuc_data) /\
                decays_to 922350000 d r.
Proof.
  apply (decay_children_first_call decay_rows_nuc_data eq_refl 0%nat 922350000
           init_caches); [reflexivity|].
  exists (half_life_decay_struct.mk 10030000 0%float 20030000 388800000%float
            1.78e-9%float 1%float).
  split; [left; reflexivity | reflexivity].
Defined.

Lemma decay_children_stable_rows_never_returns_witness :
  decay_children stable_rows_nuc_data 9 20040000 init_caches = OutOfFuel.
Proof.
  apply (decay_children_stable_rows_never_returns stable_rows_nuc_data eq_refl
           9%nat 20040000 init_caches); [|reflexivity].
  intros r [<- | [<- | []]]; reflexivity.
Defined.

(** ** How calls compose *)

Section Composition.
Context {NN : NucName}.

(** X7: once [atomic_mass] has stored a mass-number guess after a failed
    load, the mass table is not empty and the dataset is never read
    again: with any dataset then in place, [atomic_mass] of another
    ground-state nuclide that the table does not hold returns that
    nuclide's mass-number guess. *)
Theorem atomic_mass_guess_blocks_later_load
  (nd_failing nd_later : nuc_data) (e : load_error) (fuel : nat)
  (nuc other : Z) (s : caches) :
  load_failure nd_failing = Some e ->
  atomic_mass_map s = [] ->
  Z.rem (nucname_id nuc) 10000 = 0 ->
  Z.rem (nucname_id other) 10000 = 0 ->
  nuc <> other ->
  exists s1 s2,
    atomic_mass nd_failing (S fuel) nuc s = Ret (mass_number_guess nuc) s1 /\
    atomic_mass nd_later (S fuel) other s1 = Ret (mass_number_guess other) s2.
Proof.
  intros Hfail Hs Hn Ho Hne. eexists _, _. split.
  - apply (atomic_mass_load_fails nd_failing e Hfail); assumption.
  - apply atomic_mass_ground_guess.
    + cbn [atomic_mass_map set_atomic_mass_map stdmap.find].
      rewrite int_equiv_eqb. destruct (Z.eqb_spec other nuc); [congruence|reflexivity].
    + reflexivity.
    + lia.
Qed.

End Composition.

Lemma atomic_mass_guess_blocks_later_load_witness :
  exists s1 s2,
    atomic_mass (NN := canonical_nucname) missing_nuc_data 1 10030000 init_caches
    = Ret (mass_number_guess (NN := canonical_nucname) 10030000) s1 /\
    atomic_mass (NN := canonical_nucname) u235_nuc_data 1 922350000 s1
    = Ret (mass_number_guess (NN := canonical_nucname) 922350000) s2.
Proof.
  apply (@atomic_mass_guess_blocks_later_load canonical_nucname missing_nuc_data
           u235_nuc_data FileNotFound 0%nat 10030000 922350000 init_caches);
    [reflexivity | reflexivity | reflexivity | reflexivity | discriminate].
Defined.

(** X14: when a pair has a WIMS yield but no entry in the loaded richer
    table, [fpyield] for the richer table ([source] other than 0) returns
    0.0 and stores it over the WIMS yield: [fpyield] for the WIMS table,
    which returned the yield before, returns 0.0 afterwards. *)
Theorem fpyield_miss_overwrites_wims_yield (nd : nuc_data) (fuel : nat)
  (from_to : Z * Z) (source : Z) (get_error get_error' : bool) (s : caches)
  (y : double) :
  source <> 0 ->
  stdmap.find int_pair_lt from_to (wimsdfpy_data s) = Some y ->
  stdmap.empty (ndsfpy_data s) = false ->
  stdmap.find int_pair_lt from_to (ndsfpy_data s) = None ->
  exists s',
    fpyield nd (S fuel) from_to 0 get_error' s = Ret y s /\
    fpyield nd (S fuel) from_to source get_error s = Ret 0%float s' /\
    fpyield nd (S fuel) from_to 0 get_error' s' = Ret 0%float s'.
Proof.
  intros Hsrc Hw He Hn. eexists. split; [|split].
  - cbn [fpyield]. unfold fpyield_lookup. cbn [Z.eqb]. rewrite Hw. reflexivity.
  - cbn [fpyield].
    rewrite (fpyield_lookup_absent from_to source get_error s
               (fun E => False_ind _ (Hsrc E)) (fun _ => Hn)).
    destruct (Z.eqb_spec source 0); [contradiction|]. cbn [andb]. rewrite He.
    reflexivity.
  - cbn [fpyield]. unfold fpyield_lookup. cbn [Z.eqb].
    cbn [wimsdfpy_data set_wimsdfpy_data].
    rewrite find_insert_same_irrefl by apply int_pair_lt_irrefl. reflexivity.
Qed.

Lemma fpyield_miss_overwrites_wims_yield_witness :
  exists s',
    fpyield no_rows_nuc_data 1 (922350000, 551370000) 0 false loaded_caches
    = Ret 0.0625%float loaded_caches /\
    fpyield no_rows_nuc_data 1 (922350000, 551370000) 1 false loaded_caches
    = Ret 0%float s' /\
    fpyield no_rows_nuc_data 1 (922350000, 551370000) 0 false s'
    = Ret 0%float s'.
Proof.
  apply (fpyield_miss_overwrites_wims_yield no_rows_nuc_data 0%nat
           (922350000, 551370000) 1 false false loaded_caches 0.0625%float);
    [discriminate | reflexivity | reflexivity | reflexivity].
Defined.

(** ** Metastable lookups *)

Lemma iterate_visits_range {K U : Type} (it : list (K * U)) :
  forall last visited,
    stdmap.iterate it last = Some visited ->
    forall x, In x visited -> In x it.
Proof.
  induction it as [|kv it IH]; intros last visited Hit x Hx.
  - cbn [stdmap.iterate] in Hit. destruct (Nat.eqb _ last); [|discriminate].
    inversion Hit; subst. destruct Hx.
  - cbn [stdmap.iterate] in Hit.
    destruct (Nat.eqb (List.length (kv :: it)) last).
    + inversion Hit; subst. destruct Hx.
    + destruct (stdmap.iterate it last) as [rest|] eqn:Hrest; [|discriminate].
      cbn [option_map] in Hit. inversion Hit; subst.
      destruct Hx as [<- | Hx]; [left; reflexivity | right].
      exact (IH _ _ Hrest x Hx).
Qed.

Lemma scan_metastable_names_entry m visited :
  scan_metastable m visited = 0 \/
  exists k r, In (k, r) visited /\ level_struct.metastable r = m /\
              level_struct.nuc_id r = scan_metastable m visited.
Proof.
  induction visited as [|[k r] visited IH]; [left; reflexivity|].
  cbn [scan_metastable]. destruct (Z.eqb_spec (level_struct.metastable r) m) as [E|E].
  - right. exists k, r. split; [left; reflexivity | split; [exact E | reflexivity]].
  - destruct IH as [H0 | (k' & r' & Hin & Hm & Hid)]; [left; exact H0|].
    right. exists k', r'. split; [right; exact Hin | split; assumption].
Qed.

(** X17: whatever the ID and the tables, when [metastable_id] with [m]
    other than 0 returns a value, the value is 0 or the [nuc_id] of an
    entry of the level table whose metastable ordinal is [m]. *)
Theorem metastable_id_names_an_entry (nd : nuc_data) (nuc m : Z)
  (s : caches) (v : Z) (s' : caches) :
  m <> 0 ->
  metastable_id nd nuc m s = Ret v s' ->
  v = 0 \/
  exists k r, In (k, r) (level_data s') /\ level_struct.metastable r = m /\
              level_struct.nuc_id r = v.
Proof.
  intros Hm Hret. unfold metastable_id in Hret.
  destruct (Z.eqb_spec m 0); [contradiction|].
  assert (Hbody : forall s0,
             (let nuc_lower :=
                stdmap.lower_bound int_lt (Z.quot nuc 1000 * 1000) (level_data s0) in
              if 2147483647 <? Z.quot nuc 1000 * 1000 + 9999 then Undefined
              else
                let nuc_upper :=
                  stdmap.upper_bound int_lt (Z.quot nuc 1000 * 1000 + 9999)
                    (level_data s0) in
                match stdmap.iterate nuc_lower (List.length nuc_upper) with
                | Some visited => Ret (scan_metastable m visited) s0
                | None => Undefined
                end) = Ret v s' ->
             v = 0 \/
             exists k r, In (k, r) (level_data s') /\ level_struct.metastable r = m /\
                         level_struct.nuc_id r = v).
  { intros s0 H. cbn zeta in H.
    destruct (2147483647 <? _); [discriminate|].
    destruct (stdmap.iterate _ _) as [visited|] eqn:Hit; [|discriminate].
    inversion H; subst.
    destruct (scan_metastable_names_entry m visited)
      as [H0 | (k & r & Hin & Hmeta & Hid)]; [left; exact H0|].
    right. exists k, r. split; [|split; assumption].
    apply (iterate_visits_range _ _ _ Hit) in Hin.
    destruct (lower_bound_suffix int_lt (Z.quot nuc 1000 * 1000) (level_data s'))
      as [pre Hpre].
    rewrite Hpre. apply in_or_app. right. exact Hin. }
  destruct (stdmap.empty (level_data s)).
  - unfold _load_level_data, open_nuc_data in Hret.
    destruct (load_failure nd); [discriminate|]. cbn [bind] in Hret.
    exact (Hbody _ Hret).
  - cbn [bind] in Hret. exact (Hbody _ Hret).
Qed.

Lemma metastable_id_names_an_entry_witness :
  922360002 = 0 \/
  exists k r,
    In (k, r)
      (level_data
         (fold_left level_row (tbl_level_list uranium_level_nuc_data) init_caches)) /\
    level_struct.metastable r = 1 /\ level_struct.nuc_id r = 922360002.
Proof.
  apply (metastable_id_names_an_entry uranium_level_nuc_data 922351000 1
           init_caches 922360002
           (fold_left level_row (tbl_level_list uranium_level_nuc_data) init_caches));
    [discriminate | vm_compute; reflexivity].
Defined.

(** ** Range queries on well-formed tables *)

Section SortedRange.
Context {K V : Type}.
Variable lt : K -> K -> bool.
Hypothesis lt_trans :
  forall a b c, lt a b = true -> lt b c = true -> lt a c = true.
Implicit Types (m : list (K * V)).

Lemma lower_bound_sorted_tail (k : K) (v : V) lo m :
  lt k lo = false ->
  StronglySorted (fun a b => lt a b = true) (map fst ((k, v) :: m)) ->
  stdmap.lower_bound lt lo m = m.
Proof.
  intros Hk Hs. destruct m as [|[k' v'] m]; [reflexivity|].
  cbn [stdmap.lower_bound]. cbn [map fst] in Hs.
  inversion Hs as [|? ? _ Hall]; subst. inversion Hall as [|? ? Hkk' _]; subst.
  destruct (lt k' lo) eqn:Hk'; [|reflexivity].
  rewrite (lt_trans _ _ _ Hkk' Hk') in Hk. discriminate.
Qed.

(** Between [lower_bound lo] and [upper_bound hi] lie the entries whose
    key is neither below [lo] nor above [hi], and nothing else. *)
Lemma range_between_bounds lo hi m :
  lt hi lo = false ->
  StronglySorted (fun a b => lt a b = true) (map fst m) ->
  stdmap.lower_bound lt lo m
  = filter (fun kv => negb (lt (fst kv) lo) && negb (lt hi (fst kv))) m
    ++ stdmap.upper_bound lt hi m.
Proof.
  intros Hhl. induction m as [|[k v] m IH]; [reflexivity|].
  intros Hs. pose proof Hs as Hs0. cbn [map fst] in Hs.
  inversion Hs as [|? ? Hs' Hall]; subst.
  cbn [stdmap.lower_bound stdmap.upper_bound filter fst].
  destruct (lt k lo) eqn:Hlo; cbn [negb andb].
  - destruct (lt hi k) eqn:Hhi.
    + rewrite (lt_trans _ _ _ Hhi Hlo) in Hhl. discriminate.
    + exact (IH Hs').
  - destruct (lt hi k) eqn:Hhi; cbn [negb].
    + assert (Hnone : filter (fun kv => negb (lt (fst kv) lo)
                                        && negb (lt hi (fst kv))) m = []).
      { clear IH Hs0 Hs Hs'. rewrite Forall_forall in Hall.
        induction m as [|[k' v'] m IHm]; [reflexivity|]. cbn [filter fst].
        rewrite (lt_trans _ _ _ Hhi (Hall k' (or_introl eq_refl))).
        rewrite andb_false_r. apply IHm. intros x Hx. apply Hall. right. exact Hx. }
      rewrite Hnone. reflexivity.
    + cbn [app]. f_equal. rewrite <- (IH Hs').
      symmetry. exact (lower_bound_sorted_tail k v lo m Hlo Hs0).
Qed.

End SortedRange.

Lemma int_pair_lt_trans (a b c : Z * Z) :
  int_pair_lt a b = true -> int_pair_lt b c = true -> int_pair_lt a c = true.
Proof.
  destruct a as [a1 a2], b as [b1 b2], c as [c1 c2].
  unfold int_pair_lt, pair_lt. cbn [fst snd].
  destruct (Z.ltb_spec a1 b1), (Z.ltb_spec b1 a1), (Z.ltb_spec a2 b2),
    (Z.ltb_spec b1 c1), (Z.ltb_spec c1 b1), (Z.ltb_spec b2 c2),
    (Z.ltb_spec a1 c1), (Z.ltb_spec c1 a1), (Z.ltb_spec a2 c2);
    cbn; intros; lia || congruence.
Qed.

Lemma parent_range_keys (parent : Z) (k : Z * Z) :
  negb (int_pair_lt k (parent, 0))
  && negb (int_pair_lt (parent, int_of_long 9999999999) k)
  = (fst k =? parent) && (0 <=? snd k) && (snd k <=? int_of_long 9999999999).
Proof.
  destruct k as [k1 k2]. unfold int_pair_lt, pair_lt. cbn [fst snd].
  change (int_of_long 9999999999) with 1410065407.
  destruct (Z.ltb_spec k1 parent), (Z.ltb_spec parent k1), (Z.ltb_spec k2 0),
    (Z.ltb_spec 1410065407 k2), (Z.eqb_spec k1 parent), (Z.leb_spec 0 k2),
    (Z.leb_spec k2 1410065407); cbn; lia || reflexivity.
Qed.

Lemma push_visited_block {K U T : Type} (valoffset : U -> T)
  (block rest : list (K * U)) :
  push_visited valoffset (block ++ rest) block
  = first_record_repeated valoffset block.
Proof.
  unfold push_visited, first_record_repeated.
  destruct block as [|first block]; [reflexivity|]. cbn [app].
  generalize (first :: block). intros l.
  induction l as [|x l IH]; [reflexivity|]. cbn [flat_map map app].
  rewrite IH. reflexivity.
Qed.

Lemma pair_up_repeated {K U A B : Type} (f : U -> A) (g : U -> B)
  (block : list (K * U)) :
  pair_up (first_record_repeated f block) (first_record_repeated g block) 0
  = Some (first_record_repeated (fun r => (f r, g r)) block).
Proof.
  unfold first_record_repeated. destruct block as [|first block]; [reflexivity|].
  generalize (first :: block). intros l.
  change (pair_up (map (fun _ => f (snd first)) l) (map (fun _ => g (snd first)) l) 0)
    with (pair_up (map (fun _ : K * U => f (snd first)) l)
            ([] ++ map (fun _ : K * U => g (snd first)) l)
            (List.length (@nil B))).
  rewrite pair_up_combine by (rewrite !length_map; reflexivity).
  f_equal. induction l as [|x l IH]; [reflexivity|]. cbn [map combine].
  rewrite IH. reflexivity.
Qed.

Section DecayBlocks.
Variable nd : nuc_data.

Lemma data_access_parent_block {T : Type} (fuel : nat) (parent : Z)
  (valoffset : decay_struct.t -> T) (s : caches) :
  pair_ascending (decay_data s) ->
  stdmap.empty (decay_data s) = false ->
  data_access_parent (_load_decay_data nd) decay_data (S fuel) parent valoffset s
  = Ret (first_record_repeated valoffset (parent_block parent (decay_data s))) s.
Proof.
  intros Hasc He.
  assert (Hsplit :
            stdmap.lower_bound int_pair_lt (parent, 0) (decay_data s)
            = parent_block parent (decay_data s)
              ++ stdmap.upper_bound int_pair_lt
                   (parent, int_of_long 9999999999) (decay_data s)).
  { rewrite (range_between_bounds int_pair_lt int_pair_lt_trans (parent, 0)
               (parent, int_of_long 9999999999) (decay_data s));
      [| | exact Hasc].
    2:{ unfold int_pair_lt, pair_lt. cbn [fst snd].
        rewrite !Z.ltb_irrefl. reflexivity. }
    f_equal. unfold parent_block. apply filter_ext.
    intros kv. apply parent_range_keys. }
  rewrite (data_access_parent_loaded (_load_decay_data nd) decay_data fuel parent
             valoffset s _ He Hsplit).
  rewrite Hsplit, push_visited_block. reflexivity.
Qed.

Lemma decay_pairs_block {A B : Type} (fuel : nat) (parent : Z)
  (f : decay_struct.t -> A) (g : decay_struct.t -> B) (s : caches) :
  pair_ascending (decay_data s) ->
  stdmap.empty (decay_data s) = false ->
  bind (data_access_parent (_load_decay_data nd) decay_data (S fuel) parent f s)
    (fun part1 s =>
       bind (data_access_parent (_load_decay_data nd) decay_data (S fuel) parent g s)
         (fun part2 s => pair_parts part1 part2 s))
  = Ret (first_record_repeated (fun r => (f r, g r))
           (parent_block parent (decay_data s))) s.
Proof.
  intros Hasc He. rewrite !data_access_parent_block by assumption. cbn [bind].
  rewrite data_access_parent_block by assumption. cbn [bind].
  unfold pair_parts. rewrite pair_up_repeated. reflexivity.
Qed.

(** X18: on a loaded, well-formed decay table, each range accessor of a
    parent returns as many elements as the table has records of that
    parent, every element holding the fields of the first of those
    records, and changes no table. *)
Theorem decay_range_repeats_first_record (fuel : nat) (parent : Z) (s : caches) :
  pair_ascending (decay_data s) ->
  stdmap.empty (decay_data s) = false ->
  decay_half_lifes nd (S fuel) parent s
  = Ret (first_record_repeated
           (fun r => (decay_struct.half_life r, decay_struct.half_life_error r))
           (parent_block parent (decay_data s))) s /\
  decay_photon_branch_ratios nd (S fuel) parent s
  = Ret (first_record_repeated
           (fun r => (decay_struct.photon_branch_ratio r,
                      decay_struct.photon_branch_ratio_error r))
           (parent_block parent (decay_data s))) s /\
  decay_beta_branch_ratios nd (S fuel) parent s
  = Ret (first_record_repeated
           (fun r => (decay_struct.beta_branch_ratio r,
                      decay_struct.beta_branch_ratio_error r))
           (parent_block parent (decay_data s))) s.
Proof.
  intros Hasc He. split; [|split].
  - apply (decay_pairs_block fuel parent decay_struct.half_life
             decay_struct.half_life_error s Hasc He).
  - apply (decay_pairs_block fuel parent decay_struct.photon_branch_ratio
             decay_struct.photon_branch_ratio_error s Hasc He).
  - apply (decay_pairs_block fuel parent decay_struct.beta_branch_ratio
             decay_struct.beta_branch_ratio_error s Hasc He).
Qed.

End DecayBlocks.

Lemma decay_range_repeats_first_record_witness :
  decay_half_lifes no_rows_nuc_data 1 10030000 loaded_caches
  = Ret [(388800000%float, 64%float); (388800000%float, 64%float)] loaded_caches /\
  decay_photon_branch_ratios no_rows_nuc_data 1 10030000 loaded_caches
  = Ret [(0%float, 0%float); (0%float, 0%float)] loaded_caches /\
  decay_beta_branch_ratios no_rows_nuc_data 1 10030000 loaded_caches
  = Ret [(1%float, 0%float); (1%float, 0%float)] loaded_caches.
Proof.
  apply (decay_range_repeats_first_record no_rows_nuc_data 0%nat 10030000
           loaded_caches).
  - unfold pair_ascending. cbn. repeat constructor.
  - reflexivity.
Defined.

(** ** Range queries on the gamma table *)

Lemma pair_up_in {A B : Type} (part1 : list A) :
  forall (part2 : list B) (i : nat) (l : list (A * B)),
    pair_up part1 part2 i = Some l ->
    forall a b, In (a, b) l -> In a part1 /\ In b part2.
Proof.
  induction part1 as [|x part1 IH]; intros part2 i l Hl a b Hin.
  - inversion Hl; subst. destruct Hin.
  - cbn [pair_up] in Hl. destruct (nth_error part2 i) as [y|] eqn:Hy; [|discriminate].
    destruct (pair_up part1 part2 (S i)) as [rest|] eqn:Hrest; [|discriminate].
    cbn [option_map] in Hl. inversion Hl; subst.
    destruct Hin as [E | Hin].
    + inversion E; subst. split; [left; reflexivity|].
      exact (nth_error_In _ _ Hy).
    + destruct (IH _ _ _ Hrest a b Hin). split; [right|]; assumption.
Qed.

Lemma gamma_pairs_all_equal {A B : Type} (nd : nuc_data) (int_of_DBL_MAX : Z)
  (fuel : nat) (parent : Z) (f : gamma_struct.t -> A) (g : gamma_struct.t -> B)
  (s : caches) (l : list (A * B)) (s' : caches) :
  bind (data_access_parent_energy int_of_DBL_MAX (_load_gamma_data nd) gamma_data
          fuel parent f s)
    (fun part1 s =>
       bind (data_access_parent_energy int_of_DBL_MAX (_load_gamma_data nd)
               gamma_data fuel parent g s)
         (fun part2 s => pair_parts part1 part2 s))
  = Ret l s' ->
  all_equal l.
Proof.
  intros Hret.
  destruct (data_access_parent_energy _ _ _ fuel parent f s) as [p1 s1| | |] eqn:H1;
    cbn [bind] in Hret; try discriminate.
  destruct (data_access_parent_energy _ _ _ fuel parent g s1) as [p2 s2| | |] eqn:H2;
    cbn [bind] in Hret; try discriminate.
  unfold pair_parts in Hret.
  destruct (pair_up p1 p2 0) as [l0|] eqn:Hp; [|discriminate].
  inversion Hret; subst. intros [a b] [a' b'] Hx Hy.
  destruct (pair_up_in _ _ _ _ Hp a b Hx) as [Ha Hb].
  destruct (pair_up_in _ _ _ _ Hp a' b' Hy) as [Ha' Hb'].
  rewrite (data_access_parent_energy_constant _ _ _ _ _ _ _ _ _ H1 a a' Ha Ha').
  rewrite (data_access_parent_energy_constant _ _ _ _ _ _ _ _ _ H2 b b' Hb Hb').
  reflexivity.
Qed.

(** X19: whatever the dataset, the tables and the value of [(int)
    DBL_MAX], when one of the range accessors [gamma_energy],
    [gamma_photon_intensity], [gamma_conversion_intensity] and
    [gamma_total_intensity] returns a vector, all the pairs of the vector
    are the same pair. *)
Theorem gamma_ranges_list_one_pair (nd : nuc_data) (int_of_DBL_MAX : Z)
  (fuel : nat) (parent : Z) (s : caches) (l : list (double * double))
  (s' : caches) :
  gamma_energy nd int_of_DBL_MAX fuel parent s = Ret l s' \/
  gamma_photon_intensity nd int_of_DBL_MAX fuel parent s = Ret l s' \/
  gamma_conversion_intensity nd int_of_DBL_MAX fuel parent s = Ret l s' \/
  gamma_total_intensity nd int_of_DBL_MAX fuel parent s = Ret l s' ->
  all_equal l.
Proof.
  intros [H | [H | [H | H]]];
    exact (gamma_pairs_all_equal nd int_of_DBL_MAX fuel parent _ _ s l s' H).
Qed.

Lemma gamma_ranges_list_one_pair_witness :
  all_equal [(1173.25%float, 0.5%float); (1173.25%float, 0.5%float)].
Proof.
  apply (gamma_ranges_list_one_pair co60_nuc_data 2147483647 2%nat 270600000
           init_caches _ co60_gamma_caches).
  left. vm_compute. reflexivity.
Defined.

Section EnergyWindow.
Variable nd : nuc_data.

Lemma data_access_energy_above {T : Type} (fuel : nat)
  (energy_min energy_max : double) (first_min first_max : Z)
  (valoffset : gamma_struct.t -> T) (s : caches) :
  int_of_double energy_min = Some first_min ->
  int_of_double energy_max = Some first_max ->
  stdmap.empty (gamma_data s) = false ->
  Forall (fun kv => first_min < fst (fst kv) /\ first_max < fst (fst kv))
    (gamma_data s) ->
  data_access_energy (_load_gamma_data nd) gamma_data (S fuel)
    energy_min energy_max valoffset s
  = Ret [] s.
Proof.
  intros Hmin Hmax He Hall. cbn [data_access_energy]. rewrite Hmin, Hmax, He.
  destruct (gamma_data s) as [|[[p en] r] m]; [discriminate He|].
  inversion Hall as [|? ? [Hlo Hhi] _]; subst. cbn [fst] in Hlo, Hhi.
  cbn [stdmap.lower_bound stdmap.upper_bound].
  unfold int_double_lt at 1 3, pair_lt. cbn [fst snd].
  destruct (Z.ltb_spec p first_min); [lia|].
  destruct (Z.ltb_spec first_min p); [|lia].
  destruct (Z.ltb_spec first_max p); [|lia].
  cbn [negb andb orb stdmap.iterate]. rewrite Nat.eqb_refl. reflexivity.
Qed.

(** X20: on a loaded gamma table, when every parent ID of the table is
    above both [(int)(energy+error)] and [(int)(energy-error)], the
    energy-window queries [gamma_parent] and [gamma_from_to] return the
    empty vector, whatever lines the table has inside the window, and
    change no table. *)
Theorem gamma_energy_window_is_empty (fuel : nat) (energy error : double)
  (first_min first_max : Z) (s : caches) :
  int_of_double (energy + error)%float = Some first_min ->
  int_of_double (energy - error)%float = Some first_max ->
  stdmap.empty (gamma_data s) = false ->
  Forall (fun kv => first_min < fst (fst kv) /\ first_max < fst (fst kv))
    (gamma_data s) ->
  gamma_parent nd (S fuel) energy error s = Ret [] s /\
  gamma_from_to_energy nd (S fuel) energy error s = Ret [] s.
Proof.
  intros Hmin Hmax He Hall. unfold gamma_parent, gamma_from_to_energy. split.
  - exact (data_access_energy_above fuel _ _ _ _ _ s Hmin Hmax He Hall).
  - rewrite (data_access_energy_above fuel _ _ _ _ gamma_struct.from_nuc s
               Hmin Hmax He Hall).
    cbn [bind].
    rewrite (data_access_energy_above fuel _ _ _ _ gamma_struct.to_nuc s
               Hmin Hmax He Hall).
    reflexivity.
Qed.

End EnergyWindow.

Lemma gamma_energy_window_is_empty_witness :
  gamma_parent co60_nuc_data 1 1173.25%float 1%float co60_gamma_caches
  = Ret [] co60_gamma_caches /\
  gamma_from_to_energy co60_nuc_data 1 1173.25%float 1%float co60_gamma_caches
  = Ret [] co60_gamma_caches.
Proof.
  apply (gamma_energy_window_is_empty co60_nuc_data 0%nat 1173.25%float 1%float
           1174 1172 co60_gamma_caches).
  - vm_compute. reflexivity.
  - vm_compute. reflexivity.
  - reflexivity.
  - repeat constructor.
Defined.

(** ** Natural abundance of an ID the dataset does not hold *)

Lemma last_row_absent {R : Type} (p : R -> bool) (rows : list R) :
  (forall r, In r rows -> p r = false) -> last_row p rows = None.
Proof.
  induction rows as [|r rows IH]; intros Hab; [reflexivity|].
  rewrite last_row_cons, IH by (intros r' Hr'; apply Hab; right; exact Hr').
  rewrite (Hab r (or_introl eq_refl)). reflexivity.
Qed.

Lemma abundance_of_rows_absent rows nuc :
  (forall r, In r rows -> atomic_mass_struct.nuc r <> nuc) ->
  abundance_of_rows rows nuc = None.
Proof.
  intros Hab. unfold abundance_of_rows. rewrite last_row_absent; [reflexivity|].
  intros r Hr. apply Z.eqb_neq. apply Hab. exact Hr.
Qed.

Section AbsentAbundance.
Context {NN : NucName}.
Variable nd : nuc_data.

(** A load of a dataset with rows leaves a loaded abundance table, on a
    table that was empty as on one that was loaded before. *)
Lemma load_leaves_abundance_table s :
  natural_abund_map s = [] /\ tbl_atomic_mass nd <> [] \/
  abundance_table_loaded (tbl_atomic_mass nd) s ->
  abundance_table_loaded (tbl_atomic_mass nd)
    (fold_left atomic_mass_row (tbl_atomic_mass nd) s).
Proof.
  intros Hs. unfold abundance_table_loaded. rewrite load_natural_abund_map. split.
  - apply fold_insert_not_empty.
    destruct Hs as [[_ Hrows] | [He _]]; [left | right]; assumption.
  - intros k. rewrite fold_insert_find_last. unfold abundance_of_rows.
    destruct (last_row (fun r => atomic_mass_struct.nuc r =? k) (tbl_atomic_mass nd))
      as [r|] eqn:Hlast; cbn [option_map]; [reflexivity|].
    destruct Hs as [[Hs _] | [_ Hinv]].
    + left. rewrite Hs. reflexivity.
    + specialize (Hinv k). unfold abundance_of_rows in Hinv.
      rewrite Hlast in Hinv. exact Hinv.
Qed.

(** Storing the 0.0 fallback of an ID that the dataset does not hold
    keeps the table a loaded one. *)
Lemma fallback_keeps_abundance_table nuc s :
  abundance_table_loaded (tbl_atomic_mass nd) s ->
  stdmap.find int_lt nuc (natural_abund_map s) = None ->
  Z.rem (nucname_id nuc) 10000 <= 0 ->
  abundance_table_loaded (tbl_atomic_mass nd)
    (set_natural_abund_map
       (stdmap.insert int_lt nuc 0%float (natural_abund_map s)) s).
Proof.
  intros [He Hinv] Hf Hg. split.
  - cbn [natural_abund_map set_natural_abund_map]. apply insert_not_empty.
  - intros k. cbn [natural_abund_map set_natural_abund_map].
    specialize (Hinv k). destruct (Z.eq_dec nuc k) as [E|E].
    + subst k. rewrite find_insert_same.
      destruct (abundance_of_rows (tbl_atomic_mass nd) nuc) as [a|].
      * rewrite Hf in Hinv. discriminate.
      * right. split; [reflexivity | exact Hg].
    + rewrite (find_insert_other nuc k 0%float _ E). exact Hinv.
Qed.

(** [natural_abund] keeps a loaded abundance table a loaded one. *)
Lemma natural_abund_keeps_abundance_table fuel :
  forall nuc s v s',
    abundance_table_loaded (tbl_atomic_mass nd) s ->
    natural_abund nd fuel nuc s = Ret v s' ->
    abundance_table_loaded (tbl_atomic_mass nd) s'.
Proof.
  induction fuel as [|fuel IH]; intros nuc s v s' Hinv Hret; [discriminate|].
  cbn [natural_abund] in Hret.
  destruct (stdmap.find int_lt nuc (natural_abund_map s)) as [v0|] eqn:Hf.
  - inversion Hret; subst. exact Hinv.
  - destruct Hinv as [He Hall]. rewrite He in Hret.
    destruct (Z.ltb_spec 0 (Z.rem (nucname_id nuc) 10000)) as [Hx|Hg].
    + destruct (natural_abund nd fuel (Z.quot (nucname_id nuc) 10000 * 10000) s)
        as [na s1| | |] eqn:Hground; cbn [bind] in Hret; try discriminate.
      inversion Hret; subst.
      destruct (IH _ _ _ _ (conj He Hall) Hground) as [He1 Hall1].
      split; [exact He1 | exact Hall1].
    + inversion Hret; subst.
      apply fallback_keeps_abundance_table; [split; assumption | exact Hf | exact Hg].
Qed.

(** The call that finds the abundance table empty loads a dataset with
    rows and leaves a loaded table. *)
Lemma natural_abund_first_call_loads fuel nuc s v s' :
  load_failure nd = None ->
  tbl_atomic_mass nd <> [] ->
  natural_abund_map s = [] ->
  natural_abund nd fuel nuc s = Ret v s' ->
  abundance_table_loaded (tbl_atomic_mass nd) s'.
Proof.
  intros Hok Hrows Hs Hret. destruct fuel as [|fuel]; [discriminate|].
  cbn [natural_abund] in Hret. rewrite Hs in Hret.
  cbn [stdmap.find stdmap.empty] in Hret.
  rewrite (load_atomic_mass_map_ok nd s Hok) in Hret. cbn [bind] in Hret.
  destruct (natural_abund nd fuel nuc
              (fold_left atomic_mass_row (tbl_atomic_mass nd) s))
    as [v1 s1|e s1| |] eqn:Hin; cbn [try_catch] in Hret; try discriminate.
  - inversion Hret; subst.
    apply (natural_abund_keeps_abundance_table fuel nuc
             (fold_left atomic_mass_row (tbl_atomic_mass nd) s) v s'); [|exact Hin].
    apply load_leaves_abundance_table. left. split; assumption.
  - exfalso. exact (natural_abund_never_throws nd fuel nuc _ e s1 Hin).
Qed.

(** [atomic_mass], which may load the dataset again, keeps a loaded
    abundance table a loaded one. *)
Lemma atomic_mass_keeps_abundance_table fuel :
  forall nuc s v s',
    abundance_table_loaded (tbl_atomic_mass nd) s ->
    atomic_mass nd fuel nuc s = Ret v s' ->
    abundance_table_loaded (tbl_atomic_mass nd) s'.
Proof.
  induction fuel as [|fuel IH]; intros nuc s v s' Hinv Hret; [discriminate|].
  cbn [atomic_mass] in Hret.
  destruct (stdmap.find int_lt nuc (atomic_mass_map s)) as [v0|] eqn:Hf.
  { inversion Hret; subst. exact Hinv. }
  assert (Hguess : forall s0,
             abundance_table_loaded (tbl_atomic_mass nd) s0 ->
             (if 0 <? Z.rem (nucname_id nuc) 10000
              then bind (atomic_mass nd fuel (Z.quot (nucname_id nuc) 10000 * 10000) s0)
                     (fun aw s1 =>
                        Ret aw (set_atomic_mass_map
                                  (stdmap.insert int_lt nuc aw (atomic_mass_map s1)) s1))
              else Ret (double_of_int (Z.rem (Z.quot (nucname_id nuc) 10000) 1000))
                     (set_atomic_mass_map
                        (stdmap.insert int_lt nuc
                           (double_of_int (Z.rem (Z.quot (nucname_id nuc) 10000) 1000))
                           (atomic_mass_map s0)) s0))
             = Ret v s' ->
             abundance_table_loaded (tbl_atomic_mass nd) s').
  { intros s0 Hinv0 Hg.
    destruct (0 <? Z.rem (nucname_id nuc) 10000).
    - destruct (atomic_mass nd fuel (Z.quot (nucname_id nuc) 10000 * 10000) s0)
        as [aw s1| | |] eqn:Hground; cbn [bind] in Hg; try discriminate.
      inversion Hg; subst. exact (IH _ _ _ _ Hinv0 Hground).
    - inversion Hg; subst. exact Hinv0. }
  destruct (stdmap.empty (atomic_mass_map s)); [|exact (Hguess s Hinv Hret)].
  unfold _load_atomic_mass_map, open_nuc_data in Hret.
  destruct (load_failure nd) as [e|]; cbn [bind try_catch] in Hret.
  - exact (Hguess s Hinv Hret).
  - destruct (atomic_mass nd fuel nuc
                (fold_left atomic_mass_row (tbl_atomic_mass nd) s))
      as [v1 s1|e s1| |] eqn:Hin; try discriminate.
    + cbn [try_catch] in Hret. inversion Hret; subst.
      apply (IH nuc (fold_left atomic_mass_row (tbl_atomic_mass nd) s) v s');
        [|exact Hin].
      apply load_leaves_abundance_table. right. exact Hinv.
    + exfalso. exact (atomic_mass_never_throws nd fuel nuc _ e s1 Hin).
Qed.

(** On a dataset that opens but has no rows the abundance table stays
    empty, and [natural_abund] loads and asks again without end. *)
Lemma natural_abund_no_rows_never_returns fuel :
  forall nuc s,
    load_failure nd = None ->
    tbl_atomic_mass nd = [] ->
    natural_abund_map s = [] ->
    natural_abund nd fuel nuc s = OutOfFuel.
Proof.
  induction fuel as [|fuel IH]; intros nuc s Hok Hrows Hs; [reflexivity|].
  cbn [natural_abund]. rewrite Hs. cbn [stdmap.find stdmap.empty].
  rewrite (load_atomic_mass_map_ok nd s Hok), Hrows. cbn [fold_left bind].
  rewrite (IH nuc s Hok Hrows Hs). reflexivity.
Qed.

(** The ground-state lookup that an excited-state lookup makes, on a
    loaded table. *)
Lemma natural_abund_ground_loaded fuel g s :
  abundance_table_loaded (tbl_atomic_mass nd) s ->
  Z.rem (nucname_id g) 10000 <= 0 ->
  exists s1,
    natural_abund nd (S fuel) g s
    = Ret match abundance_of_rows (tbl_atomic_mass nd) g with
          | Some a => a
          | None => 0%float
          end s1 /\
    stdmap.find int_lt g (natural_abund_map s1)
    = Some match abundance_of_rows (tbl_atomic_mass nd) g with
           | Some a => a
           | None => 0%float
           end.
Proof.
  intros [He Hall] Hg. pose proof (Hall g) as Hk.
  destruct (abundance_of_rows (tbl_atomic_mass nd) g) as [a|].
  - exists s. split; [apply natural_abund_found; exact Hk | exact Hk].
  - destruct Hk as [Hf | [Hf _]].
    + eexists. split; [apply natural_abund_ground_guess; assumption|].
      cbn [natural_abund_map set_natural_abund_map]. apply find_insert_same.
    + exists s. split; [apply natural_abund_found; exact Hf | exact Hf].
Qed.

Lemma natural_abund_absent_loaded fuel nuc s :
  abundance_table_loaded (tbl_atomic_mass nd) s ->
  abundance_of_rows (tbl_atomic_mass nd) nuc = None ->
  (0 < Z.rem (nucname_id nuc) 10000 ->
   Z.rem (nucname_id (ground_state_of nuc)) 10000 <= 0) ->
  exists s',
    natural_abund nd (S (S fuel)) nuc s
    = Ret (if 0 <? Z.rem (nucname_id nuc) 10000
           then match abundance_of_rows (tbl_atomic_mass nd) (ground_state_of nuc) with
                | Some a => a
                | None => 0%float
                end
           else 0%float) s' /\
    (Z.rem (nucname_id nuc) 10000 <= 0 ->
     stdmap.find int_lt nuc (natural_abund_map s') = Some 0%float).
Proof.
  intros Hinv Hab Hname. pose proof Hinv as [He Hall].
  pose proof (Hall nuc) as Hk. rewrite Hab in Hk.
  destruct (Z.ltb_spec 0 (Z.rem (nucname_id nuc) 10000)) as [Hx|Hg].
  - destruct Hk as [Hf | [_ Hg]]; [|lia].
    destruct (natural_abund_ground_loaded fuel (ground_state_of nuc) s Hinv
                (Hname Hx)) as (s1 & Hground & _).
    rewrite (natural_abund_excited_guess nd (S fuel) nuc s Hf He Hx), Hground.
    cbn [bind]. eexists. split; [reflexivity | lia].
  - destruct Hk as [Hf | [Hf _]].
    + eexists. split; [apply natural_abund_ground_guess; assumption|].
      intros _. cbn [natural_abund_map set_natural_abund_map].
      apply find_insert_same.
    + exists s. split; [apply natural_abund_found; exact Hf | intros _; exact Hf].
Qed.

(** C8 (as amended): for an ID that no row of the loaded, non-empty
    abundance dataset holds, on the call that loads the dataset as on any
    later call (the abundance table is still empty, or a loaded one),
    [natural_abund] returns exactly 0.0 when the ID has no excited state
    field, and also when no row holds its ground state; for an
    excited-state ID whose ground state is in the dataset it returns the
    abundance of the ground state's last row.  The table it leaves is a
    loaded one, and holds the 0.0 under an ID without an excited state
    field.  The name service gives the ground state of an excited-state
    ID no excited state field. *)
Theorem natural_abund_absent_id (fuel : nat) (nuc : Z) (s : caches) :
  load_failure nd = None ->
  tbl_atomic_mass nd <> [] ->
  (forall r, In r (tbl_atomic_mass nd) -> atomic_mass_struct.nuc r <> nuc) ->
  natural_abund_map s = [] \/ abundance_table_loaded (tbl_atomic_mass nd) s ->
  (0 < Z.rem (nucname_id nuc) 10000 ->
   Z.rem (nucname_id (ground_state_of nuc)) 10000 <= 0) ->
  exists v s',
    natural_abund nd (S (S (S fuel))) nuc s = Ret v s' /\
    abundance_table_loaded (tbl_atomic_mass nd) s' /\
    (Z.rem (nucname_id nuc) 10000 <= 0 ->
     v = 0%float /\
     stdmap.find int_lt nuc (natural_abund_map s') = Some 0%float) /\
    ((forall r, In r (tbl_atomic_mass nd) ->
                atomic_mass_struct.nuc r <> ground_state_of nuc) ->
     v = 0%float) /\
    (forall r,
       0 < Z.rem (nucname_id nuc) 10000 ->
       last_row (fun r => atomic_mass_struct.nuc r =? ground_state_of nuc)
         (tbl_atomic_mass nd) = Some r ->
       v = atomic_mass_struct.abund r).
Proof.
  intros Hok Hrows Habs Hs Hname.
  pose proof (abundance_of_rows_absent _ _ Habs) as Hab.
  set (v := if 0 <? Z.rem (nucname_id nuc) 10000
            then match abundance_of_rows (tbl_atomic_mass nd)
                         (ground_state_of nuc) with
                 | Some a => a
                 | None => 0%float
                 end
            else 0%float).
  assert (Hcall : exists s',
             natural_abund nd (S (S (S fuel))) nuc s = Ret v s' /\
             abundance_table_loaded (tbl_atomic_mass nd) s' /\
             (Z.rem (nucname_id nuc) 10000 <= 0 ->
              stdmap.find int_lt nuc (natural_abund_map s') = Some 0%float)).
  { destruct Hs as [Hs | Hinv].
    - assert (Hinv1 : abundance_table_loaded (tbl_atomic_mass nd)
                        (fold_left atomic_mass_row (tbl_atomic_mass nd) s)).
      { apply load_leaves_abundance_table. left. split; assumption. }
      destruct (natural_abund_absent_loaded fuel nuc _ Hinv1 Hab Hname)
        as (s' & Hret & Hstored).
      exists s'. split; [|split].
      + apply natural_abund_after_load; assumption.
      + exact (natural_abund_keeps_abundance_table _ _ _ _ _ Hinv1 Hret).
      + exact Hstored.
    - destruct (natural_abund_absent_loaded (S fuel) nuc s Hinv Hab Hname)
        as (s' & Hret & Hstored).
      exists s'. split; [exact Hret|]. split; [|exact Hstored].
      exact (natural_abund_keeps_abundance_table _ _ _ _ _ Hinv Hret). }
  destruct Hcall as (s' & Hret & Hinv' & Hstored).
  exists v, s'. split; [exact Hret|]. split; [exact Hinv'|].
  split; [|split].
  - intros Hg. assert (Ev : v = 0%float).
    { unfold v. destruct (Z.ltb_spec 0 (Z.rem (nucname_id nuc) 10000));
        [lia | reflexivity]. }
    split; [exact Ev | exact (Hstored Hg)].
  - intros Habg. unfold v.
    rewrite (abundance_of_rows_absent _ _ Habg).
    destruct (0 <? Z.rem (nucname_id nuc) 10000); reflexivity.
  - intros r Hx Hlast. unfold v, abundance_of_rows. rewrite Hlast.
    destruct (Z.ltb_spec 0 (Z.rem (nucname_id nuc) 10000)); [reflexivity | lia].
Qed.

End AbsentAbundance.

Lemma natural_abund_absent_id_witness :
  (exists s',
     natural_abund (NN := canonical_nucname) u235_nuc_data 3 922380001
       loaded_caches
     = Ret 0%float s' /\
     abundance_table_loaded (NN := canonical_nucname)
       (tbl_atomic_mass u235_nuc_data) s') /\
  (exists s',
     natural_abund (NN := canonical_nucname) u235_nuc_data 3 922380000
       init_caches
     = Ret 0%float s' /\
     stdmap.find int_lt 922380000 (natural_abund_map s') = Some 0%float).
Proof.
  split.
  - destruct (@natural_abund_absent_id canonical_nucname u235_nuc_data 0%nat
                922380001 loaded_caches)
      as (v & s' & Hret & Hinv & _ & Hzero & _).
    + reflexivity.
    + discriminate.
    + intros r [<- | []]. discriminate.
    + right. split; [reflexivity|]. intros k.
      unfold abundance_of_rows, last_row.
      cbn [tbl_atomic_mass u235_nuc_data rev app List.find atomic_mass_struct.nuc].
      destruct (Z.eqb_spec 922350000 k) as [E|E]; cbn [option_map].
      * subst k. reflexivity.
      * left. cbn [natural_abund_map loaded_caches stdmap.find].
        rewrite int_equiv_eqb.
        destruct (Z.eqb_spec k 922350000); [congruence | reflexivity].
    + intros _. vm_compute. discriminate.
    + exists s'. split; [|exact Hinv]. rewrite Hret. f_equal. apply Hzero.
      intros r [<- | []]. discriminate.
  - destruct (@natural_abund_absent_id canonical_nucname u235_nuc_data 0%nat
                922380000 init_caches)
      as (v & s' & Hret & _ & Hground & _).
    + reflexivity.
    + discriminate.
    + intros r [<- | []]. discriminate.
    + left. reflexivity.
    + intros Hx. vm_compute in Hx. discriminate.
    + destruct Hground as [Ev Hstored]; [vm_compute; discriminate|].
      exists s'. split; [|exact Hstored]. rewrite Hret, Ev. reflexivity.
Defined.
